(** * Trust report: decision-tree analysis and feature-ablation loop

    A shallow embedding of [skexplain/report/trust.py]:
    - [BlackboxVerdict], the three-valued verdict enumeration;
    - [get_dt_info] with its inner recursive [walk_tree], which walks the
      parallel node arrays of a fitted scikit-learn decision tree and
      accumulates feature usage, split records and leaf branches;
    - [fit_and_explain] and the data-collection half of [trust_report],
      whose [while] loop zeroes the most used feature and refits.

    Modelling conventions.
    - numpy arrays are lists indexed by [Z]; [getitem] follows numpy:
      a negative index counts from the end, anything else out of range
      raises [IndexError].
    - Exceptions are values of [exn]; a computation returns an [outcome].
    - Every float of the program (thresholds, class counts, impurities,
      dataset cells) is an exact rational in [Q]; sample counts are
      mathematical integers.
    - A Python [dict] is an association list in insertion order, because
      [sorted] is stable and the order of equal keys is observable.
    - The recursion of [walk_tree] is bounded by a recursion limit, as in
      the interpreter; exceeding it raises [RecursionError].
    - Model training, tree extraction and scoring are external
      collaborators; they enter through the class [Externals].
    - [trust_report] is modelled as called with an explicit split
      ([X_train], [X_test], [y_train], [y_test]); its three container
      branches (DataFrame, tensor, ndarray) assign the zero column in the
      same way and are modelled once, on [matrix]. *)

From Stdlib Require Import ZArith QArith List Bool Lia String Permutation Sorted.
Import ListNotations.
Local Open Scope Z_scope.

(* ================================================================= *)
(** ** Exceptions and outcomes *)

Inductive exn : Type :=
| IndexError
| ValueError
| RecursionError
| AttributeError
| ZeroDivisionError.

Inductive outcome (A : Type) : Type :=
| Ret (a : A)
| Raise (e : exn).

Arguments Ret {A} a.
Arguments Raise {A} e.

Definition obind {A B} (m : outcome A) (k : A -> outcome B) : outcome B :=
  match m with
  | Ret a => k a
  | Raise e => Raise e
  end.

(* ================================================================= *)
(** ** The verdict enumeration *)

(** [class BlackboxVerdict(Enum)]: each member is declared as a pair
    [value, color]; [__new__] keeps the first component as [_value_] and
    [__init__] stores the second as [_color_]. *)
Inductive BlackboxVerdict : Type :=
| TRUSTWORTHY
| INCONCLUSIVE
| UNTRUSTWORTHY.

Definition value_ (v : BlackboxVerdict) : Z :=
  match v with
  | TRUSTWORTHY => 1
  | INCONCLUSIVE => 2
  | UNTRUSTWORTHY => 3
  end.

(** The [color] property. *)
Definition color (v : BlackboxVerdict) : string :=
  match v with
  | TRUSTWORTHY => "green"
  | INCONCLUSIVE => "yellow"
  | UNTRUSTWORTHY => "red"
  end.

(** The declaration table, in declaration order. *)
Definition BlackboxVerdict_members : list (BlackboxVerdict * (Z * string)) :=
  [ (TRUSTWORTHY, (1, "green"%string));
    (INCONCLUSIVE, (2, "yellow"%string));
    (UNTRUSTWORTHY, (3, "red"%string)) ].

(* ================================================================= *)
(** ** numpy primitives *)

(** [a[i]] on a Python list or a one-dimensional numpy array. *)
Definition getitem {A} (a : list A) (i : Z) : outcome A :=
  let n := Z.of_nat (List.length a) in
  let j := if i <? 0 then i + n else i in
  if (0 <=? j) && (j <? n) then
    match nth_error a (Z.to_nat j) with
    | Some x => Ret x
    | None => Raise IndexError
    end
  else Raise IndexError.

(** [np.sum] on integer and float arrays. *)
Definition np_sum_Z (a : list Z) : Z := fold_right Z.add 0 a.
Definition np_sum (a : list Q) : Q := fold_right Qplus (0%Q) a.
Definition np_sum2 (a : list (list Q)) : Q := np_sum (map np_sum a).

(** [np.argmax]: index of the first occurrence of the maximum;
    [ValueError] on an empty array. *)
Fixpoint argmax_from (best : Q) (besti : Z) (i : Z) (l : list Q) : Z :=
  match l with
  | [] => besti
  | x :: l' =>
      if Qle_bool x best
      then argmax_from best besti (i + 1) l'
      else argmax_from x i (i + 1) l'
  end.

Definition np_argmax (l : list Q) : outcome Z :=
  match l with
  | [] => Raise ValueError
  | x :: l' => Ret (argmax_from x 0 1 l')
  end.

(* ================================================================= *)
(** ** The fitted tree and the analyser's records *)

(** [dt.tree_]: parallel arrays indexed by node id.  [value] has shape
    [(node_count, n_outputs, n_classes)]. *)
Record Tree : Type := {
  children_left : list Z;
  children_right : list Z;
  feature : list Z;
  threshold : list Q;
  value : list (list (list Q));
  n_node_samples : list Z;
  impurity : list Q;
  n_classes : list Z
}.

(** A path element [(feature, op, threshold)], [op] being ["<="] or [">"]. *)
Definition predicate : Type := Z * string * Q.

(** The dictionary built at a leaf. *)
Record Branch : Type := {
  b_path : list predicate;
  b_class : Z;
  b_prob : Q;
  b_samples : Z
}.

(** The dictionary appended to [splits] at an internal node. *)
Record Split : Type := {
  s_idx : Z;
  s_feature : Z;
  s_threshold : Q;
  s_samples : Z;
  s_values : list (list Q);
  s_gini_split : Q * Q;
  s_data_split : Q * Q;
  s_data_split_by_class : list (Q * Q)
}.

(** A value of [features_used]: [{"count": _, "samples": _}]. *)
Record usage : Type := {
  u_count : Z;
  u_samples : Z
}.

(** [features_used], in insertion order. *)
Definition usage_dict : Type := list (Z * usage).

Fixpoint dict_get (k : Z) (d : usage_dict) : option usage :=
  match d with
  | [] => None
  | (k', v) :: d' => if k =? k' then Some v else dict_get k d'
  end.

(** [if k not in d: d[k] = v]. *)
Fixpoint dict_setdefault (k : Z) (v : usage) (d : usage_dict) : usage_dict :=
  match d with
  | [] => [(k, v)]
  | (k', v') :: d' =>
      if k =? k' then d else (k', v') :: dict_setdefault k v d'
  end.

(** In-place update of the entry stored under [k]. *)
Fixpoint dict_modify (k : Z) (g : usage -> usage) (d : usage_dict) : usage_dict :=
  match d with
  | [] => []
  | (k', v') :: d' =>
      if k =? k' then (k', g v') :: d' else (k', v') :: dict_modify k g d'
  end.

(** The three statements of [walk_tree] that touch [features_used]. *)
Definition record_usage (f : Z) (s : Z) (d : usage_dict) : usage_dict :=
  let d1 := dict_setdefault f {| u_count := 0; u_samples := 0 |} d in
  let d2 := dict_modify f (fun u => {| u_count := u_count u + 1; u_samples := u_samples u |}) d1 in
  dict_modify f (fun u => {| u_count := u_count u; u_samples := u_samples u + s |}) d2.

(* ================================================================= *)
(** ** [get_dt_info] *)

(** The two closure variables [walk_tree] mutates. *)
Record walker_state : Type := {
  features_used : usage_dict;
  splits : list Split
}.

(** State and exceptions of the walk. *)
Definition W (A : Type) : Type := walker_state -> outcome (A * walker_state).

Definition wret {A} (a : A) : W A := fun st => Ret (a, st).

Definition wbind {A B} (m : W A) (k : A -> W B) : W B :=
  fun st =>
    match m st with
    | Ret (a, st') => k a st'
    | Raise e => Raise e
    end.

Definition wlift {A} (m : outcome A) : W A :=
  fun st =>
    match m with
    | Ret a => Ret (a, st)
    | Raise e => Raise e
    end.

Definition wmodify (g : walker_state -> walker_state) : W unit :=
  fun st => Ret (tt, g st).

Notation "x <- m ;; k" := (wbind m (fun x => k))
  (at level 61, m at next level, right associativity).
Notation "m ;;; k" := (wbind m (fun _ => k))
  (at level 61, right associativity).

Definition zip {A B} (a : list A) (b : list B) : list (A * B) := combine a b.

Section Walk.

Variable dt : Tree.

(** The leaf dictionary of [walk_tree]. *)
Definition leaf_branch (node : Z) (path : list predicate) : outcome Branch :=
  obind (getitem (value dt) node) (fun v =>
  obind (getitem v 0) (fun v0 =>
  obind (np_argmax v0) (fun node_class =>
  obind (getitem v0 node_class) (fun c =>
  obind (getitem (n_node_samples dt) node) (fun s =>
  Ret {| b_path := path;
         b_class := node_class;
         b_prob := ((c / np_sum v0) * 100)%Q;
         b_samples := s |}))))).

(** The dictionary appended to [splits]. *)
Definition split_record (node f : Z) (th : Q) (left right : Z) : outcome Split :=
  obind (getitem (n_node_samples dt) node) (fun s =>
  obind (getitem (value dt) node) (fun v =>
  obind (getitem (impurity dt) left) (fun il =>
  obind (getitem (impurity dt) right) (fun ir =>
  obind (getitem (value dt) left) (fun vl =>
  obind (getitem (value dt) right) (fun vr =>
  obind (getitem vl 0) (fun vl0 =>
  obind (getitem vr 0) (fun vr0 =>
  Ret {| s_idx := node;
         s_feature := f;
         s_threshold := th;
         s_samples := s;
         s_values := v;
         s_gini_split := (il, ir);
         s_data_split := (np_sum2 vl, np_sum2 vr);
         s_data_split_by_class := zip vl0 vr0 |})))))))).

(** [walk_tree(node, path)]; [limit] is the remaining recursion depth. *)
Fixpoint walk_tree (limit : nat) (node : Z) (path : list predicate)
  : W (list Branch) :=
  match limit with
  | O => wlift (Raise RecursionError)
  | S limit' =>
      l <- wlift (getitem (children_left dt) node) ;;
      r <- wlift (getitem (children_right dt) node) ;;
      if l =? r then
        b <- wlift (leaf_branch node path) ;;
        wret [b]
      else
        f <- wlift (getitem (feature dt) node) ;;
        th <- wlift (getitem (threshold dt) node) ;;
        s <- wlift (getitem (n_node_samples dt) node) ;;
        wmodify (fun st => {| features_used := record_usage f s (features_used st);
                              splits := splits st |}) ;;;
        sp <- wlift (split_record node f th l r) ;;
        wmodify (fun st => {| features_used := features_used st;
                              splits := splits st ++ [sp] |}) ;;;
        bl <- walk_tree limit' l (path ++ [(f, "<="%string, th)]) ;;
        br <- walk_tree limit' r (path ++ [(f, ">"%string, th)]) ;;
        wret (bl ++ br)
  end.

(** [get_dt_info(dt)]: [(features_used, splits, branches, samples_sum)]. *)
Definition get_dt_info (limit : nat)
  : outcome (usage_dict * list Split * list Branch * Z) :=
  let samples_sum := np_sum_Z (n_node_samples dt) in
  match walk_tree limit 0 [] {| features_used := []; splits := [] |} with
  | Ret (branches, st) =>
      Ret (features_used st, splits st, branches, samples_sum)
  | Raise e => Raise e
  end.

End Walk.

(* ================================================================= *)
(** ** Sorting, slicing and the dataset *)

(** [sorted(l, key=key, reverse=True)]: descending and stable, so equal
    keys keep the order they had in [l]. *)
Fixpoint insert_desc {A} (key : A -> Z) (x : A) (l : list A) : list A :=
  match l with
  | [] => [x]
  | y :: l' => if key y <=? key x then x :: l else y :: insert_desc key x l'
  end.

Definition sorted_desc {A} (key : A -> Z) (l : list A) : list A :=
  fold_right (insert_desc key) [] l.

(** [l[:n]]. *)
Definition slice_to {A} (n : Z) (l : list A) : list A :=
  if 0 <=? n then firstn (Z.to_nat n) l
  else firstn (Z.to_nat (Z.of_nat (List.length l) + n)) l.

(** The ranking both selection sites use:
    [sorted(features.items(), key=lambda p: p[1]["samples"], reverse=True)[:top_n]]. *)
Definition top_features (top_n : Z) (d : usage_dict) : list (Z * usage) :=
  slice_to top_n (sorted_desc (fun p => u_samples (snd p)) d).

(** A two-dimensional array of shape [(len(rows), n_columns)]. *)
Record matrix : Type := {
  n_columns : Z;
  rows : list (list Q)
}.

Fixpoint set_nth {A} (n : nat) (x : A) (l : list A) : list A :=
  match l, n with
  | [], _ => []
  | _ :: l', O => x :: l'
  | y :: l', S n' => y :: set_nth n' x l'
  end.

(** [X[:, f] = np.zeros(len(X))] (also [X.iloc[:, f] = 0] and the tensor
    form), in place: the result is the new content of the same array
    object.  The column index follows the indexing rule of [getitem]. *)
Definition zero_column (X : matrix) (f : Z) : outcome matrix :=
  let n := n_columns X in
  let j := if f <? 0 then f + n else f in
  if (0 <=? j) && (j <? n) then
    Ret {| n_columns := n;
           rows := map (set_nth (Z.to_nat j) 0%Q) (rows X) |}
  else Raise IndexError.

(** [len(X[0])], the number of input features that line 245 takes for
    an array that is not a DataFrame.  For a DataFrame the code takes
    [len(X.columns)] instead, which is [n_columns X]; the two agree on
    every rectangular array with at least one row, and the model follows
    the array branch. *)
Definition len_first_row (X : matrix) : outcome Z :=
  obind (getitem (rows X) 0) (fun r => Ret (Z.of_nat (List.length r))).

(** The [average] argument of [f1_score]. *)
Inductive average : Type :=
| binary
| micro
| macro
| weighted.

(** How a run of the loop ended. *)
Inductive completion : Type :=
| Normal
| Raised (e : exn).

(* ================================================================= *)
(** ** External collaborators *)

(** What [fit_and_explain] and [trust_report] consume from scikit-learn
    and from the Dagger extractor.  Refitting is not deterministic, so
    the fitting operations take the number of the call as an argument.
    None of them writes to the arrays it is given. *)
Class Externals : Type := {
  (** a fitted blackbox *)
  model : Type;
  (** the value of [f1_score] *)
  score : Type;
  (** the value of [classification_report] *)
  text : Type;
  (** [clone(blackbox)] followed by [fit(X_train, y_train)] *)
  fit_blackbox : nat -> matrix -> list Z -> model;
  (** [blackbox_copy.predict(X)] *)
  predict : model -> matrix -> list Z;
  (** [ClassificationDagger(expert).fit(X_train, y_train, ...)] followed by
      [explain()], of which only the tree is used *)
  dagger_explain : nat -> model -> matrix -> list Z -> Tree;
  (** [dt.predict(X)] *)
  dt_predict : Tree -> matrix -> list Z;
  (** [f1_score(y_true, y_pred, average=...)] *)
  f1_score : list Z -> list Z -> average -> score;
  (** [classification_report(y_true, y_pred, ...)] *)
  classification_report : list Z -> list Z -> text
}.

(** An entry of [whitebox_iter]. *)
Record iteration `{Externals} : Type := {
  i_it : Z;
  i_dt : Tree;
  i_y_pred : list Z;
  i_dt_y_pred : list Z;
  i_feature_removed : Z;
  i_n_features_removed : Z;
  i_f1 : score;
  i_classification_report : text;
  i_fidelity : score;
  i_fidelity_report : text
}.

(** The caller's two arrays and the locals of [trust_report] that the
    loop reads and writes.  [X_train] and [X_test] are the objects the
    caller passed: what they hold when [trust_report] ends is what the
    caller sees afterwards.  [calls] counts the refits made so far. *)
Record frame `{Externals} : Type := {
  X_train : matrix;
  X_test : matrix;
  it : Z;
  whitebox_iter : list iteration;
  n_features_removed : Z;
  top_feature_to_remove : Z;
  calls : nat
}.

Section TrustReport.

Context `{E : Externals}.

(** Arguments of [trust_report] that stay fixed during a run. *)
Variable y_train y_test : list Z.
Variable max_iter : Z.
Variable top_n : Z.
(** [logger is not None]. *)
Variable logger : bool.
(** The interpreter's recursion limit. *)
Variable limit : nat.

(** [fit_and_explain(blackbox, X_train, y_train, X_test, y_test, ...)],
    as its [call]-th invocation.  [log] falls back to [print] without a
    logger, but the training-fidelity line calls [logger.log] directly. *)
Definition fit_and_explain (call : nat) (Xtr : matrix) (ytr : list Z)
    (Xte : matrix) (yte : list Z) : outcome (Tree * list Z * list Z) :=
  let blackbox_copy := fit_blackbox call Xtr ytr in
  let y_pred := predict blackbox_copy Xte in
  let dt := dagger_explain call blackbox_copy Xtr ytr in
  if logger then
    let dt_y_pred := dt_predict dt Xte in
    Ret (dt, y_pred, dt_y_pred)
  else Raise AttributeError.

(** [top[0][0]] on a ranked list of [(feature, usage)] items. *)
Definition first_feature (top : list (Z * usage)) : outcome Z :=
  obind (getitem top 0) (fun p => Ret (fst p)).

(** The dictionary appended to [whitebox_iter]. *)
Definition iteration_record (fr : frame) (dt : Tree) (y_pred dt_y_pred : list Z)
  : iteration :=
  {| i_it := it fr;
     i_dt := dt;
     i_y_pred := y_pred;
     i_dt_y_pred := dt_y_pred;
     i_feature_removed := top_feature_to_remove fr;
     i_n_features_removed := n_features_removed fr;
     i_f1 := f1_score y_test y_pred macro;
     i_classification_report := classification_report y_test y_pred;
     i_fidelity := f1_score y_pred dt_y_pred macro;
     i_fidelity_report := classification_report y_pred dt_y_pred |}.

(** One pass through the body of the [while] loop.  The frame returned
    with [Raised] is the one in force when the exception left the body. *)
Definition loop_body (fr : frame) : frame * completion :=
  match zero_column (X_train fr) (top_feature_to_remove fr) with
  | Raise e => (fr, Raised e)
  | Ret Xtr =>
    let fr1 := {| X_train := Xtr; X_test := X_test fr; it := it fr;
                  whitebox_iter := whitebox_iter fr;
                  n_features_removed := n_features_removed fr;
                  top_feature_to_remove := top_feature_to_remove fr;
                  calls := calls fr |} in
    match zero_column (X_test fr) (top_feature_to_remove fr) with
    | Raise e => (fr1, Raised e)
    | Ret Xte =>
      let fr2 := {| X_train := Xtr; X_test := Xte; it := it fr;
                    whitebox_iter := whitebox_iter fr;
                    n_features_removed := n_features_removed fr + 1;
                    top_feature_to_remove := top_feature_to_remove fr;
                    calls := calls fr |} in
      match fit_and_explain (calls fr2) Xtr y_train Xte y_test with
      | Raise e => (fr2, Raised e)
      | Ret (dt, y_pred, dt_y_pred) =>
        let fr3 := {| X_train := Xtr; X_test := Xte; it := it fr;
                      whitebox_iter :=
                        whitebox_iter fr ++ [iteration_record fr2 dt y_pred dt_y_pred];
                      n_features_removed := n_features_removed fr2;
                      top_feature_to_remove := top_feature_to_remove fr;
                      calls := S (calls fr) |} in
        match get_dt_info dt limit with
        | Raise e => (fr3, Raised e)
        | Ret (iter_dt_features, _, _, _) =>
          match first_feature (top_features top_n iter_dt_features) with
          | Raise e => (fr3, Raised e)
          | Ret f =>
            ({| X_train := Xtr; X_test := Xte; it := it fr + 1;
                whitebox_iter := whitebox_iter fr3;
                n_features_removed := n_features_removed fr3;
                top_feature_to_remove := f;
                calls := calls fr3 |}, Normal)
          end
        end
      end
    end
  end.

(** [it < max_iter and n_features_removed < bb_n_input_features]. *)
Definition loop_guard (bb_n_input_features : Z) (fr : frame) : bool :=
  (it fr <? max_iter) && (n_features_removed fr <? bb_n_input_features).

(** The [while] loop.  [budget] bounds the number of passes; [None]
    means the budget ran out with the guard still true. *)
Fixpoint ablation_loop (bb_n_input_features : Z) (budget : nat) (fr : frame)
  : option (frame * completion) :=
  if loop_guard bb_n_input_features fr then
    match budget with
    | O => None
    | S budget' =>
        match loop_body fr with
        | (fr', Normal) => ablation_loop bb_n_input_features budget' fr'
        | (fr', Raised e) => Some (fr', Raised e)
        end
    end
  else Some (fr, Normal).

(** The frame when [trust_report] is entered with an explicit split. *)
Definition entry_frame (Xtr Xte : matrix) : frame :=
  {| X_train := Xtr; X_test := Xte; it := 0; whitebox_iter := [];
     n_features_removed := 0; top_feature_to_remove := 0; calls := O |}.

(** What [trust_report] computes before the loop, up to the first
    selection: the train fraction [len(X_train) / dataset_size], the
    first fit, the number of input features [len(X_train[0])], the
    analysis of the first tree, the attributes of [first_dt.tree_] kept
    for the report and [first_dt_top_features[0][0]]. *)
Definition first_selection (Xtr Xte : matrix) : outcome (Z * Z) :=
  obind (if (List.length (rows Xtr) + List.length (rows Xte) =? 0)%nat
         then Raise ZeroDivisionError else Ret tt) (fun _ =>
  obind (fit_and_explain O Xtr y_train Xte y_test) (fun '(first_dt, _, _) =>
  obind (len_first_row Xtr) (fun bb_n_input_features =>
  obind (get_dt_info first_dt limit) (fun '(first_dt_features, _, _, _) =>
  obind (getitem (n_node_samples first_dt) 0) (fun _ =>
  obind (obind (getitem (value first_dt) 0) (fun v => getitem v 0)) (fun _ =>
  obind (getitem (n_classes first_dt) 0) (fun _ =>
  obind (first_feature (top_features top_n first_dt_features)) (fun f =>
  Ret (bb_n_input_features, f))))))))).

(** [trust_report(blackbox, X_train=..., X_test=..., y_train=...,
    y_test=..., max_iter=..., top_n=..., logger=...)] up to the end of
    its data collection: the frame in force when the loop is left or an
    exception escapes.  The rendering of the report that follows reads
    the frame and does not write to it. *)
Definition trust_report (Xtr Xte : matrix) : option (frame * completion) :=
  match first_selection Xtr Xte with
  | Raise e => Some (entry_frame Xtr Xte, Raised e)
  | Ret (bb_n_input_features, f) =>
      ablation_loop bb_n_input_features (Z.to_nat max_iter)
        {| X_train := Xtr; X_test := Xte; it := 0; whitebox_iter := [];
           n_features_removed := 0; top_feature_to_remove := f;
           calls := 1%nat |}
  end.

End TrustReport.

(* ================================================================= *)
(** ** The data model of a candidate tree *)

(** A finite binary tree of node ids: what the arrays unfold to when
    followed from the root. *)
Inductive shape : Type :=
| Leaf (n : Z)
| Node (n : Z) (l r : shape).

Definition root (T : shape) : Z :=
  match T with
  | Leaf n => n
  | Node n _ _ => n
  end.

(** Number of nested [walk_tree] calls the shape needs. *)
Fixpoint depth (T : shape) : nat :=
  match T with
  | Leaf _ => 1
  | Node _ l r => S (Nat.max (depth l) (depth r))
  end.

(** All node ids, internal node ids and leaf ids; parents first, left
    subtree before right subtree. *)
Fixpoint nodes (T : shape) : list Z :=
  match T with
  | Leaf n => [n]
  | Node n l r => n :: nodes l ++ nodes r
  end.

Fixpoint internal_preorder (T : shape) : list Z :=
  match T with
  | Leaf _ => []
  | Node n l r => n :: internal_preorder l ++ internal_preorder r
  end.

Fixpoint leaves (T : shape) : list Z :=
  match T with
  | Leaf n => [n]
  | Node _ l r => leaves l ++ leaves r
  end.

(** The side taken at an internal node. *)
Inductive side : Type :=
| GoLeft
| GoRight.

(** Every root-to-leaf route with the leaf it ends in, leftmost first. *)
Fixpoint routes (T : shape) : list (list (Z * side) * Z) :=
  match T with
  | Leaf n => [([], n)]
  | Node n l r =>
      map (fun p => ((n, GoLeft) :: fst p, snd p)) (routes l) ++
      map (fun p => ((n, GoRight) :: fst p, snd p)) (routes r)
  end.

Section DataModel.

Variable dt : Tree.

Definition node_count : Z := Z.of_nat (List.length (children_left dt)).

(** Every node array has one entry per node. *)
Definition arrays_aligned : Prop :=
  List.length (children_right dt) = List.length (children_left dt) /\
  List.length (feature dt) = List.length (children_left dt) /\
  List.length (threshold dt) = List.length (children_left dt) /\
  List.length (value dt) = List.length (children_left dt) /\
  List.length (n_node_samples dt) = List.length (children_left dt) /\
  List.length (impurity dt) = List.length (children_left dt).

(** Attributes of node [n]. *)
Definition left_of (n : Z) : Z := nth (Z.to_nat n) (children_left dt) 0.
Definition right_of (n : Z) : Z := nth (Z.to_nat n) (children_right dt) 0.
Definition feature_at (n : Z) : Z := nth (Z.to_nat n) (feature dt) 0.
Definition threshold_at (n : Z) : Q := nth (Z.to_nat n) (threshold dt) 0%Q.
Definition impurity_at (n : Z) : Q := nth (Z.to_nat n) (impurity dt) 0%Q.
Definition samples_at (n : Z) : Z := nth (Z.to_nat n) (n_node_samples dt) 0.
Definition value_at (n : Z) : list (list Q) := nth (Z.to_nat n) (value dt) [].
Definition class_vector (n : Z) : list Q := nth 0 (value_at n) [].

(** Element-wise sum of two class vectors. *)
Definition vec_add (a b : list Q) : list Q :=
  map (fun p => (fst p + snd p)%Q) (combine a b).

(** Node [n] exists, has a class vector, holds at least one sample and
    its total sample count is the sum of its class vector. *)
Definition node_ok (n : Z) : Prop :=
  0 <= n < node_count /\
  value_at n <> [] /\
  class_vector n <> [] /\
  0 < samples_at n /\
  (inject_Z (samples_at n) == np_sum (class_vector n))%Q.

(** The arrays unfold to [T]: a node is a leaf exactly when its two
    child entries are equal, and the class vector of an internal node
    is the element-wise sum of the class vectors of its children. *)
Fixpoint conforms (T : shape) : Prop :=
  match T with
  | Leaf n => node_ok n /\ left_of n = right_of n
  | Node n l r =>
      node_ok n /\
      left_of n <> right_of n /\
      left_of n = root l /\
      right_of n = root r /\
      List.length (class_vector (root l)) = List.length (class_vector (root r)) /\
      Forall2 Qeq (class_vector n)
              (vec_add (class_vector (root l)) (class_vector (root r))) /\
      conforms l /\ conforms r
  end.

(** The nodes of [T] are the indices [0 .. N-1], each once. *)
Definition indexes_all (T : shape) : Prop :=
  Permutation (nodes T)
              (map Z.of_nat (seq 0 (List.length (children_left dt)))).

(** A well-formed candidate tree with root 0. *)
Definition well_formed (T : shape) : Prop :=
  arrays_aligned /\ root T = 0 /\ indexes_all T /\ conforms T.

(** The first index holding the maximum. *)
Definition is_argmax (v : list Q) (c : Z) : Prop :=
  0 <= c < Z.of_nat (List.length v) /\
  (forall j, (j < List.length v)%nat ->
             (nth j v 0 <= nth (Z.to_nat c) v 0)%Q) /\
  (forall j, (j < Z.to_nat c)%nat ->
             (nth j v 0 < nth (Z.to_nat c) v 0)%Q).

(** The predicate an edge of a route contributes to a path. *)
Definition edge_predicate (e : Z * side) : predicate :=
  (feature_at (fst e),
   match snd e with GoLeft => "<="%string | GoRight => ">"%string end,
   threshold_at (fst e)).

(** [np.argmax] on a vector known to be non-empty. *)
Definition argmax (v : list Q) : Z :=
  match v with
  | [] => 0
  | x :: v' => argmax_from x 0 1 v'
  end.

(** The branch of leaf [n] reached along [path]. *)
Definition branch_at (path : list predicate) (n : Z) : Branch :=
  let v := class_vector n in
  {| b_path := path;
     b_class := argmax v;
     b_prob := ((nth (Z.to_nat (argmax v)) v 0 / np_sum v) * 100)%Q;
     b_samples := samples_at n |}.

(** The split record of internal node [n]. *)
Definition split_at (n : Z) : Split :=
  {| s_idx := n;
     s_feature := feature_at n;
     s_threshold := threshold_at n;
     s_samples := samples_at n;
     s_values := value_at n;
     s_gini_split := (impurity_at (left_of n), impurity_at (right_of n));
     s_data_split := (np_sum2 (value_at (left_of n)), np_sum2 (value_at (right_of n)));
     s_data_split_by_class :=
       zip (class_vector (left_of n)) (class_vector (right_of n)) |}.

(** The usage dictionary after visiting the internal nodes [ns] in order. *)
Definition usage_after (ns : list Z) (d : usage_dict) : usage_dict :=
  fold_left (fun d n => record_usage (feature_at n) (samples_at n) d) ns d.

(** Internal nodes of [T] that split on feature [f]. *)
Definition splitting_on (T : shape) (f : Z) : list Z :=
  filter (fun n => feature_at n =? f) (internal_preorder T).

(** The usage entry the spec assigns to feature [f]: number of splits
    on [f] and the sample counts of those nodes added up; no entry for
    a feature no node splits on. *)
Definition usage_of (T : shape) (f : Z) : option usage :=
  match splitting_on T f with
  | [] => None
  | ns => Some {| u_count := Z.of_nat (List.length ns);
                  u_samples := np_sum_Z (map samples_at ns) |}
  end.

End DataModel.

(* ================================================================= *)
(** ** Sample trees *)

(** A fitted tree of five nodes over ten samples and two classes:
    node 0 splits on feature 0 at 5/2, its right child, node 2, splits
    on feature 1 at 3/2; nodes 1, 3 and 4 are leaves.  Leaves carry the
    markers scikit-learn stores: children -1, feature -2, threshold -2. *)
Definition tree5 : Tree :=
  {| children_left := [1; -1; 3; -1; -1];
     children_right := [2; -1; 4; -1; -1];
     feature := [0; -2; 1; -2; -2];
     threshold := [5 # 2; -2 # 1; 3 # 2; -2 # 1; -2 # 1]%Q;
     value := [ [[6; 4]]; [[5; 0]]; [[1; 4]]; [[1; 1]]; [[0; 3]] ]%Q;
     n_node_samples := [10; 5; 5; 2; 3];
     impurity := [12 # 25; 0; 8 # 25; 1 # 2; 0]%Q;
     n_classes := [2] |}.

Definition shape5 : shape :=
  Node 0 (Leaf 1) (Node 2 (Leaf 3) (Leaf 4)).

(** A tree that is a single leaf. *)
Definition tree1 : Tree :=
  {| children_left := [-1];
     children_right := [-1];
     feature := [-2];
     threshold := [-2 # 1]%Q;
     value := [ [[7; 3]] ]%Q;
     n_node_samples := [10];
     impurity := [21 # 50]%Q;
     n_classes := [2] |}.

(** A stump splitting on feature [f] at 1/2. *)
Definition stump (f : Z) : Tree :=
  {| children_left := [1; -1; -1];
     children_right := [2; -1; -1];
     feature := [f; -2; -2];
     threshold := [1 # 2; -2 # 1; -2 # 1]%Q;
     value := [ [[1; 1]]; [[1; 0]]; [[0; 1]] ]%Q;
     n_node_samples := [2; 1; 1];
     impurity := [1 # 2; 0; 0]%Q;
     n_classes := [2] |}.

(* ================================================================= *)
(** ** What a run of the ablation loop leaves behind *)

(** The column of [X] that index [f] addresses. *)
Definition column_of (X : matrix) (f : Z) : nat :=
  Z.to_nat (if f <? 0 then f + n_columns X else f).

(** Every cell of the column addressed by [f] is zero. *)
Definition column_zero (X : matrix) (f : Z) : Prop :=
  Forall (fun r => nth (column_of X f) r 0%Q = 0%Q) (rows X).

(** [X] after the columns [fs] have been zeroed one after the other. *)
Definition zero_columns (fs : list Z) (X : matrix) : matrix :=
  fold_left (fun X f => match zero_column X f with
                        | Ret X' => X'
                        | Raise _ => X
                        end) fs X.

(** Every row has [n_columns] cells. *)
Definition rectangular (X : matrix) : Prop :=
  0 <= n_columns X /\
  Forall (fun r => Z.of_nat (List.length r) = n_columns X) (rows X).

Section Trace.

Context `{E : Externals}.
Variable y_train y_test : list Z.
Variable limit : nat.

(** [f] heads the ranking of the features [dt] uses, and no feature of
    [dt] has a larger cumulative sample count. *)
Definition most_used (dt : Tree) (f : Z) : Prop :=
  exists fu sp br total u,
    get_dt_info dt limit = Ret (fu, sp, br, total) /\
    hd_error (sorted_desc (fun p => u_samples (snd p)) fu) = Some (f, u) /\
    In (f, u) fu /\
    forall f' u', In (f', u') fu -> u_samples u' <= u_samples u.

(** The tree the [k]-th refit extracts from [Xtr], and the predictions
    of the refitted blackbox and of that tree on [Xte]. *)
Definition refit_dt (k : nat) (Xtr : matrix) : Tree :=
  dagger_explain k (fit_blackbox k Xtr y_train) Xtr y_train.
Definition refit_y_pred (k : nat) (Xtr Xte : matrix) : list Z :=
  predict (fit_blackbox k Xtr y_train) Xte.

(** [r] is the record of round [k] (counted from 0), entered with the
    arrays [Xtr] and [Xte] and with [prev] the tree fitted last; [Xtr']
    and [Xte'] are the arrays the round refits on. *)
Definition round_recorded (k : nat) (Xtr Xte : matrix) (prev : Tree)
    (r : iteration) (Xtr' Xte' : matrix) : Prop :=
  zero_column Xtr (i_feature_removed r) = Ret Xtr' /\
  zero_column Xte (i_feature_removed r) = Ret Xte' /\
  most_used prev (i_feature_removed r) /\
  i_it r = Z.of_nat k /\
  i_n_features_removed r = Z.of_nat k + 1 /\
  i_dt r = refit_dt (S k) Xtr' /\
  i_y_pred r = refit_y_pred (S k) Xtr' Xte' /\
  i_dt_y_pred r = dt_predict (i_dt r) Xte' /\
  i_f1 r = f1_score y_test (i_y_pred r) macro /\
  i_fidelity r = f1_score (i_y_pred r) (i_dt_y_pred r) macro.

(** The records [rs] are those of consecutive rounds starting with
    round [k]. *)
Fixpoint rounds_recorded (k : nat) (Xtr Xte : matrix) (prev : Tree)
    (rs : list iteration) : Prop :=
  match rs with
  | [] => True
  | r :: rs' =>
      exists Xtr' Xte',
        round_recorded k Xtr Xte prev r Xtr' Xte' /\
        rounds_recorded (S k) Xtr' Xte' (i_dt r) rs'
  end.

(** The features removed by the records [rs], in order. *)
Definition removed (rs : list iteration) : list Z :=
  map i_feature_removed rs.

(** The tree fitted last. *)
Definition last_dt (first_dt : Tree) (rs : list iteration) : Tree :=
  last (map i_dt rs) first_dt.

(** Node 0 of [dt] is a leaf. *)
Definition single_leaf (dt : Tree) : Prop :=
  exists l, getitem (children_left dt) 0 = Ret l /\
            getitem (children_right dt) 0 = Ret l.

(** The extractor never splits on a column it cannot split on: every
    feature used by a tree refitted on [X] indexes a column of [X] that is
    not entirely zero.  CART has this property, a column of zeros being
    constant. *)
Definition splits_on_varying : Prop :=
  forall k X fu sp br total f u,
    get_dt_info (refit_dt k X) limit = Ret (fu, sp, br, total) ->
    In (f, u) fu ->
    0 <= f < n_columns X /\ ~ column_zero X f.

(** What holds of the frame each time the loop guard is evaluated, in
    a run entered with the arrays [Xtr0] and [Xte0] whose first fit
    gave [first_dt]. *)
Definition settled (Xtr0 Xte0 : matrix) (first_dt : Tree) (fr : frame) : Prop :=
  rounds_recorded 0 Xtr0 Xte0 first_dt (whitebox_iter fr) /\
  X_train fr = zero_columns (removed (whitebox_iter fr)) Xtr0 /\
  X_test fr = zero_columns (removed (whitebox_iter fr)) Xte0 /\
  it fr = Z.of_nat (List.length (whitebox_iter fr)) /\
  n_features_removed fr = Z.of_nat (List.length (whitebox_iter fr)) /\
  calls fr = S (List.length (whitebox_iter fr)) /\
  most_used (last_dt first_dt (whitebox_iter fr)) (top_feature_to_remove fr).

(** What holds of the frame when the run ends, however it ends: the
    records are those of consecutive rounds, and the arrays are the
    caller's with the recorded features zeroed, and possibly the
    feature of a round that was cut short. *)
Definition exited (Xtr0 Xte0 : matrix) (first_dt : Tree) (fr : frame) : Prop :=
  rounds_recorded 0 Xtr0 Xte0 first_dt (whitebox_iter fr) /\
  (exists extra, X_train fr = zero_columns (removed (whitebox_iter fr) ++ extra) Xtr0) /\
  (exists extra, X_test fr = zero_columns (removed (whitebox_iter fr) ++ extra) Xte0).

End Trace.

(* ================================================================= *)
(** ** Sample collaborators *)

(** Collaborators whose extractor is the function [learn] of the call
    number and the training array; predictions are constant and a score
    is the uninterpreted triple of its arguments. *)
Definition externals_of (learn : nat -> matrix -> Tree) : Externals :=
  {| model := unit;
     score := list Z * list Z * average;
     text := unit;
     fit_blackbox := fun _ _ _ => tt;
     predict := fun _ X => map (fun _ => 0) (rows X);
     dagger_explain := fun k _ X _ => learn k X;
     dt_predict := fun _ X => map (fun _ => 1) (rows X);
     f1_score := fun a b avg => (a, b, avg);
     classification_report := fun _ _ => tt |}.

(** Column [j] of [X] holds a single value. *)
Definition constant_column (X : matrix) (j : nat) : bool :=
  match rows X with
  | [] => true
  | r :: rs => forallb (fun r' => Qeq_bool (nth j r' 0%Q) (nth j r 0%Q)) rs
  end.

(** An extractor that, like CART, cannot split on a constant column: a
    stump on the first column that varies, a single leaf when none does. *)
Definition cart_like (_ : nat) (X : matrix) : Tree :=
  match filter (fun j => negb (constant_column X j)) (seq 0 (Z.to_nat (n_columns X))) with
  | [] => tree1
  | j :: _ => stump (Z.of_nat j)
  end.

(** An extractor that always returns a stump, on feature [k mod 4] at
    the [k]-th call. *)
Definition round_robin (k : nat) (_ : matrix) : Tree :=
  stump (Z.of_nat (k mod 4)).

(** The two sets of collaborators used in the examples. *)
Definition RR : Externals := externals_of round_robin.
Definition CART : Externals := externals_of cart_like.

(** Four feature columns, all varying. *)
Definition X4_train : matrix :=
  {| n_columns := 4; rows := [[1; 2; 3; 4]; [5; 6; 7; 8]]%Q |}.
Definition X4_test : matrix :=
  {| n_columns := 4; rows := [[1; 6; 3; 8]]%Q |}.

(** Four feature columns, the last two constant. *)
Definition X4c_train : matrix :=
  {| n_columns := 4; rows := [[1; 2; 9; 9]; [5; 6; 9; 9]]%Q |}.
Definition X4c_test : matrix :=
  {| n_columns := 4; rows := [[1; 6; 9; 9]]%Q |}.

(** Four feature columns, none of which varies. *)
Definition X4k_train : matrix :=
  {| n_columns := 4; rows := [[9; 9; 9; 9]; [9; 9; 9; 9]]%Q |}.
Definition X4k_test : matrix :=
  {| n_columns := 4; rows := [[9; 9; 9; 9]]%Q |}.

(** Labels of the two training rows and of the test row. *)
Definition y2 : list Z := [0; 1].
Definition y1 : list Z := [0].

(* ================================================================= *)
(** ** What a returning walk has visited *)

(** The shape [T] is what the child arrays of [dt] unfold to from the
    root of [T], read with [getitem]; nothing is asked of the other
    arrays. *)
Fixpoint unfolds (dt : Tree) (T : shape) : Prop :=
  match T with
  | Leaf n =>
      exists l, getitem (children_left dt) n = Ret l /\
                getitem (children_right dt) n = Ret l
  | Node n l r =>
      getitem (children_left dt) n = Ret (root l) /\
      getitem (children_right dt) n = Ret (root r) /\
      root l <> root r /\
      unfolds dt l /\ unfolds dt r
  end.

(** The two paths part at some point: they agree up to there, then the
    first takes the ["<="] side and the second the [">"] side of the same
    test. *)
Definition diverge (p q : list predicate) : Prop :=
  exists pre f th s1 s2,
    p = pre ++ (f, "<="%string, th) :: s1 /\
    q = pre ++ (f, ">"%string, th) :: s2.

(** The usage dictionary after the updates for the split records [sp],
    in order. *)
Definition usage_from_splits (sp : list Split) (d : usage_dict) : usage_dict :=
  fold_left (fun d s => record_usage (s_feature s) (s_samples s) d) sp d.

(** The elements of [l] in order of first occurrence. *)
Fixpoint first_occurrences (l : list Z) : list Z :=
  match l with
  | [] => []
  | x :: l' => x :: filter (fun y => negb (y =? x)) (first_occurrences l')
  end.

(** The split records of [sp] that test feature [f]. *)
Definition splits_on (sp : list Split) (f : Z) : list Split :=
  filter (fun s => s_feature s =? f) sp.

(** Every class count of node [n] is non-negative. *)
Definition counts_nonneg (dt : Tree) (n : Z) : Prop :=
  Forall (fun q => (0 <= q)%Q) (class_vector dt n).

(** Node [n] has a single output: [value[n]] has one row. *)
Definition single_output (dt : Tree) (n : Z) : Prop :=
  List.length (value_at dt n) = 1%nat.


(** The keys of a usage dictionary, in insertion order, and the sums of
    its two fields. *)
Definition usage_keys (d : usage_dict) : list Z := map fst d.
Definition count_sum (d : usage_dict) : Z :=
  np_sum_Z (map (fun p => u_count (snd p)) d).
Definition samples_sum (d : usage_dict) : Z :=
  np_sum_Z (map (fun p => u_samples (snd p)) d).


(* ================================================================= *)
(** ** Ranking order and array cells *)

(** [a] does not rank below [b]: its cumulative samples are at least
    those of [b]. *)
Definition outranks (a b : Z * usage) : Prop :=
  u_samples (snd b) <= u_samples (snd a).

(** The number of items [l[:n]] keeps of a list of length [len]. *)
Definition slice_length (n : Z) (len : nat) : nat :=
  Nat.min (Z.to_nat (if 0 <=? n then n else Z.of_nat len + n)) len.

(** Index [f] addresses a column of [X]. *)
Definition column_in_range (X : matrix) (f : Z) : bool :=
  let j := if f <? 0 then f + n_columns X else f in
  (0 <=? j) && (j <? n_columns X).

(** The cell of row [i] and column [j]; zero outside the array. *)
Definition cell (X : matrix) (i j : nat) : Q :=
  nth j (nth i (rows X) []) 0%Q.


(* ================================================================= *)
(** ** Conditions under which a run completes *)

(** The attributes of [first_dt.tree_] that [trust_report] reads for
    the report are there: [n_node_samples[0]], [value[0][0]] and
    [n_classes[0]]. *)
Definition report_attributes (dt : Tree) : Prop :=
  (exists s, getitem (n_node_samples dt) 0 = Ret s) /\
  (exists v v0, getitem (value dt) 0 = Ret v /\ getitem v 0 = Ret v0) /\
  (exists c, getitem (n_classes dt) 0 = Ret c).

(* ================================================================= *)
(** ** The branch table of the report *)

(** [sorted(first_dt_branches, key=lambda p: p["samples"], reverse=True)[:top_n]]. *)
Definition top_branches (top_n : Z) (branches : list Branch) : list Branch :=
  slice_to top_n (sorted_desc b_samples branches).

(** The percentage shown beside a branch's sample count:
    [(branch["samples"] / first_dt_samples) * 100]. *)
Definition branch_share (first_dt_samples : Z) (b : Branch) : Q :=
  ((inject_Z (b_samples b) / inject_Z first_dt_samples) * 100)%Q.

(* ================================================================= *)
(** ** Labels of the report *)

(** What a cell naming a feature or a class shows: the name when names
    were given, the index itself otherwise. *)
Inductive label : Type :=
| Name (s : string)
| Index (i : Z).

(** [feature_names[feat] if feature_names else feat]; an empty list of
    names is false. *)
Definition feature_label (feature_names : option (list string)) (feat : Z)
  : outcome label :=
  match feature_names with
  | Some (n :: ns) => obind (getitem (n :: ns) feat) (fun s => Ret (Name s))
  | _ => Ret (Index feat)
  end.

(** [class_names[c] if class_names and c < len(class_names) else c]. *)
Definition class_label (class_names : option (list string)) (c : Z)
  : outcome label :=
  match class_names with
  | Some (n :: ns) =>
      if c <? Z.of_nat (List.length (n :: ns))
      then obind (getitem (n :: ns) c) (fun s => Ret (Name s))
      else Ret (Index c)
  | _ => Ret (Index c)
  end.

(* ================================================================= *)
(** ** The ablated arrays, cell by cell *)

(** Row [r] with every cell whose column index satisfies [p] replaced
    by zero; [j] is the column index of the first cell of [r]. *)
Fixpoint mask_row (p : nat -> bool) (j : nat) (r : list Q) : list Q :=
  match r with
  | [] => []
  | x :: r' => (if p j then 0%Q else x) :: mask_row p (S j) r'
  end.

(** [X] with the columns that the indices [fs] address holding zeros:
    an array of the same shape whose other cells are those of [X]. *)
Definition ablated (X : matrix) (fs : list Z) : matrix :=
  {| n_columns := n_columns X;
     rows := map (mask_row (fun j => existsb (fun f => (column_of X f =? j)%nat) fs) 0)
                 (rows X) |}.

(** A test array with a single column, beside a training array of four. *)
Definition X1_test : matrix :=
  {| n_columns := 1; rows := [[1]]%Q |}.

(* ================================================================= *)
(** ** The feature table of the report *)

(** The percentage shown in the column "Data Split %" of the feature
    table: [(values["samples"] / first_dt_total_samples) * 100]. *)
Definition feature_share (first_dt_total_samples : Z) (p : Z * usage) : Q :=
  ((inject_Z (u_samples (snd p)) / inject_Z first_dt_total_samples) * 100)%Q.

(* ================================================================= *)
(** ** Extractors that split while a column varies *)

(** The columns of [X] that hold more than one value. *)
Definition varying_columns (X : matrix) : list nat :=
  filter (fun j => negb (constant_column X j)) (seq 0 (Z.to_nat (n_columns X))).

(** On the training array [Xtr] with any of its columns zeroed, as long
    as some column still varies, the extractor returns a tree that can
    be analysed within the recursion limit, that splits on some feature
    and that splits only on columns that vary.  Nothing is asked of it
    once no column varies, where CART can only return a single leaf. *)
Definition splits_while_varying `{E : Externals} (y_train : list Z) (limit : nat)
    (Xtr : matrix) : Prop :=
  forall k fs,
    varying_columns (ablated Xtr fs) <> [] ->
    exists fu sp br total,
      get_dt_info (refit_dt y_train k (ablated Xtr fs)) limit
      = Ret (fu, sp, br, total) /\
      fu <> [] /\
      forall f u, In (f, u) fu ->
                  0 <= f /\ In (Z.to_nat f) (varying_columns (ablated Xtr fs)).

(* ================================================================= *)
(** * Properties *)

(** ** Indexing and sums *)

Lemma getitem_in_range {A} (a : list A) (n : Z) (d : A) :
  0 <= n < Z.of_nat (List.length a) ->
  getitem a n = Ret (nth (Z.to_nat n) a d).
Proof.
  intros Hn. unfold getitem.
  destruct (n <? 0) eqn:Hneg; [apply Z.ltb_lt in Hneg; lia|].
  replace ((0 <=? n) && (n <? Z.of_nat (List.length a))) with true
    by (symmetry; apply andb_true_intro; split;
        [apply Z.leb_le | apply Z.ltb_lt]; lia).
  destruct (nth_error a (Z.to_nat n)) eqn:Hnth.
  - f_equal. symmetry. apply nth_error_nth. exact Hnth.
  - apply nth_error_None in Hnth. lia.
Qed.

Lemma getitem_empty {A} (i : Z) : getitem (@nil A) i = Raise IndexError.
Proof.
  unfold getitem. simpl.
  destruct (i <? 0) eqn:Hneg.
  - rewrite Z.add_0_r.
    destruct (0 <=? i) eqn:H0; simpl; [|reflexivity].
    apply Z.leb_le in H0. apply Z.ltb_lt in Hneg. lia.
  - destruct (0 <=? i); simpl; [|reflexivity].
    destruct (i <? 0); [discriminate|reflexivity].
Qed.

Lemma np_sum_Z_app (a b : list Z) :
  np_sum_Z (a ++ b) = np_sum_Z a + np_sum_Z b.
Proof.
  unfold np_sum_Z. induction a as [|x a IH]; simpl; [reflexivity|].
  rewrite IH. lia.
Qed.

Lemma np_sum_Forall2 (v w : list Q) :
  Forall2 Qeq v w -> (np_sum v == np_sum w)%Q.
Proof.
  induction 1 as [|x y v w Hxy _ IH]; simpl.
  - reflexivity.
  - rewrite Hxy, IH. reflexivity.
Qed.

Lemma np_sum_vec_add (a b : list Q) :
  List.length a = List.length b ->
  (np_sum (vec_add a b) == np_sum a + np_sum b)%Q.
Proof.
  revert b. induction a as [|x a IH]; intros [|y b] Hlen; simpl in *;
    try discriminate.
  - reflexivity.
  - injection Hlen as Hlen. unfold vec_add in IH. rewrite (IH b Hlen). ring.
Qed.

(** ** [np.argmax] returns the first maximum *)

Lemma argmax_from_spec (l : list Q) :
  forall (pre : list Q) (best : Q) (besti : nat),
    (besti < List.length pre)%nat ->
    nth besti pre 0%Q = best ->
    (forall j, (j < List.length pre)%nat -> (nth j pre 0 <= best)%Q) ->
    (forall j, (j < besti)%nat -> (nth j pre 0 < best)%Q) ->
    let c := argmax_from best (Z.of_nat besti) (Z.of_nat (List.length pre)) l in
    is_argmax (pre ++ l) c.
Proof.
  induction l as [|x l IH]; intros pre best besti Hlt Hnth Hmax Hfirst; simpl.
  - rewrite app_nil_r. unfold is_argmax. rewrite Nat2Z.id.
    repeat split; try lia; rewrite Hnth; auto.
  - assert (Hpre : (pre ++ x :: l = (pre ++ [x]) ++ l)%list)
      by (rewrite <- app_assoc; reflexivity).
    assert (Hlen : Z.of_nat (List.length pre) + 1
                   = Z.of_nat (List.length (pre ++ [x])))
      by (rewrite length_app; simpl; lia).
    destruct (Qle_bool x best) eqn:Hle.
    + apply Qle_bool_iff in Hle.
      rewrite Hpre, Hlen. apply IH.
      * rewrite length_app. simpl. lia.
      * rewrite app_nth1 by lia. exact Hnth.
      * intros j Hj. rewrite length_app in Hj. simpl in Hj.
        destruct (Nat.eq_dec j (List.length pre)) as [->|Hne].
        -- rewrite app_nth2 by lia. rewrite Nat.sub_diag. exact Hle.
        -- rewrite app_nth1 by lia. apply Hmax. lia.
      * intros j Hj. rewrite app_nth1 by lia. apply Hfirst. exact Hj.
    + assert (Hgt : (best < x)%Q).
      { apply Qnot_le_lt. intro H. apply Qle_bool_iff in H. congruence. }
      rewrite Hpre, Hlen.
      apply IH.
      * rewrite length_app. simpl. lia.
      * rewrite app_nth2 by lia. rewrite Nat.sub_diag. reflexivity.
      * intros j Hj. rewrite length_app in Hj. simpl in Hj.
        destruct (Nat.eq_dec j (List.length pre)) as [->|Hne].
        -- rewrite app_nth2 by lia. rewrite Nat.sub_diag. apply Qle_refl.
        -- rewrite app_nth1 by lia. apply Qlt_le_weak.
           eapply Qle_lt_trans; [apply Hmax; lia | exact Hgt].
      * intros j Hj. rewrite app_nth1 by lia.
        eapply Qle_lt_trans; [apply Hmax; lia | exact Hgt].
Qed.

Lemma argmax_is_argmax (v : list Q) : v <> [] -> is_argmax v (argmax v).
Proof.
  destruct v as [|x v]; [congruence|]. intros _.
  apply (argmax_from_spec v [x] x 0%nat); simpl; try lia; try reflexivity.
  - intros [|j] Hj; [apply Qle_refl | lia].
Qed.

Lemma np_argmax_argmax (v : list Q) : v <> [] -> np_argmax v = Ret (argmax v).
Proof. destruct v; [congruence | reflexivity]. Qed.

(** ** The walk on a conforming tree *)

Section WalkFacts.

Variable dt : Tree.
Hypothesis aligned : arrays_aligned dt.

Lemma node_ok_root (T : shape) : conforms dt T -> node_ok dt (root T).
Proof. destruct T; simpl; tauto. Qed.

Ltac in_range H :=
  unfold node_count in H; destruct aligned as (?&?&?&?&?&?);
  apply getitem_in_range; lia.

Lemma get_left n : node_ok dt n ->
  getitem (children_left dt) n = Ret (left_of dt n).
Proof. intros (H&_). in_range H. Qed.

Lemma get_right n : node_ok dt n ->
  getitem (children_right dt) n = Ret (right_of dt n).
Proof. intros (H&_). in_range H. Qed.

Lemma get_feature n : node_ok dt n ->
  getitem (feature dt) n = Ret (feature_at dt n).
Proof. intros (H&_). in_range H. Qed.

Lemma get_threshold n : node_ok dt n ->
  getitem (threshold dt) n = Ret (threshold_at dt n).
Proof. intros (H&_). in_range H. Qed.

Lemma get_impurity n : node_ok dt n ->
  getitem (impurity dt) n = Ret (impurity_at dt n).
Proof. intros (H&_). in_range H. Qed.

Lemma get_samples n : node_ok dt n ->
  getitem (n_node_samples dt) n = Ret (samples_at dt n).
Proof. intros (H&_). in_range H. Qed.

Lemma get_value n : node_ok dt n ->
  getitem (value dt) n = Ret (value_at dt n).
Proof. intros (H&_). in_range H. Qed.

Lemma get_class_vector n : node_ok dt n ->
  getitem (value_at dt n) 0 = Ret (class_vector dt n).
Proof.
  intros (_&H&_). apply getitem_in_range.
  destruct (value_at dt n); [congruence | simpl; lia].
Qed.

Lemma leaf_branch_ok n path :
  node_ok dt n -> leaf_branch dt n path = Ret (branch_at dt path n).
Proof.
  intros Hn. unfold leaf_branch.
  rewrite (get_value n Hn). simpl.
  rewrite (get_class_vector n Hn). simpl.
  rewrite (get_samples n Hn).
  destruct Hn as (Hr & Hv & Hc & Hpos & Hsum).
  rewrite (np_argmax_argmax _ Hc). simpl.
  destruct (argmax_is_argmax _ Hc) as (Hrange & _).
  rewrite (getitem_in_range _ _ 0%Q Hrange). simpl.
  reflexivity.
Qed.

Lemma split_record_ok n :
  node_ok dt n -> node_ok dt (left_of dt n) -> node_ok dt (right_of dt n) ->
  split_record dt n (feature_at dt n) (threshold_at dt n)
               (left_of dt n) (right_of dt n)
  = Ret (split_at dt n).
Proof.
  intros Hn Hl Hr. unfold split_record.
  rewrite (get_samples n Hn), (get_value n Hn). simpl.
  rewrite (get_impurity _ Hl), (get_impurity _ Hr). simpl.
  rewrite (get_value _ Hl), (get_value _ Hr). simpl.
  rewrite (get_class_vector _ Hl), (get_class_vector _ Hr). simpl.
  reflexivity.
Qed.

Lemma usage_after_app ns ms d :
  usage_after dt (ns ++ ms) d = usage_after dt ms (usage_after dt ns d).
Proof. apply fold_left_app. Qed.

(** What one call of [walk_tree] on the root of a conforming shape
    returns and how it leaves the two accumulators. *)
Lemma walk_tree_conforms (T : shape) :
  forall limit path st,
    conforms dt T ->
    (depth T <= limit)%nat ->
    walk_tree dt limit (root T) path st =
    Ret (map (fun p => branch_at dt (path ++ map (edge_predicate dt) (fst p)) (snd p))
             (routes T),
         {| features_used := usage_after dt (internal_preorder T) (features_used st);
            splits := splits st ++ map (split_at dt) (internal_preorder T) |}).
Proof.
  induction T as [n | n l IHl r IHr]; intros limit path st Hc Hd.
  - destruct limit as [|limit]; [simpl in Hd; lia|].
    destruct Hc as (Hn & Heq). simpl.
    unfold wbind, wlift, wret.
    rewrite (get_left n Hn), (get_right n Hn), Heq, Z.eqb_refl.
    rewrite (leaf_branch_ok n path Hn).
    rewrite !app_nil_r. destruct st; reflexivity.
  - destruct limit as [|limit]; [simpl in Hd; lia|].
    simpl in Hd.
    destruct Hc as (Hn & Hne & Hl & Hr & _ & _ & Hcl & Hcr).
    pose proof (node_ok_root l Hcl) as Hnl.
    pose proof (node_ok_root r Hcr) as Hnr.
    simpl. unfold wbind, wlift, wret, wmodify.
    rewrite (get_left n Hn), (get_right n Hn).
    destruct (left_of dt n =? right_of dt n) eqn:Heq;
      [apply Z.eqb_eq in Heq; contradiction|].
    rewrite (get_feature n Hn), (get_threshold n Hn), (get_samples n Hn).
    assert (Hsp := split_record_ok n Hn).
    rewrite Hl, Hr in Hsp. specialize (Hsp Hnl Hnr).
    rewrite Hl, Hr. rewrite Hsp.
    rewrite (IHl limit _ _ Hcl) by lia.
    rewrite (IHr limit _ _ Hcr) by lia.
    simpl. f_equal. f_equal.
    + rewrite map_app, !map_map. f_equal;
        apply map_ext; intros [rt lf]; simpl;
        rewrite <- app_assoc; reflexivity.
    + f_equal.
      * rewrite usage_after_app. reflexivity.
      * rewrite map_app, <- !app_assoc. reflexivity.
Qed.

End WalkFacts.

(** ** Conservation of samples *)

Lemma np_sum_Z_Permutation (a b : list Z) :
  Permutation a b -> np_sum_Z a = np_sum_Z b.
Proof.
  unfold np_sum_Z. induction 1; simpl; lia.
Qed.

Lemma list_by_index {A} (l : list A) (d : A) :
  l = map (fun i => nth (Z.to_nat i) l d) (map Z.of_nat (seq 0 (List.length l))).
Proof.
  rewrite map_map.
  apply (nth_ext _ _ d (nth (Z.to_nat (Z.of_nat 0)) l d)).
  - rewrite length_map, length_seq. reflexivity.
  - intros n Hn.
    rewrite (map_nth (fun i => nth (Z.to_nat (Z.of_nat i)) l d) _ 0%nat n).
    rewrite seq_nth by exact Hn. simpl. rewrite Nat2Z.id. reflexivity.
Qed.

Lemma routes_leaves (T : shape) : map snd (routes T) = leaves T.
Proof.
  induction T as [n | n l IHl r IHr]; simpl; [reflexivity|].
  rewrite map_app, !map_map. simpl.
  rewrite <- IHl, <- IHr. reflexivity.
Qed.

Section Conservation.

Variable dt : Tree.

Lemma children_samples (n : Z) (l r : shape) :
  conforms dt (Node n l r) ->
  samples_at dt n = samples_at dt (root l) + samples_at dt (root r).
Proof.
  intros (Hn & _ & _ & _ & Hlen & Hvec & Hcl & Hcr).
  destruct Hn as (_ & _ & _ & _ & Hs).
  destruct l as [nl | nl l1 l2], r as [nr | nr r1 r2]; simpl in *;
    repeat match goal with
           | H : node_ok _ _ /\ _ |- _ => destruct H as [H ?]
           end;
    match goal with
    | Hl : node_ok dt nl, Hr : node_ok dt nr |- _ =>
        destruct Hl as (_ & _ & _ & _ & Hsl);
        destruct Hr as (_ & _ & _ & _ & Hsr)
    end;
    apply inject_Z_injective;
    rewrite inject_Z_plus, Hs, Hsl, Hsr;
    rewrite (np_sum_Forall2 _ _ Hvec);
    apply np_sum_vec_add; exact Hlen.
Qed.

Lemma leaves_sum (T : shape) :
  conforms dt T ->
  np_sum_Z (map (samples_at dt) (leaves T)) = samples_at dt (root T).
Proof.
  induction T as [n | n l IHl r IHr]; intros Hc.
  - simpl. lia.
  - pose proof (children_samples n l r Hc) as Hs.
    destruct Hc as (_ & _ & _ & _ & _ & _ & Hcl & Hcr).
    simpl. rewrite map_app, np_sum_Z_app, (IHl Hcl), (IHr Hcr). lia.
Qed.

Lemma nodes_sum_lower (T : shape) :
  conforms dt T ->
  samples_at dt (root T) <= np_sum_Z (map (samples_at dt) (nodes T)).
Proof.
  induction T as [n | n l IHl r IHr]; intros Hc.
  - simpl. lia.
  - destruct Hc as (_ & _ & _ & _ & _ & _ & Hcl & Hcr).
    pose proof (IHl Hcl) as Hl. pose proof (IHr Hcr) as Hr.
    destruct (node_ok_root dt l Hcl) as (_ & _ & _ & Hpl & _).
    destruct (node_ok_root dt r Hcr) as (_ & _ & _ & Hpr & _).
    simpl. rewrite map_app, np_sum_Z_app. lia.
Qed.

Lemma nodes_sum_internal (n : Z) (l r : shape) :
  conforms dt (Node n l r) ->
  samples_at dt n < np_sum_Z (map (samples_at dt) (nodes (Node n l r))).
Proof.
  intros Hc.
  destruct Hc as (_ & _ & _ & _ & _ & _ & Hcl & Hcr).
  pose proof (nodes_sum_lower l Hcl) as Hl.
  pose proof (nodes_sum_lower r Hcr) as Hr.
  destruct (node_ok_root dt l Hcl) as (_ & _ & _ & Hpl & _).
  destruct (node_ok_root dt r Hcr) as (_ & _ & _ & Hpr & _).
  simpl. rewrite map_app, np_sum_Z_app. lia.
Qed.

Lemma array_sum_nodes (T : shape) :
  arrays_aligned dt -> indexes_all dt T ->
  np_sum_Z (n_node_samples dt) = np_sum_Z (map (samples_at dt) (nodes T)).
Proof.
  intros (_ & _ & _ & _ & Hlen & _) Hperm.
  rewrite (list_by_index (n_node_samples dt) 0) at 1.
  rewrite Hlen. symmetry.
  apply np_sum_Z_Permutation, Permutation_map, Hperm.
Qed.

End Conservation.

(** ** The usage dictionary *)

Lemma dict_get_setdefault (k k' : Z) (v : usage) (d : usage_dict) :
  dict_get k' (dict_setdefault k v d) =
  if k' =? k
  then match dict_get k d with Some u => Some u | None => Some v end
  else dict_get k' d.
Proof.
  induction d as [|[k0 v0] d IH]; simpl.
  - destruct (k' =? k); reflexivity.
  - destruct (k =? k0) eqn:Hk.
    + apply Z.eqb_eq in Hk. subst k0. simpl.
      destruct (k' =? k); reflexivity.
    + simpl. destruct (k' =? k0) eqn:Hk'.
      * apply Z.eqb_eq in Hk'. subst k0.
        rewrite Z.eqb_sym in Hk. rewrite Hk. reflexivity.
      * exact IH.
Qed.

Lemma dict_get_modify (k k' : Z) (g : usage -> usage) (d : usage_dict) :
  dict_get k' (dict_modify k g d) =
  if k' =? k then option_map g (dict_get k d) else dict_get k' d.
Proof.
  induction d as [|[k0 v0] d IH]; simpl.
  - destruct (k' =? k); reflexivity.
  - destruct (k =? k0) eqn:Hk; simpl.
    + apply Z.eqb_eq in Hk. subst k0.
      destruct (k' =? k); reflexivity.
    + destruct (k' =? k0) eqn:Hk'.
      * apply Z.eqb_eq in Hk'. subst k0.
        rewrite Z.eqb_sym in Hk. rewrite Hk. reflexivity.
      * exact IH.
Qed.

(** The entry of [f], or the fresh entry [walk_tree] would create. *)
Lemma dict_get_record_usage (f s k' : Z) (d : usage_dict) :
  dict_get k' (record_usage f s d) =
  if k' =? f
  then Some {| u_count := match dict_get f d with Some u => u_count u | None => 0 end + 1;
               u_samples := match dict_get f d with Some u => u_samples u | None => 0 end + s |}
  else dict_get k' d.
Proof.
  unfold record_usage.
  rewrite !dict_get_modify, !dict_get_setdefault.
  destruct (k' =? f) eqn:Hk; [|reflexivity].
  rewrite Z.eqb_refl.
  destruct (dict_get f d); reflexivity.
Qed.

Lemma usage_after_get (dt : Tree) (f : Z) (ns : list Z) :
  forall d,
    dict_get f (usage_after dt ns d) =
    match filter (fun n => feature_at dt n =? f) ns with
    | [] => dict_get f d
    | fs =>
        Some {| u_count := match dict_get f d with Some u => u_count u | None => 0 end
                           + Z.of_nat (List.length fs);
                u_samples := match dict_get f d with Some u => u_samples u | None => 0 end
                             + np_sum_Z (map (samples_at dt) fs) |}
    end.
Proof.
  induction ns as [|n ns IH]; intros d; [reflexivity|].
  unfold usage_after in *. simpl fold_left. rewrite IH.
  rewrite !dict_get_record_usage. simpl filter.
  rewrite (Z.eqb_sym f (feature_at dt n)).
  destruct (feature_at dt n =? f) eqn:Hf.
  - apply Z.eqb_eq in Hf. rewrite Hf.
    destruct (filter (fun n0 => feature_at dt n0 =? f) ns) as [|m fs] eqn:Hfs.
    + simpl. f_equal. f_equal; lia.
    + cbn [u_count u_samples]. f_equal.
      change (List.length (n :: m :: fs)) with (S (List.length (m :: fs))).
      change (map (samples_at dt) (n :: m :: fs))
        with (samples_at dt n :: map (samples_at dt) (m :: fs)).
      change (np_sum_Z (samples_at dt n :: map (samples_at dt) (m :: fs)))
        with (samples_at dt n + np_sum_Z (map (samples_at dt) (m :: fs))).
      f_equal; lia.
  - reflexivity.
Qed.

Lemma usage_after_usage_of (dt : Tree) (T : shape) (f : Z) :
  dict_get f (usage_after dt (internal_preorder T) []) = usage_of dt T f.
Proof.
  rewrite usage_after_get. unfold usage_of, splitting_on. simpl.
  destruct (filter _ _); reflexivity.
Qed.

(** What [get_dt_info] returns on a well-formed tree. *)
Lemma get_dt_info_well_formed (dt : Tree) (T : shape) (limit : nat) :
  well_formed dt T ->
  (depth T <= limit)%nat ->
  get_dt_info dt limit =
  Ret (usage_after dt (internal_preorder T) [],
       map (split_at dt) (internal_preorder T),
       map (fun p => branch_at dt (map (edge_predicate dt) (fst p)) (snd p)) (routes T),
       np_sum_Z (n_node_samples dt)).
Proof.
  intros (Hal & Hroot & _ & Hc) Hd. unfold get_dt_info.
  rewrite <- Hroot.
  rewrite (walk_tree_conforms dt Hal T limit [] _ Hc Hd). reflexivity.
Qed.

Lemma conforms_leaves_ok (dt : Tree) (T : shape) :
  conforms dt T -> forall n, In n (leaves T) -> node_ok dt n.
Proof.
  induction T as [n | n l IHl r IHr]; simpl.
  - intros (Hn & _) m [<- | []]. exact Hn.
  - intros (_ & _ & _ & _ & _ & _ & Hcl & Hcr) m Hin.
    apply in_app_or in Hin. destruct Hin; auto.
Qed.

(** Discharges the data-model conditions on a literal tree. *)
Ltac check_tree :=
  unfold well_formed, arrays_aligned, indexes_all; cbn;
  unfold node_ok, node_count, left_of, right_of, samples_at, value_at,
    class_vector, vec_add; cbn;
  repeat match goal with
         | |- _ /\ _ => split
         | |- Forall2 _ _ _ => constructor
         | |- Permutation _ _ => apply Permutation_refl
         | |- (_ == _)%Q => reflexivity
         | |- _ <> _ => discriminate
         | |- _ = _ => reflexivity
         | |- _ < _ => vm_compute; reflexivity
         | |- _ <= _ => vm_compute; discriminate
         | |- _ => lia
         end.

Lemma tree5_well_formed : well_formed tree5 shape5.
Proof. check_tree. Qed.

Lemma tree1_well_formed : well_formed tree1 (Leaf 0).
Proof. check_tree. Qed.

Lemma stump_well_formed (f : Z) : well_formed (stump f) (Node 0 (Leaf 1) (Leaf 2)).
Proof. check_tree. Qed.

(* ================================================================= *)
(** ** The tree analyser *)

(** C1, as the code behaves: on a well-formed tree [get_dt_info] returns,
    and its fourth result is the sum of the sample counts of all nodes,
    internal nodes included.  The root's sample count equals the sum of
    the leaves' sample counts and the sum of the returned branches'
    sample counts; the fourth result equals them exactly when the root
    is a leaf and is larger otherwise. *)
Theorem total_samples_sums_every_node (dt : Tree) (T : shape) (limit : nat) :
  well_formed dt T ->
  (depth T <= limit)%nat ->
  exists fu sp br total_samples,
    get_dt_info dt limit = Ret (fu, sp, br, total_samples) /\
    total_samples = np_sum_Z (map (samples_at dt) (nodes T)) /\
    np_sum_Z (map (samples_at dt) (leaves T)) = samples_at dt 0 /\
    np_sum_Z (map b_samples br) = samples_at dt 0 /\
    ((exists n, T = Leaf n) -> total_samples = samples_at dt 0) /\
    ((forall n, T <> Leaf n) -> samples_at dt 0 < total_samples).
Proof.
  intros Hwf Hd.
  pose proof (get_dt_info_well_formed dt T limit Hwf Hd) as Hrun.
  destruct Hwf as (Hal & Hroot & Hperm & Hc).
  do 4 eexists. split; [exact Hrun|].
  rewrite (array_sum_nodes dt T Hal Hperm).
  pose proof (leaves_sum dt T Hc) as Hleaves. rewrite Hroot in Hleaves.
  repeat split.
  - exact Hleaves.
  - rewrite map_map. cbn [b_samples branch_at].
    rewrite <- Hleaves, <- routes_leaves, map_map. reflexivity.
  - intros (n & ->). simpl in *. subst n. lia.
  - intros Hnode. destruct T as [n | n l r]; [elim (Hnode n); reflexivity|].
    simpl in Hroot. subst n. apply nodes_sum_internal. exact Hc.
Qed.

Lemma total_samples_sums_every_node_witness :
  well_formed tree5 shape5 /\
  (depth shape5 <= 10)%nat /\
  exists fu sp br total_samples,
    get_dt_info tree5 10 = Ret (fu, sp, br, total_samples) /\
    total_samples = np_sum_Z (map (samples_at tree5) (nodes shape5)) /\
    np_sum_Z (map (samples_at tree5) (leaves shape5)) = samples_at tree5 0 /\
    np_sum_Z (map b_samples br) = samples_at tree5 0 /\
    ((exists n, shape5 = Leaf n) -> total_samples = samples_at tree5 0) /\
    ((forall n, shape5 <> Leaf n) -> samples_at tree5 0 < total_samples).
Proof.
  split; [exact tree5_well_formed|].
  split; [simpl; lia|].
  apply (total_samples_sums_every_node tree5 shape5 10).
  - exact tree5_well_formed.
  - simpl; lia.
Defined.

(** C1, as stated, fails on the five-node tree: it is well formed, its
    root holds 10 samples, its leaves and its branches add up to 10, and
    the fourth result of [get_dt_info] is 25. *)
Lemma total_samples_is_not_root_count :
  well_formed tree5 shape5 /\
  exists fu sp br total_samples,
    get_dt_info tree5 10 = Ret (fu, sp, br, total_samples) /\
    samples_at tree5 0 = 10 /\
    np_sum_Z (map b_samples br) = 10 /\
    total_samples = 25 /\
    total_samples <> samples_at tree5 0.
Proof.
  split; [exact tree5_well_formed|].
  do 4 eexists. split; [vm_compute; reflexivity|].
  repeat split; try reflexivity. discriminate.
Qed.

(** C3: when the two child entries of node 0 are equal and node 0 has a
    class vector and a sample count, [get_dt_info] returns an empty
    feature-usage dictionary, no split and exactly one branch, whose path
    is empty. *)
Theorem single_leaf_analysis (dt : Tree) (limit : nat)
    (l s : Z) (v : list (list Q)) (v0 : list Q) :
  getitem (children_left dt) 0 = Ret l ->
  getitem (children_right dt) 0 = Ret l ->
  getitem (value dt) 0 = Ret v ->
  getitem v 0 = Ret v0 ->
  v0 <> [] ->
  getitem (n_node_samples dt) 0 = Ret s ->
  (1 <= limit)%nat ->
  exists b total_samples,
    get_dt_info dt limit = Ret ([], [], [b], total_samples) /\
    b_path b = [] /\
    b_samples b = s.
Proof.
  intros Hl Hr Hv Hv0 Hne Hs Hlim.
  destruct limit as [|limit]; [lia|].
  unfold get_dt_info. simpl.
  unfold wbind, wlift, wret, leaf_branch.
  rewrite Hl, Hr, Z.eqb_refl, Hv. simpl. rewrite Hv0. simpl.
  rewrite (np_argmax_argmax _ Hne). simpl.
  destruct (argmax_is_argmax _ Hne) as (Hrange & _).
  rewrite (getitem_in_range _ _ 0%Q Hrange). simpl.
  rewrite Hs. simpl.
  do 2 eexists. repeat split.
Qed.

Lemma single_leaf_analysis_witness :
  exists b total_samples,
    get_dt_info tree1 1 = Ret ([], [], [b], total_samples) /\
    b_path b = [] /\
    b_samples b = 10.
Proof.
  apply (single_leaf_analysis tree1 1 (-1) 10 [[7; 3]]%Q [7; 3]%Q);
    solve [reflexivity | discriminate | lia].
Defined.

(** C4: on a well-formed tree [get_dt_info] returns, and for every leaf
    and its route from the root there is a returned branch whose path
    lists the predicates of the route in order, [(feature, "<=",
    threshold)] for a left edge and [(feature, ">", threshold)] for a
    right edge, whose class is the first arg-max of the leaf's class
    vector, whose probability is that class's count divided by the leaf's
    total sample count, times 100, and whose sample count is the leaf's
    total. *)
Theorem leaf_branch_contents (dt : Tree) (T : shape) (limit : nat) :
  well_formed dt T ->
  (depth T <= limit)%nat ->
  exists fu sp br total_samples,
    get_dt_info dt limit = Ret (fu, sp, br, total_samples) /\
    List.length br = List.length (leaves T) /\
    forall route leaf,
      In (route, leaf) (routes T) ->
      exists b,
        In b br /\
        b_path b = map (edge_predicate dt) route /\
        is_argmax (class_vector dt leaf) (b_class b) /\
        (b_prob b ==
         (nth (Z.to_nat (b_class b)) (class_vector dt leaf) 0
          / inject_Z (samples_at dt leaf)) * 100)%Q /\
        b_samples b = samples_at dt leaf.
Proof.
  intros Hwf Hd.
  pose proof (get_dt_info_well_formed dt T limit Hwf Hd) as Hrun.
  destruct Hwf as (Hal & Hroot & Hperm & Hc).
  do 4 eexists. split; [exact Hrun|]. split.
  - rewrite length_map, <- routes_leaves, length_map. reflexivity.
  - intros route leaf Hin.
    exists (branch_at dt (map (edge_predicate dt) route) leaf).
    assert (Hok : node_ok dt leaf).
    { apply (conforms_leaves_ok dt T Hc). rewrite <- routes_leaves.
      apply (in_map snd) in Hin. exact Hin. }
    destruct Hok as (_ & _ & Hne & _ & Hsum).
    split; [|split; [|split; [|split]]].
    + apply (in_map (fun p => branch_at dt (map (edge_predicate dt) (fst p)) (snd p)))
        in Hin. exact Hin.
    + reflexivity.
    + apply (argmax_is_argmax _ Hne).
    + cbn [b_prob b_class branch_at].
      assert (Hq : (inject_Z (samples_at dt leaf)
                    == np_sum (class_vector dt leaf))%Q) by exact Hsum.
      rewrite Hq. reflexivity.
    + reflexivity.
Qed.

Lemma leaf_branch_contents_witness :
  well_formed tree5 shape5 /\
  (depth shape5 <= 10)%nat /\
  exists fu sp br total_samples,
    get_dt_info tree5 10 = Ret (fu, sp, br, total_samples) /\
    List.length br = List.length (leaves shape5) /\
    forall route leaf,
      In (route, leaf) (routes shape5) ->
      exists b,
        In b br /\
        b_path b = map (edge_predicate tree5) route /\
        is_argmax (class_vector tree5 leaf) (b_class b) /\
        (b_prob b ==
         (nth (Z.to_nat (b_class b)) (class_vector tree5 leaf) 0
          / inject_Z (samples_at tree5 leaf)) * 100)%Q /\
        b_samples b = samples_at tree5 leaf.
Proof.
  split; [exact tree5_well_formed|].
  split; [simpl; lia|].
  apply (leaf_branch_contents tree5 shape5 10).
  - exact tree5_well_formed.
  - simpl; lia.
Defined.

(** C5: on a well-formed tree [get_dt_info] returns; the splits are the
    split records of the internal nodes in pre-order, left subtree before
    right subtree, one per internal node; the usage dictionary is the
    result of one update per internal node, taken in the same order, and
    an update adds 1 to the split count of the node's feature and the
    node's total sample count to its cumulative samples, leaving the
    other features alone; so the usage entry of a feature counts the
    internal nodes splitting on it and adds up their total sample counts,
    and features no node splits on have no entry; the branches are those
    of the leaves from left to right. *)
Theorem preorder_traversal (dt : Tree) (T : shape) (limit : nat) :
  well_formed dt T ->
  (depth T <= limit)%nat ->
  exists fu sp br total_samples,
    get_dt_info dt limit = Ret (fu, sp, br, total_samples) /\
    sp = map (split_at dt) (internal_preorder T) /\
    map s_idx sp = internal_preorder T /\
    fu = fold_left (fun d n => record_usage (feature_at dt n) (samples_at dt n) d)
                   (internal_preorder T) [] /\
    (forall f s k d,
        dict_get k (record_usage f s d) =
        if k =? f
        then Some {| u_count := match dict_get f d with
                                | Some u => u_count u
                                | None => 0
                                end + 1;
                     u_samples := match dict_get f d with
                                  | Some u => u_samples u
                                  | None => 0
                                  end + s |}
        else dict_get k d) /\
    (forall f, dict_get f fu = usage_of dt T f) /\
    map b_path br = map (fun p => map (edge_predicate dt) (fst p)) (routes T) /\
    map b_samples br = map (samples_at dt) (leaves T).
Proof.
  intros Hwf Hd.
  pose proof (get_dt_info_well_formed dt T limit Hwf Hd) as Hrun.
  do 4 eexists. split; [exact Hrun|]. repeat split.
  - rewrite map_map. cbn [s_idx split_at]. apply map_id.
  - intros f s k d. apply dict_get_record_usage.
  - intros f. apply usage_after_usage_of.
  - rewrite map_map. reflexivity.
  - rewrite map_map. cbn [b_samples branch_at].
    rewrite <- routes_leaves, map_map. reflexivity.
Qed.

Lemma preorder_traversal_witness :
  well_formed tree5 shape5 /\
  (depth shape5 <= 10)%nat /\
  exists fu sp br total_samples,
    get_dt_info tree5 10 = Ret (fu, sp, br, total_samples) /\
    sp = map (split_at tree5) (internal_preorder shape5) /\
    map s_idx sp = internal_preorder shape5 /\
    fu = fold_left (fun d n => record_usage (feature_at tree5 n) (samples_at tree5 n) d)
                   (internal_preorder shape5) [] /\
    (forall f s k d,
        dict_get k (record_usage f s d) =
        if k =? f
        then Some {| u_count := match dict_get f d with
                                | Some u => u_count u
                                | None => 0
                                end + 1;
                     u_samples := match dict_get f d with
                                  | Some u => u_samples u
                                  | None => 0
                                  end + s |}
        else dict_get k d) /\
    (forall f, dict_get f fu = usage_of tree5 shape5 f) /\
    map b_path br = map (fun p => map (edge_predicate tree5) (fst p)) (routes shape5) /\
    map b_samples br = map (samples_at tree5) (leaves shape5).
Proof.
  split; [exact tree5_well_formed|].
  split; [simpl; lia|].
  apply (preorder_traversal tree5 shape5 10).
  - exact tree5_well_formed.
  - simpl; lia.
Defined.

(* ================================================================= *)
(** ** The verdict enumeration *)

(** C9: a verdict is one of exactly three distinct cases, Trustworthy,
    Inconclusive and Untrustworthy, and the colour lookup gives green,
    yellow and red for them, as the declaration table does. *)
Theorem verdict_closed_three_valued :
  (forall v, v = TRUSTWORTHY \/ v = INCONCLUSIVE \/ v = UNTRUSTWORTHY) /\
  (TRUSTWORTHY <> INCONCLUSIVE /\ INCONCLUSIVE <> UNTRUSTWORTHY /\
   TRUSTWORTHY <> UNTRUSTWORTHY) /\
  color TRUSTWORTHY = "green"%string /\
  color INCONCLUSIVE = "yellow"%string /\
  color UNTRUSTWORTHY = "red"%string /\
  map fst BlackboxVerdict_members = [TRUSTWORTHY; INCONCLUSIVE; UNTRUSTWORTHY] /\
  (forall v, In (v, (value_ v, color v)) BlackboxVerdict_members).
Proof.
  repeat split; try discriminate.
  - intros []; auto.
  - intros []; simpl; auto.
Qed.

(* ================================================================= *)
(** ** Ranking and selection *)

Lemma insert_desc_In {A} (key : A -> Z) (a y : A) (s : list A) :
  In y (insert_desc key a s) <-> y = a \/ In y s.
Proof.
  induction s as [|b s IH]; simpl.
  - intuition.
  - destruct (key b <=? key a); simpl; [intuition|].
    rewrite IH. intuition.
Qed.

Lemma sorted_desc_In {A} (key : A -> Z) (y : A) (l : list A) :
  In y (sorted_desc key l) <-> In y l.
Proof.
  induction l as [|a l IH]; simpl; [reflexivity|].
  rewrite insert_desc_In, IH. intuition.
Qed.

(** The head of the ranking carries the largest key. *)
Lemma sorted_desc_hd {A} (key : A -> Z) (l : list A) (x : A) :
  hd_error (sorted_desc key l) = Some x ->
  In x l /\ forall y, In y l -> key y <= key x.
Proof.
  revert x. induction l as [|a l IH]; intros x; simpl; [discriminate|].
  destruct (sorted_desc key l) as [|y0 s] eqn:Hs.
  - simpl. intros [= <-]. split; [left; reflexivity|].
    intros y [<- | Hy]; [lia|].
    apply (sorted_desc_In key) in Hy. rewrite Hs in Hy. destruct Hy.
  - destruct (IH y0 eq_refl) as (Hin & Hmax).
    simpl. destruct (key y0 <=? key a) eqn:Hle; simpl; intros [= <-].
    + apply Z.leb_le in Hle. split; [left; reflexivity|].
      intros y [<- | Hy]; [lia|]. specialize (Hmax y Hy). lia.
    + apply Z.leb_gt in Hle. split; [right; exact Hin|].
      intros y [<- | Hy]; [lia|]. apply Hmax, Hy.
Qed.

Lemma getitem_0_hd {A} (l : list A) (x : A) :
  getitem l 0 = Ret x -> hd_error l = Some x.
Proof.
  destruct l as [|a l]; [rewrite getitem_empty; discriminate|].
  rewrite (getitem_in_range (a :: l) 0 a) by (simpl; lia).
  simpl. intros [= <-]. reflexivity.
Qed.

Lemma slice_to_hd {A} (n : Z) (l : list A) (x : A) :
  hd_error (slice_to n l) = Some x -> hd_error l = Some x.
Proof.
  unfold slice_to.
  destruct (0 <=? n);
    match goal with
    | |- hd_error (firstn ?k l) = _ -> _ =>
        destruct k; destruct l; simpl; try discriminate; auto
    end.
Qed.

Lemma first_feature_ranked (top_n f : Z) (fu : usage_dict) :
  obind (getitem (top_features top_n fu) 0) (fun p => Ret (fst p)) = Ret f ->
  exists u,
    hd_error (sorted_desc (fun p => u_samples (snd p)) fu) = Some (f, u) /\
    In (f, u) fu /\
    forall f' u', In (f', u') fu -> u_samples u' <= u_samples u.
Proof.
  destruct (getitem (top_features top_n fu) 0) as [[f0 u]|e] eqn:Hget;
    simpl; [|discriminate].
  intros [= <-]. exists u.
  apply getitem_0_hd, slice_to_hd in Hget.
  destruct (sorted_desc_hd _ _ _ Hget) as (Hin & Hmax).
  repeat split; try assumption.
  intros f' u' Hin'. apply (Hmax (f', u') Hin').
Qed.

(** ** Zeroing columns *)

Lemma set_nth_same {A} (j : nat) (x d : A) (r : list A) :
  nth j (set_nth j x r) d = x \/ (List.length r <= j)%nat.
Proof.
  revert j. induction r as [|a r IH]; intros j; simpl.
  - right. lia.
  - destruct j as [|j]; simpl; [left; reflexivity|].
    destruct (IH j); [left; assumption | right; lia].
Qed.

Lemma set_nth_other {A} (i j : nat) (x d : A) (r : list A) :
  nth j (set_nth i x r) d = x \/ nth j (set_nth i x r) d = nth j r d.
Proof.
  revert i j. induction r as [|a r IH]; intros i j.
  - right. destruct i; reflexivity.
  - destruct i as [|i], j as [|j]; simpl; auto.
Qed.

Lemma set_nth_length {A} (i : nat) (x : A) (r : list A) :
  List.length (set_nth i x r) = List.length r.
Proof.
  revert i. induction r as [|a r IH]; intros [|i]; simpl; auto.
Qed.

Lemma zero_column_columns (X X' : matrix) (f : Z) :
  zero_column X f = Ret X' -> n_columns X' = n_columns X.
Proof.
  unfold zero_column.
  destruct (_ && _); [|discriminate]. intros [= <-]. reflexivity.
Qed.

Lemma zero_column_zero (X X' : matrix) (f : Z) :
  zero_column X f = Ret X' -> column_zero X' f.
Proof.
  intros H. pose proof (zero_column_columns _ _ _ H) as Hn.
  unfold column_zero, column_of. rewrite Hn. revert H.
  unfold zero_column.
  destruct (_ && _); [|discriminate]. intros [= <-]. simpl.
  apply Forall_forall. intros r Hr. apply in_map_iff in Hr.
  destruct Hr as (r0 & <- & _).
  destruct (set_nth_same (Z.to_nat (if f <? 0 then f + n_columns X else f))
                         0%Q 0%Q r0) as [H | H]; [exact H|].
  apply nth_overflow. rewrite set_nth_length. exact H.
Qed.

Lemma zero_column_keeps (X X' : matrix) (f g : Z) :
  zero_column X f = Ret X' -> column_zero X g -> column_zero X' g.
Proof.
  intros H. pose proof (zero_column_columns _ _ _ H) as Hn.
  unfold column_zero, column_of. rewrite Hn. revert H.
  unfold zero_column.
  destruct (_ && _); [|discriminate]. intros [= <-]. simpl.
  rewrite !Forall_forall. intros Hz r Hr. apply in_map_iff in Hr.
  destruct Hr as (r0 & <- & Hr0).
  match goal with
  | |- nth ?j (set_nth ?i _ _) _ = _ =>
      destruct (set_nth_other i j 0%Q 0%Q r0) as [H | H]
  end; rewrite H; [reflexivity | apply Hz, Hr0].
Qed.

Lemma zero_columns_keeps (fs : list Z) (X : matrix) (g : Z) :
  column_zero X g -> column_zero (zero_columns fs X) g.
Proof.
  revert X. induction fs as [|f fs IH]; intros X Hz; simpl; [exact Hz|].
  apply IH. destruct (zero_column X f) eqn:Hzc; [|exact Hz].
  eapply zero_column_keeps; eassumption.
Qed.

Lemma zero_columns_app (fs gs : list Z) (X : matrix) :
  zero_columns (fs ++ gs) X = zero_columns gs (zero_columns fs X).
Proof. apply fold_left_app. Qed.

(* ================================================================= *)
(** ** The ablation loop *)

Lemma last_cons {A} (a d : A) (l : list A) : last (a :: l) d = last l a.
Proof.
  revert a d. induction l as [|b l IH]; intros a d; [reflexivity|].
  change (last (a :: b :: l) d) with (last (b :: l) d).
  rewrite (IH b d), (IH b a). reflexivity.
Qed.

Section LoopFacts.

Context `{E : Externals}.
Variable y_train y_test : list Z.
Variable max_iter top_n : Z.
Variable logger : bool.
Variable limit : nat.

Abbreviation body := (loop_body y_train y_test top_n logger limit).
Abbreviation loop := (ablation_loop y_train y_test max_iter top_n logger limit).
Abbreviation run := (trust_report y_train y_test max_iter top_n logger limit).
Abbreviation recorded := (rounds_recorded y_train y_test limit).
Abbreviation recorded1 := (round_recorded y_train y_test limit).

Lemma fit_and_explain_ret k Xtr Xte dt yp dyp :
  fit_and_explain logger k Xtr y_train Xte y_test = Ret (dt, yp, dyp) ->
  logger = true /\
  dt = refit_dt y_train k Xtr /\
  yp = refit_y_pred y_train k Xtr Xte /\
  dyp = dt_predict dt Xte.
Proof.
  unfold fit_and_explain, refit_dt, refit_y_pred.
  destruct logger; [|discriminate].
  intros [= <- <- <-]. repeat split.
Qed.

Lemma selection_most_used dt fu sp br total f :
  get_dt_info dt limit = Ret (fu, sp, br, total) ->
  first_feature (top_features top_n fu) = Ret f ->
  most_used limit dt f.
Proof.
  intros Hinfo Hsel.
  destruct (first_feature_ranked top_n f fu Hsel) as (u & Hhd & Hin & Hmax).
  exists fu, sp, br, total, u. repeat split; assumption.
Qed.

Lemma removed_snoc rs (r : iteration) :
  removed (rs ++ [r]) = removed rs ++ [i_feature_removed r].
Proof. unfold removed. rewrite map_app. reflexivity. Qed.

Lemma last_dt_snoc first_dt rs (r : iteration) :
  last_dt first_dt (rs ++ [r]) = i_dt r.
Proof. unfold last_dt. rewrite map_app. apply last_last. Qed.

Lemma recorded_snoc rs :
  forall k Xtr Xte prev r Xtr' Xte',
    recorded k Xtr Xte prev rs ->
    recorded1 (k + List.length rs)%nat
              (zero_columns (removed rs) Xtr) (zero_columns (removed rs) Xte)
              (last_dt prev rs) r Xtr' Xte' ->
    recorded k Xtr Xte prev (rs ++ [r]).
Proof.
  induction rs as [|r0 rs IH]; intros k Xtr Xte prev r Xtr' Xte' Hrs Hr.
  - simpl in *. rewrite Nat.add_0_r in Hr. exists Xtr', Xte'. split; [exact Hr | exact I].
  - simpl in Hrs. destruct Hrs as (X1 & Xte1 & Hr0 & Hrest).
    simpl. exists X1, Xte1. split; [exact Hr0|].
    apply (IH (S k) X1 Xte1 (i_dt r0) r Xtr' Xte' Hrest).
    destruct Hr0 as (Hz1 & Hz2 & _).
    unfold removed in Hr. simpl in Hr. rewrite Hz1, Hz2 in Hr.
    unfold last_dt in Hr. simpl map in Hr. rewrite last_cons in Hr.
    replace (S k + List.length rs)%nat with (k + S (List.length rs))%nat by lia.
    exact Hr.
Qed.

Lemma recorded_prefix rs :
  forall n k Xtr Xte prev,
    recorded k Xtr Xte prev rs ->
    recorded k Xtr Xte prev (firstn n rs).
Proof.
  induction rs as [|r0 rs IH]; intros [|n] k Xtr Xte prev Hrs; simpl; auto.
  destruct Hrs as (X1 & Xte1 & Hr0 & Hrest).
  exists X1, Xte1. split; [exact Hr0 | apply IH; exact Hrest].
Qed.

(** The [k]-th record of a run of consecutive rounds, with the arrays
    its round was entered with and those it refitted on. *)
Lemma recorded_nth rs :
  forall k k0 Xtr Xte prev r,
    recorded k0 Xtr Xte prev rs ->
    nth_error rs k = Some r ->
    exists Xb Xteb,
      recorded1 (k0 + k)%nat
                (zero_columns (removed (firstn k rs)) Xtr)
                (zero_columns (removed (firstn k rs)) Xte)
                (last_dt prev (firstn k rs)) r Xb Xteb /\
      Xb = zero_columns (removed (firstn (S k) rs)) Xtr /\
      Xteb = zero_columns (removed (firstn (S k) rs)) Xte.
Proof.
  induction rs as [|r0 rs IH]; intros k k0 Xtr Xte prev r Hrs Hnth.
  - destruct k; discriminate.
  - destruct Hrs as (X1 & Xte1 & Hr0 & Hrest).
    pose proof Hr0 as (Hz1 & Hz2 & _).
    destruct k as [|k].
    + injection Hnth as <-. exists X1, Xte1.
      rewrite Nat.add_0_r. simpl. rewrite Hz1, Hz2.
      split; [exact Hr0 | split; reflexivity].
    + simpl in Hnth.
      destruct (IH k (S k0) X1 Xte1 (i_dt r0) r Hrest Hnth)
        as (Xb & Xteb & Hr & Hb & Hteb).
      exists Xb, Xteb.
      replace (k0 + S k)%nat with (S k0 + k)%nat by lia.
      change (firstn (S k) (r0 :: rs)) with (r0 :: firstn k rs).
      change (firstn (S (S k)) (r0 :: rs)) with (r0 :: firstn (S k) rs).
      unfold last_dt. simpl map. rewrite last_cons.
      unfold removed. simpl map. simpl zero_columns. rewrite Hz1, Hz2.
      split; [exact Hr | split; assumption].
Qed.

(** Every recorded feature is zero in the arrays the records lead to. *)
Lemma recorded_zero rs :
  forall k Xtr Xte prev r,
    recorded k Xtr Xte prev rs ->
    In r rs ->
    column_zero (zero_columns (removed rs) Xtr) (i_feature_removed r) /\
    column_zero (zero_columns (removed rs) Xte) (i_feature_removed r).
Proof.
  induction rs as [|r0 rs IH]; intros k Xtr Xte prev r Hrs Hin; [destruct Hin|].
  destruct Hrs as (X1 & Xte1 & (Hz1 & Hz2 & _) & Hrest).
  unfold removed. simpl map. simpl zero_columns. rewrite Hz1, Hz2.
  destruct Hin as [<- | Hin].
  - split; apply zero_columns_keeps; eapply zero_column_zero; eassumption.
  - apply (IH (S k) X1 Xte1 (i_dt r0) r Hrest Hin).
Qed.

(** Every tree the selection consulted has a most used feature. *)
Lemma recorded_consulted rs :
  forall k Xtr Xte prev,
    recorded k Xtr Xte prev rs ->
    (exists f, most_used limit (last_dt prev rs) f) ->
    (exists f, most_used limit prev f) /\
    forall r, In r rs -> exists f, most_used limit (i_dt r) f.
Proof.
  induction rs as [|r0 rs IH]; intros k Xtr Xte prev Hrs Hlast.
  - split; [exact Hlast | intros r []].
  - destruct Hrs as (X1 & Xte1 & (_ & _ & Hprev & _) & Hrest).
    unfold last_dt in Hlast. simpl map in Hlast. rewrite last_cons in Hlast.
    destruct (IH (S k) X1 Xte1 (i_dt r0) Hrest Hlast) as (H0 & Hall).
    split; [eexists; exact Hprev|].
    intros r [<- | Hin]; [exact H0 | apply Hall, Hin].
Qed.

Lemma single_leaf_no_usage dt fu sp br total :
  single_leaf dt ->
  get_dt_info dt limit = Ret (fu, sp, br, total) ->
  fu = [] /\ sp = [].
Proof.
  intros (l & Hl & Hr). unfold get_dt_info.
  destruct limit as [|limit']; simpl; [discriminate|].
  unfold wbind, wlift, wret. rewrite Hl, Hr, Z.eqb_refl.
  destruct (leaf_branch dt 0 []); [|discriminate].
  intros [= <- <- _ _]. split; reflexivity.
Qed.

Lemma most_used_not_single_leaf dt f :
  most_used limit dt f -> ~ single_leaf dt.
Proof.
  intros (fu & sp & br & total & u & Hinfo & _ & Hin & _) Hleaf.
  destruct (single_leaf_no_usage _ _ _ _ _ Hleaf Hinfo) as (-> & _).
  destruct Hin.
Qed.

Section Run.

Variables Xtr0 Xte0 : matrix.
Let first_dt : Tree := refit_dt y_train 0 Xtr0.

Abbreviation Settled := (settled y_train y_test limit Xtr0 Xte0 first_dt).
Abbreviation Exited := (exited y_train y_test limit Xtr0 Xte0 first_dt).

Lemma settled_exited fr : Settled fr -> Exited fr.
Proof.
  intros (Hrec & Htr & Hte & _).
  split; [exact Hrec|].
  split; exists []; rewrite app_nil_r; assumption.
Qed.

(** A pass that completes leaves the frame settled, with one more
    record and both counters advanced by one. *)
Lemma body_normal fr fr' :
  Settled fr ->
  body fr = (fr', Normal) ->
  Settled fr' /\
  it fr' = it fr + 1 /\
  n_features_removed fr' = n_features_removed fr + 1 /\
  List.length (whitebox_iter fr') = S (List.length (whitebox_iter fr)).
Proof.
  intros (Hrec & Htr & Hte & Hit & Hn & Hcalls & Htop).
  unfold loop_body.
  destruct (zero_column (X_train fr) (top_feature_to_remove fr))
    as [Xtr|e] eqn:Hz1; [|discriminate].
  destruct (zero_column (X_test fr) (top_feature_to_remove fr))
    as [Xte|e] eqn:Hz2; [|discriminate].
  cbn [calls n_features_removed].
  destruct (fit_and_explain logger (calls fr) Xtr y_train Xte y_test)
    as [[[dt yp] dyp]|e] eqn:Hfit; [|discriminate].
  destruct (get_dt_info dt limit) as [[[[fu sp] br] total]|e] eqn:Hinfo;
    [|discriminate].
  destruct (first_feature (top_features top_n fu)) as [f|e] eqn:Hsel;
    [|discriminate].
  intros [= <-]. unfold settled.
  cbn [X_train X_test it whitebox_iter n_features_removed
       top_feature_to_remove calls].
  destruct (fit_and_explain_ret _ _ _ _ _ _ Hfit) as (_ & Hdt & Hyp & Hdyp).
  rewrite length_app. simpl List.length.
  repeat split; try lia.
  - eapply recorded_snoc; [exact Hrec|].
    rewrite <- Htr, <- Hte. simpl.
    unfold round_recorded. cbn.
    rewrite Hz1, Hz2, Hit, Hn, <- Hcalls, <- Hdt, <- Hyp, Hdyp.
    repeat split; try reflexivity. exact Htop.
  - rewrite removed_snoc, zero_columns_app, <- Htr. simpl.
    rewrite Hz1. reflexivity.
  - rewrite removed_snoc, zero_columns_app, <- Hte. simpl.
    rewrite Hz2. reflexivity.
  - rewrite last_dt_snoc. cbn [i_dt iteration_record].
    eapply selection_most_used; eassumption.
Qed.

(** A pass that raises leaves the arrays with at most one more
    column zeroed than the records account for. *)
Lemma body_raised fr fr' e :
  Settled fr ->
  body fr = (fr', Raised e) ->
  Exited fr'.
Proof.
  intros Hs. pose proof (settled_exited fr Hs) as Hex.
  destruct Hs as (Hrec & Htr & Hte & Hit & Hn & Hcalls & Htop).
  unfold loop_body.
  destruct (zero_column (X_train fr) (top_feature_to_remove fr))
    as [Xtr|e1] eqn:Hz1; [|intros [= <- _]; exact Hex].
  assert (Htr' : Xtr = zero_columns (removed (whitebox_iter fr)
                                     ++ [top_feature_to_remove fr]) Xtr0).
  { rewrite zero_columns_app, <- Htr. simpl. rewrite Hz1. reflexivity. }
  destruct (zero_column (X_test fr) (top_feature_to_remove fr))
    as [Xte|e2] eqn:Hz2.
  2:{ intros [= <- _]. unfold exited. split; [exact Hrec|].
      cbn [X_train X_test whitebox_iter]. split.
      - eexists. exact Htr'.
      - exists []. rewrite app_nil_r. exact Hte. }
  assert (Hte' : Xte = zero_columns (removed (whitebox_iter fr)
                                     ++ [top_feature_to_remove fr]) Xte0).
  { rewrite zero_columns_app, <- Hte. simpl. rewrite Hz2. reflexivity. }
  cbn [calls n_features_removed].
  destruct (fit_and_explain logger (calls fr) Xtr y_train Xte y_test)
    as [[[dt yp] dyp]|e3] eqn:Hfit.
  2:{ intros [= <- _]. unfold exited. split; [exact Hrec|].
      cbn [X_train X_test whitebox_iter].
      split; eexists; eassumption. }
  destruct (fit_and_explain_ret _ _ _ _ _ _ Hfit) as (_ & Hdt & Hyp & Hdyp).
  assert (Hex' : forall f' k,
             Exited {| X_train := Xtr; X_test := Xte; it := k;
                       whitebox_iter :=
                         whitebox_iter fr ++
                         [iteration_record y_test
                            {| X_train := Xtr; X_test := Xte; it := it fr;
                               whitebox_iter := whitebox_iter fr;
                               n_features_removed := n_features_removed fr + 1;
                               top_feature_to_remove := top_feature_to_remove fr;
                               calls := calls fr |} dt yp dyp];
                       n_features_removed := n_features_removed fr + 1;
                       top_feature_to_remove := f';
                       calls := S (calls fr) |}).
  { intros f' k. unfold exited. split; [|split];
      cbn [X_train X_test it whitebox_iter n_features_removed
           top_feature_to_remove calls].
    - eapply recorded_snoc; [exact Hrec|].
      rewrite <- Htr, <- Hte. unfold round_recorded. cbn.
      rewrite Hz1, Hz2, Hit, Hn, <- Hcalls, <- Hdt, <- Hyp, Hdyp.
      repeat split; try reflexivity. exact Htop.
    - exists []. rewrite app_nil_r, removed_snoc. exact Htr'.
    - exists []. rewrite app_nil_r, removed_snoc. exact Hte'. }
  destruct (get_dt_info dt limit) as [[[[fu sp] br] total]|e4] eqn:Hinfo.
  2:{ intros [= <- _]. apply Hex'. }
  destruct (first_feature (top_features top_n fu)) as [f|e5] eqn:Hsel;
    [discriminate|].
  intros [= <- _]. apply Hex'.
Qed.

(** The loop, from a settled frame: however it ends the frame has
    exited, and if it ends normally the frame is settled and the guard
    is false. *)
Lemma loop_exits F budget :
  forall fr fr' c,
    Settled fr ->
    (whitebox_iter fr = [] \/
     (it fr <= max_iter /\ n_features_removed fr <= F)) ->
    loop F budget fr = Some (fr', c) ->
    Exited fr' /\
    (c = Normal ->
     Settled fr' /\
     loop_guard max_iter F fr' = false /\
     (whitebox_iter fr' = [] \/
      (it fr' <= max_iter /\ n_features_removed fr' <= F))).
Proof.
  assert (Hstop : forall fr fr' c,
             Settled fr ->
             (whitebox_iter fr = [] \/
              (it fr <= max_iter /\ n_features_removed fr <= F)) ->
             loop_guard max_iter F fr = false ->
             Some (fr, Normal) = Some (fr', c) ->
             Exited fr' /\
             (c = Normal ->
              Settled fr' /\
              loop_guard max_iter F fr' = false /\
              (whitebox_iter fr' = [] \/
               (it fr' <= max_iter /\ n_features_removed fr' <= F)))).
  { intros fr fr' c Hs Hb Hg [= <- <-].
    split; [apply settled_exited; exact Hs|].
    intros _. split; [exact Hs | split; [exact Hg | exact Hb]]. }
  induction budget as [|budget IH]; intros fr fr' c Hs Hb; simpl;
    destruct (loop_guard max_iter F fr) eqn:Hg;
    [discriminate | exact (Hstop fr fr' c Hs Hb Hg) |
     | exact (Hstop fr fr' c Hs Hb Hg)].
  destruct (loop_body y_train y_test top_n logger limit fr)
    as [fr1 [|e]] eqn:Hbody.
  - destruct (body_normal fr fr1 Hs Hbody) as (Hs1 & Hit1 & Hn1 & _).
    apply IH; [exact Hs1|]. right.
    unfold loop_guard in Hg. apply andb_true_iff in Hg.
    destruct Hg as (Hg1 & Hg2).
    apply Z.ltb_lt in Hg1. apply Z.ltb_lt in Hg2. lia.
  - intros [= <- <-]. split; [|discriminate].
    eapply body_raised; eassumption.
Qed.

(** [max_iter - it] passes are enough: the loop never runs out of
    budget. *)
Lemma loop_total F budget :
  forall fr,
    Settled fr ->
    (Z.to_nat (max_iter - it fr) <= budget)%nat ->
    loop F budget fr <> None.
Proof.
  induction budget as [|budget IH]; intros fr Hs Hb; simpl;
    destruct (loop_guard max_iter F fr) eqn:Hg;
    [|discriminate| |discriminate];
    unfold loop_guard in Hg; apply andb_true_iff in Hg;
    destruct Hg as (Hg1 & _); apply Z.ltb_lt in Hg1; [lia|].
  destruct (loop_body y_train y_test top_n logger limit fr)
    as [fr1 [|e]] eqn:Hbody; [|discriminate].
  destruct (body_normal fr fr1 Hs Hbody) as (Hs1 & Hit1 & _).
  apply IH; [exact Hs1 | lia].
Qed.

Lemma first_selection_ret F f :
  first_selection y_train y_test top_n logger limit Xtr0 Xte0 = Ret (F, f) ->
  logger = true /\
  len_first_row Xtr0 = Ret F /\
  most_used limit first_dt f.
Proof.
  unfold first_selection.
  destruct (_ =? _)%nat; [discriminate|]. simpl.
  destruct (fit_and_explain logger 0 Xtr0 y_train Xte0 y_test)
    as [[[dt yp] dyp]|e] eqn:Hfit; [|discriminate]. simpl.
  destruct (fit_and_explain_ret _ _ _ _ _ _ Hfit) as (Hlog & Hdt & _).
  destruct (len_first_row Xtr0) as [F0|e]; [|discriminate]. simpl.
  destruct (get_dt_info dt limit) as [[[[fu sp] br] total]|e] eqn:Hinfo;
    [|discriminate]. simpl.
  destruct (getitem (n_node_samples dt) 0); [|discriminate]. simpl.
  destruct (obind (getitem (value dt) 0) _); [|discriminate]. simpl.
  destruct (getitem (n_classes dt) 0); [|discriminate]. simpl.
  destruct (first_feature (top_features top_n fu)) as [f0|e] eqn:Hsel;
    [|discriminate]. simpl.
  intros [= <- <-]. repeat split; try assumption.
  unfold first_dt. rewrite <- Hdt.
  eapply selection_most_used; eassumption.
Qed.

Lemma run_exits fr c :
  run Xtr0 Xte0 = Some (fr, c) ->
  Exited fr /\
  (c = Normal ->
   exists F,
     len_first_row Xtr0 = Ret F /\
     Settled fr /\
     loop_guard max_iter F fr = false /\
     (whitebox_iter fr = [] \/
      (it fr <= max_iter /\ n_features_removed fr <= F))).
Proof.
  unfold trust_report.
  destruct (first_selection y_train y_test top_n logger limit Xtr0 Xte0)
    as [[F f]|e] eqn:Hsel.
  - destruct (first_selection_ret F f Hsel) as (_ & HF & Htop).
    intros Hloop. apply loop_exits in Hloop.
    + destruct Hloop as (Hex & Hnormal). split; [exact Hex|].
      intros Hc. exists F. split; [exact HF|]. apply Hnormal, Hc.
    + unfold settled. cbn. repeat split; try reflexivity. exact Htop.
    + left. reflexivity.
  - intros [= <- <-]. split; [|discriminate].
    unfold exited, entry_frame. cbn.
    repeat split; exists []; reflexivity.
Qed.

(** [trust_report] always ends. *)
Lemma run_total : run Xtr0 Xte0 <> None.
Proof.
  unfold trust_report.
  destruct (first_selection y_train y_test top_n logger limit Xtr0 Xte0)
    as [[F f]|e] eqn:Hsel; [|discriminate].
  destruct (first_selection_ret F f Hsel) as (_ & HF & Htop).
  apply loop_total.
  - unfold settled. cbn. repeat split; try reflexivity. exact Htop.
  - cbn. rewrite Z.sub_0_r. lia.
Qed.

End Run.

End LoopFacts.

(** A run that ends normally has made exactly [min(max_iter, F)] passes. *)
Lemma completed_run_rounds `{E : Externals} (y_train y_test : list Z)
    (max_iter top_n : Z) (logger : bool) (limit : nat)
    (Xtr Xte : matrix) (fr : frame) (F : Z) :
  0 <= max_iter ->
  len_first_row Xtr = Ret F ->
  trust_report y_train y_test max_iter top_n logger limit Xtr Xte
  = Some (fr, Normal) ->
  Z.of_nat (List.length (whitebox_iter fr)) = Z.min max_iter F /\
  it fr = Z.min max_iter F /\
  n_features_removed fr = Z.min max_iter F.
Proof.
  intros Hmax HF Hrun.
  destruct (run_exits _ _ _ _ _ _ _ _ _ _ Hrun) as (_ & Hnormal).
  destruct (Hnormal eq_refl) as (F' & HF' & Hs & Hg & Hb).
  rewrite HF in HF'. injection HF' as <-.
  assert (0 <= F).
  { unfold len_first_row in HF. destruct (getitem (rows Xtr) 0); [|discriminate].
    simpl in HF. injection HF as <-. lia. }
  destruct Hs as (_ & _ & _ & Hit & Hn & _).
  unfold loop_guard in Hg. apply andb_false_iff in Hg.
  rewrite !Z.ltb_ge in Hg.
  destruct Hb as [Hnil | Hb].
  - rewrite Hnil in *. simpl in *. lia.
  - lia.
Qed.

(* ================================================================= *)
(** ** Ablation and the caller's arrays *)

(** The caller's arrays when a run ends. *)
Lemma caller_arrays_at_exit `{E : Externals}
    (y_train y_test : list Z) (max_iter top_n : Z) (logger : bool)
    (limit : nat) (Xtr Xte : matrix) (fr : frame) (c : completion) :
  trust_report y_train y_test max_iter top_n logger limit Xtr Xte
  = Some (fr, c) ->
  (exists extra,
      X_train fr = zero_columns (removed (whitebox_iter fr) ++ extra) Xtr) /\
  (exists extra,
      X_test fr = zero_columns (removed (whitebox_iter fr) ++ extra) Xte) /\
  (c = Normal ->
   X_train fr = zero_columns (removed (whitebox_iter fr)) Xtr /\
   X_test fr = zero_columns (removed (whitebox_iter fr)) Xte) /\
  (forall r, In r (whitebox_iter fr) ->
             column_zero (X_train fr) (i_feature_removed r) /\
             column_zero (X_test fr) (i_feature_removed r)).
Proof.
  intros Hrun.
  destruct (run_exits _ _ _ _ _ _ _ _ _ _ Hrun)
    as ((Hrec & (ex1 & Htr) & (ex2 & Hte)) & Hnormal).
  split; [exists ex1; exact Htr|].
  split; [exists ex2; exact Hte|].
  split.
  - intros Hc. destruct (Hnormal Hc) as (F & _ & Hs & _).
    destruct Hs as (_ & H1 & H2 & _). split; assumption.
  - intros r Hin.
    destruct (recorded_zero _ _ _ _ _ _ _ _ _ Hrec Hin) as (Hz1 & Hz2).
    rewrite Htr, Hte, !zero_columns_app.
    split; apply zero_columns_keeps; assumption.
Qed.

(** C2, as stated, fails: after one round of ablation the arrays the
    caller passed are no longer what the caller passed; column 0 of both
    has been overwritten with zeros. *)
Lemma ablation_mutates_caller_arrays :
  exists fr,
    trust_report (E := RR) y2 y1 1 10 true 100
                 X4c_train X4c_test = Some (fr, Normal) /\
    rows X4c_train = [[1; 2; 9; 9]; [5; 6; 9; 9]]%Q /\
    rows (X_train fr) = [[0; 2; 9; 9]; [0; 6; 9; 9]]%Q /\
    rows X4c_test = [[1; 6; 9; 9]]%Q /\
    rows (X_test fr) = [[0; 6; 9; 9]]%Q /\
    X_train fr <> X4c_train /\
    X_test fr <> X4c_test.
Proof.
  destruct (trust_report (E := RR) y2 y1 1 10 true 100
                         X4c_train X4c_test) as [[fr c]|] eqn:Hrun;
    vm_compute in Hrun; [|discriminate Hrun].
  injection Hrun as <- <-.
  eexists. split; [reflexivity|].
  repeat split; try reflexivity; discriminate.
Qed.

(* ================================================================= *)
(** ** The records of the loop *)

(** The records a run has appended when it ends. *)
Lemma record_contents_at_exit `{E : Externals}
    (y_train y_test : list Z) (max_iter top_n : Z) (logger : bool)
    (limit : nat) (Xtr Xte : matrix) (fr : frame) (c : completion) :
  trust_report y_train y_test max_iter top_n logger limit Xtr Xte
  = Some (fr, c) ->
  forall k r,
    nth_error (whitebox_iter fr) k = Some r ->
    i_it r = Z.of_nat k /\
    i_n_features_removed r = Z.of_nat k + 1 /\
    exists Xb Xteb,
      zero_column (zero_columns (removed (firstn k (whitebox_iter fr))) Xtr)
                  (i_feature_removed r) = Ret Xb /\
      zero_column (zero_columns (removed (firstn k (whitebox_iter fr))) Xte)
                  (i_feature_removed r) = Ret Xteb /\
      i_dt r = dagger_explain (S k) (fit_blackbox (S k) Xb y_train) Xb y_train /\
      i_y_pred r = predict (fit_blackbox (S k) Xb y_train) Xteb /\
      i_dt_y_pred r = dt_predict (i_dt r) Xteb /\
      i_f1 r = f1_score y_test (i_y_pred r) macro /\
      i_fidelity r = f1_score (i_y_pred r) (i_dt_y_pred r) macro.
Proof.
  intros Hrun k r Hnth.
  destruct (run_exits _ _ _ _ _ _ _ _ _ _ Hrun) as ((Hrec & _) & _).
  destruct (recorded_nth _ _ _ _ _ _ _ _ _ _ Hrec Hnth)
    as (Xb & Xteb & Hr & _).
  destruct Hr as (Hz1 & Hz2 & _ & Hit & Hn & Hdt & Hyp & Hdyp & Hf1 & Hfid).
  split; [exact Hit|]. split; [exact Hn|].
  exists Xb, Xteb. repeat split; assumption.
Qed.

(** C7: the [k]-th record appended by the loop (counting from 0) holds
    iteration index [k], the feature whose column round [k] zeroed, and
    [k + 1] as the number of features removed so far.  Its performance
    score is the macro-averaged F1 of the refitted blackbox's predictions
    against the ground-truth test labels, and its fidelity score is the
    macro-averaged F1 of the surrogate tree's predictions against the
    blackbox's predictions, both on the test array as ablated in that
    round. *)
Theorem ablation_record_contents `{E : Externals}
    (y_train y_test : list Z) (max_iter top_n : Z) (logger : bool)
    (limit : nat) (Xtr Xte : matrix) :
  exists fr c,
    trust_report y_train y_test max_iter top_n logger limit Xtr Xte
    = Some (fr, c) /\
    forall k r,
      nth_error (whitebox_iter fr) k = Some r ->
      i_it r = Z.of_nat k /\
      i_n_features_removed r = Z.of_nat k + 1 /\
      exists Xb Xteb,
        zero_column (zero_columns (removed (firstn k (whitebox_iter fr))) Xtr)
                    (i_feature_removed r) = Ret Xb /\
        zero_column (zero_columns (removed (firstn k (whitebox_iter fr))) Xte)
                    (i_feature_removed r) = Ret Xteb /\
        i_dt r = dagger_explain (S k) (fit_blackbox (S k) Xb y_train) Xb y_train /\
        i_y_pred r = predict (fit_blackbox (S k) Xb y_train) Xteb /\
        i_dt_y_pred r = dt_predict (i_dt r) Xteb /\
        i_f1 r = f1_score y_test (i_y_pred r) macro /\
        i_fidelity r = f1_score (i_y_pred r) (i_dt_y_pred r) macro.
Proof.
  destruct (trust_report y_train y_test max_iter top_n logger limit Xtr Xte)
    as [[fr c]|] eqn:Hrun.
  - exists fr, c. split; [reflexivity|].
    exact (record_contents_at_exit _ _ _ _ _ _ _ _ _ _ Hrun).
  - exfalso. exact (run_total _ _ _ _ _ _ _ _ Hrun).
Qed.

Lemma ablation_record_contents_witness :
  exists fr c,
    trust_report (E := RR) y2 y1 3 10 true 100
                 X4c_train X4c_test = Some (fr, c) /\
    c = Normal /\
    List.length (whitebox_iter fr) = 3%nat /\
    forall k r,
      nth_error (whitebox_iter fr) k = Some r ->
      i_it r = Z.of_nat k /\
      i_n_features_removed r = Z.of_nat k + 1 /\
      exists Xb Xteb,
        zero_column (zero_columns (removed (firstn k (whitebox_iter fr))) X4c_train)
                    (i_feature_removed r) = Ret Xb /\
        zero_column (zero_columns (removed (firstn k (whitebox_iter fr))) X4c_test)
                    (i_feature_removed r) = Ret Xteb /\
        i_dt r = @dagger_explain RR (S k) (@fit_blackbox RR (S k) Xb y2) Xb y2 /\
        i_y_pred r = @predict RR (@fit_blackbox RR (S k) Xb y2) Xteb /\
        i_dt_y_pred r = @dt_predict RR (i_dt r) Xteb /\
        i_f1 r = @f1_score RR y1 (i_y_pred r) macro /\
        i_fidelity r = @f1_score RR (i_y_pred r) (i_dt_y_pred r) macro.
Proof.
  destruct (ablation_record_contents (E := RR) y2 y1 3 10 true 100 X4c_train X4c_test)
    as (fr & c & Hrun & Hfacts).
  exists fr, c. split; [exact Hrun|].
  assert (Hval := Hrun). vm_compute in Hval. injection Hval as <- <-.
  split; [reflexivity|]. split; [reflexivity|]. exact Hfacts.
Defined.

(* ================================================================= *)
(** ** Surrogates that split on nothing *)

Lemma getitem_raises {A} (a : list A) (i : Z) (e : exn) :
  getitem a i = Raise e -> e = IndexError.
Proof.
  unfold getitem. destruct (_ && _).
  - destruct (nth_error a _); [discriminate|]. intros [= <-]. reflexivity.
  - intros [= <-]. reflexivity.
Qed.

Lemma top_features_empty (top_n : Z) : top_features top_n [] = [].
Proof.
  unfold top_features, slice_to. simpl.
  destruct (0 <=? top_n); apply firstn_nil.
Qed.

Lemma first_feature_empty (top_n : Z) :
  first_feature (top_features top_n []) = Raise IndexError.
Proof.
  rewrite top_features_empty. unfold first_feature.
  rewrite getitem_empty. reflexivity.
Qed.

Lemma leaf_only_info (dt : Tree) (limit : nat) :
  well_formed dt (Leaf 0) -> (1 <= limit)%nat ->
  exists br total, get_dt_info dt limit = Ret ([], [], br, total).
Proof.
  intros Hwf Hlim.
  rewrite (get_dt_info_well_formed dt (Leaf 0) limit Hwf Hlim).
  do 2 eexists. reflexivity.
Qed.

(** C10: a well-formed surrogate that is a single leaf has an empty
    feature-usage dictionary, so the ranking is empty and taking its
    first element raises [IndexError].  When the first surrogate is such
    a tree, [trust_report] raises [IndexError] before the loop; when the
    surrogate refitted in a round is such a tree, that round raises
    [IndexError].  Conversely, in a run that ends normally neither the
    first surrogate nor any recorded surrogate has a leaf as its root. *)
Theorem leaf_only_surrogate_raises `{E : Externals}
    (y_train y_test : list Z) (max_iter top_n : Z) (limit : nat)
    (Xtr Xte : matrix) :
  (1 <= limit)%nat ->
  (List.length (rows Xtr) + List.length (rows Xte) <> 0)%nat ->
  (forall dt,
      well_formed dt (Leaf 0) ->
      exists br total,
        get_dt_info dt limit = Ret ([], [], br, total) /\
        top_features top_n [] = [] /\
        first_feature (top_features top_n []) = Raise IndexError) /\
  (well_formed (refit_dt y_train 0 Xtr) (Leaf 0) ->
   trust_report y_train y_test max_iter top_n true limit Xtr Xte
   = Some (entry_frame Xtr Xte, Raised IndexError)) /\
  (forall fr,
      (forall X', zero_column (X_train fr) (top_feature_to_remove fr) = Ret X' ->
                  well_formed (refit_dt y_train (calls fr) X') (Leaf 0)) ->
      exists fr',
        loop_body y_train y_test top_n true limit fr = (fr', Raised IndexError)) /\
  (forall logger fr,
      trust_report y_train y_test max_iter top_n logger limit Xtr Xte
      = Some (fr, Normal) ->
      ~ single_leaf (refit_dt y_train 0 Xtr) /\
      forall r, In r (whitebox_iter fr) -> ~ single_leaf (i_dt r)).
Proof.
  intros Hlim Hrows. repeat apply conj.
  - intros dt Hwf.
    destruct (leaf_only_info dt limit Hwf Hlim) as (br & total & Hinfo).
    exists br, total. split; [exact Hinfo|].
    split; [apply top_features_empty | apply first_feature_empty].
  - intros Hwf.
    destruct (leaf_only_info _ limit Hwf Hlim) as (br & total & Hinfo).
    unfold trust_report, first_selection.
    destruct (_ =? _)%nat eqn:Hz; [apply Nat.eqb_eq in Hz; contradiction|].
    unfold fit_and_explain. cbn [obind].
    fold (refit_dt y_train 0 Xtr).
    destruct (len_first_row Xtr) as [F|e] eqn:HF; cbn [obind].
    2:{ unfold len_first_row in HF.
        destruct (getitem (rows Xtr) 0) eqn:Hg; [discriminate|].
        simpl in HF. injection HF as <-.
        rewrite (getitem_raises _ _ _ Hg). reflexivity. }
    rewrite Hinfo. cbn [obind].
    destruct (getitem (n_node_samples (refit_dt y_train 0 Xtr)) 0) eqn:H1;
      cbn [obind]; [|rewrite (getitem_raises _ _ _ H1); reflexivity].
    destruct (getitem (value (refit_dt y_train 0 Xtr)) 0) as [v|e] eqn:H2;
      cbn [obind]; [|rewrite (getitem_raises _ _ _ H2); reflexivity].
    destruct (getitem v 0) eqn:H3;
      cbn [obind]; [|rewrite (getitem_raises _ _ _ H3); reflexivity].
    destruct (getitem (n_classes (refit_dt y_train 0 Xtr)) 0) eqn:H4;
      cbn [obind]; [|rewrite (getitem_raises _ _ _ H4); reflexivity].
    rewrite first_feature_empty. reflexivity.
  - intros fr Hwf. unfold loop_body.
    destruct (zero_column (X_train fr) (top_feature_to_remove fr))
      as [Xtr'|e] eqn:Hz1.
    2:{ eexists. f_equal. f_equal. revert Hz1. unfold zero_column.
        destruct (_ && _); [discriminate|]. intros [= <-]. reflexivity. }
    destruct (zero_column (X_test fr) (top_feature_to_remove fr))
      as [Xte'|e] eqn:Hz2.
    2:{ eexists. f_equal. f_equal. revert Hz2. unfold zero_column.
        destruct (_ && _); [discriminate|]. intros [= <-]. reflexivity. }
    unfold fit_and_explain. cbn [calls].
    fold (refit_dt y_train (calls fr) Xtr').
    destruct (leaf_only_info _ limit (Hwf Xtr' eq_refl) Hlim)
      as (br & total & Hinfo).
    rewrite Hinfo, first_feature_empty. eexists. reflexivity.
  - intros logger fr Hrun.
    destruct (run_exits _ _ _ _ _ _ _ _ _ _ Hrun) as (_ & Hnormal).
    destruct (Hnormal eq_refl) as (F & _ & Hs & _).
    destruct Hs as (Hrec & _ & _ & _ & _ & _ & Htop).
    destruct (recorded_consulted _ _ _ _ _ _ _ _ Hrec (ex_intro _ _ Htop))
      as ((f0 & H0) & Hall).
    split; [eapply most_used_not_single_leaf; exact H0|].
    intros r Hin. destruct (Hall r Hin) as (f & Hf).
    eapply most_used_not_single_leaf; exact Hf.
Qed.

Lemma leaf_only_surrogate_raises_witness :
  (1 <= 100)%nat /\
  (List.length (rows X4k_train) + List.length (rows X4k_test) <> 0)%nat /\
  well_formed (refit_dt (E := CART) y2 0 X4k_train) (Leaf 0) /\
  trust_report (E := CART) y2 y1 10 10 true 100 X4k_train X4k_test
  = Some (entry_frame X4k_train X4k_test, Raised IndexError).
Proof.
  assert (H1 : (1 <= 100)%nat) by lia.
  assert (H2 : (List.length (rows X4k_train) + List.length (rows X4k_test) <> 0)%nat)
    by (simpl; lia).
  assert (H3 : well_formed (refit_dt (E := CART) y2 0 X4k_train) (Leaf 0))
    by exact tree1_well_formed.
  split; [exact H1|]. split; [exact H2|]. split; [exact H3|].
  exact (proj1 (proj2 (leaf_only_surrogate_raises (E := CART)
                         y2 y1 10 10 100 X4k_train X4k_test H1 H2)) H3).
Defined.

(* ================================================================= *)
(** ** The number of rounds *)

(** C6 at concrete inputs, with an extractor that cannot split on a
    constant column, four feature columns and [max_iter = 10]:
    - two columns constant: the second pass raises [IndexError] after two
      records, where [min(max_iter, F)] is 4;
    - no column varying: [IndexError] is raised before the first pass;
    - all four columns varying: the fourth pass has zeroed the last
      column, refits on an all-zero array and raises [IndexError]. *)
Theorem ablation_cut_short :
  len_first_row X4c_train = Ret 4 /\
  Z.min 10 4 = 4 /\
  (exists fr,
      trust_report (E := CART) y2 y1 10 10 true 100 X4c_train X4c_test
      = Some (fr, Raised IndexError) /\
      List.length (whitebox_iter fr) = 2%nat /\
      it fr = 1) /\
  (exists fr,
      trust_report (E := CART) y2 y1 10 10 true 100 X4k_train X4k_test
      = Some (fr, Raised IndexError) /\
      List.length (whitebox_iter fr) = 0%nat /\
      it fr = 0) /\
  (exists fr,
      trust_report (E := CART) y2 y1 10 10 true 100 X4_train X4_test
      = Some (fr, Raised IndexError) /\
      List.length (whitebox_iter fr) = 4%nat /\
      it fr = 3 /\
      rows (X_train fr) = [[0; 0; 0; 0]; [0; 0; 0; 0]]%Q).
Proof.
  split; [reflexivity|]. split; [reflexivity|].
  split; [|split].
  - destruct (trust_report (E := CART) y2 y1 10 10 true 100 X4c_train X4c_test)
      as [[fr c]|] eqn:Hrun; vm_compute in Hrun; [|discriminate Hrun].
    injection Hrun as <- <-. eexists. repeat split.
  - destruct (trust_report (E := CART) y2 y1 10 10 true 100 X4k_train X4k_test)
      as [[fr c]|] eqn:Hrun; vm_compute in Hrun; [|discriminate Hrun].
    injection Hrun as <- <-. eexists. repeat split.
  - destruct (trust_report (E := CART) y2 y1 10 10 true 100 X4_train X4_test)
      as [[fr c]|] eqn:Hrun; vm_compute in Hrun; [|discriminate Hrun].
    injection Hrun as <- <-. eexists. repeat split.
Qed.

(** ** Ablating every feature *)

Lemma getitem_In {A} (a : list A) (i : Z) (x : A) :
  getitem a i = Ret x -> In x a.
Proof.
  unfold getitem. destruct (_ && _); [|discriminate].
  destruct (nth_error a _) eqn:Hnth; [|discriminate].
  intros [= <-]. eapply nth_error_In. exact Hnth.
Qed.

Lemma len_first_row_rectangular (X : matrix) (F : Z) :
  rectangular X -> len_first_row X = Ret F -> F = n_columns X.
Proof.
  intros (_ & Hrows). unfold len_first_row.
  destruct (getitem (rows X) 0) as [r|e] eqn:Hg; [|discriminate].
  simpl. intros [= <-].
  rewrite Forall_forall in Hrows. apply Hrows. eapply getitem_In. exact Hg.
Qed.

Lemma zero_columns_columns (fs : list Z) (X : matrix) :
  n_columns (zero_columns fs X) = n_columns X.
Proof.
  revert X. induction fs as [|f fs IH]; intros X; simpl; [reflexivity|].
  rewrite IH. destruct (zero_column X f) eqn:Hz; [|reflexivity].
  eapply zero_column_columns. exact Hz.
Qed.

Section Exhaustion.

Context `{E : Externals}.
Variable y_train y_test : list Z.
Variable limit : nat.
Hypothesis learner : splits_on_varying y_train limit.

(** The features removed by consecutive rounds are pairwise distinct
    columns, none of them zero beforehand, and the tree fitted last was
    fitted on the arrays with all of them zeroed. *)
Lemma recorded_distinct rs :
  forall k Xtr Xte,
    rounds_recorded y_train y_test limit k Xtr Xte (refit_dt y_train k Xtr) rs ->
    NoDup (removed rs) /\
    (forall f, In f (removed rs) ->
               0 <= f < n_columns Xtr /\ ~ column_zero Xtr f) /\
    last_dt (refit_dt y_train k Xtr) rs
    = refit_dt y_train (k + List.length rs) (zero_columns (removed rs) Xtr).
Proof.
  induction rs as [|r0 rs IH]; intros k Xtr Xte Hrs.
  - simpl. rewrite Nat.add_0_r.
    split; [constructor|]. split; [intros f []|reflexivity].
  - destruct Hrs as (X1 & Xte1 & Hr0 & Hrest).
    destruct Hr0 as (Hz1 & _ & Hmost & _ & _ & Hdt & _).
    rewrite Hdt in Hrest.
    destruct (IH (S k) X1 Xte1 Hrest) as (Hnd & Hin & Hlast).
    destruct Hmost as (fu & sp & br & total & u & Hinfo & _ & Hu & _).
    destruct (learner _ _ _ _ _ _ _ _ Hinfo Hu) as (Hrange & Hnz).
    pose proof (zero_column_columns _ _ _ Hz1) as Hcols.
    unfold removed in *. simpl map.
    split; [|split].
    + constructor; [|exact Hnd].
      intros Hmem. destruct (Hin _ Hmem) as (_ & Hnz1).
      apply Hnz1. eapply zero_column_zero. exact Hz1.
    + intros f [<- | Hmem]; [split; assumption|].
      destruct (Hin f Hmem) as (Hr & Hnz1).
      split; [lia|]. intros Hzf. apply Hnz1.
      eapply zero_column_keeps; eassumption.
    + unfold last_dt. simpl map. rewrite last_cons, Hdt.
      fold (last_dt (refit_dt y_train (S k) X1) rs). rewrite Hlast.
      simpl zero_columns. rewrite Hz1.
      replace (S k + List.length rs)%nat with (k + List.length (r0 :: rs))%nat
        by (simpl; lia).
      reflexivity.
Qed.

(** With such an extractor, a run allowed as many rounds as there are
    feature columns cannot end normally: once every column is zero the
    refitted tree uses no feature and the selection raises. *)
Lemma all_features_ablated_raises (max_iter top_n : Z) (logger : bool)
    (Xtr Xte : matrix) (fr : frame) (c : completion) :
  rectangular Xtr ->
  n_columns Xtr <= max_iter ->
  trust_report y_train y_test max_iter top_n logger limit Xtr Xte
  = Some (fr, c) ->
  c <> Normal.
Proof.
  intros Hrect Hmax Hrun ->.
  destruct (run_exits _ _ _ _ _ _ _ _ _ _ Hrun) as (_ & Hnormal).
  destruct (Hnormal eq_refl) as (F & HF & Hs & _).
  pose proof (len_first_row_rectangular _ _ Hrect HF) as ->.
  assert (H0 : 0 <= max_iter) by (destruct Hrect; lia).
  destruct (completed_run_rounds _ _ _ _ _ _ _ _ _ _ H0 HF Hrun) as (Hlen & _).
  rewrite Z.min_r in Hlen by exact Hmax.
  destruct Hs as (Hrec & _ & _ & _ & _ & _ & Htop).
  destruct (recorded_distinct _ _ _ _ Hrec) as (Hnd & Hin & Hlast).
  rewrite Hlast in Htop.
  destruct Htop as (fu & sp & br & total & u & Hinfo & _ & Hu & _).
  destruct (learner _ _ _ _ _ _ _ _ Hinfo Hu) as (Hrange & Hnz).
  rewrite zero_columns_columns in Hrange.
  assert (Hmem : In (top_feature_to_remove fr) (removed (whitebox_iter fr))).
  { apply (@NoDup_length_incl Z (removed (whitebox_iter fr))
             (map Z.of_nat (seq 0 (List.length (whitebox_iter fr)))) Hnd).
    - unfold removed. rewrite !length_map, length_seq. lia.
    - intros f Hf. destruct (Hin f Hf) as (Hr & _).
      replace f with (Z.of_nat (Z.to_nat f)) by lia.
      apply in_map, in_seq. lia.
    - replace (top_feature_to_remove fr)
        with (Z.of_nat (Z.to_nat (top_feature_to_remove fr))) by lia.
      apply in_map, in_seq. lia. }
  apply in_map_iff in Hmem. destruct Hmem as (r & Hr & Hrin).
  destruct (recorded_zero _ _ _ _ _ _ _ _ _ Hrec Hrin) as (Hz & _).
  rewrite Hr in Hz. exact (Hnz Hz).
Qed.

End Exhaustion.

(** The sample extractor [cart_like] has the property assumed above. *)
Lemma cart_like_splits_on_varying (y_train : list Z) (limit : nat) :
  splits_on_varying (E := CART) y_train limit.
Proof.
  intros k X fu sp br total f u. unfold refit_dt. cbn [dagger_explain CART externals_of].
  unfold cart_like.
  destruct (filter _ _) as [|j js] eqn:Hfilter.
  - intros Hinfo Hin.
    destruct limit as [|limit]; [discriminate Hinfo|].
    vm_compute in Hinfo. injection Hinfo as <- _ _ _. destruct Hin.
  - intros Hinfo Hin.
    assert (Hj : In j (filter (fun j => negb (constant_column X j))
                              (seq 0 (Z.to_nat (n_columns X)))))
      by (rewrite Hfilter; left; reflexivity).
    apply filter_In in Hj. destruct Hj as (Hseq & Hvar).
    apply in_seq in Hseq.
    assert (Hf : f = Z.of_nat j).
    { destruct limit as [|[|limit]]; [discriminate Hinfo | discriminate Hinfo |].
      rewrite (get_dt_info_well_formed _ _ _ (stump_well_formed (Z.of_nat j)))
        in Hinfo by (simpl; lia).
      injection Hinfo as <- _ _ _.
      cbn in Hin. rewrite Z.eqb_refl in Hin. cbn in Hin.
      rewrite Z.eqb_refl in Hin.
      destruct Hin as [[= <- _] | []]. reflexivity. }
    subst f. split; [lia|].
    intros Hzero. apply negb_true_iff in Hvar.
    unfold column_zero, column_of in Hzero.
    replace (Z.of_nat j <? 0) with false in Hzero
      by (symmetry; apply Z.ltb_ge; lia).
    rewrite Nat2Z.id in Hzero.
    unfold constant_column in Hvar.
    destruct (rows X) as [|r rs]; [discriminate|].
    inversion Hzero as [|? ? Hr Hrs]; subst.
    assert (Hall : forallb (fun r' => Qeq_bool (nth j r' 0%Q) (nth j r 0%Q)) rs = true).
    { apply forallb_forall. intros r' Hr'.
      rewrite Forall_forall in Hrs. rewrite (Hrs r' Hr'), Hr. reflexivity. }
    congruence.
Qed.

(** With the sample extractor, no run given at least as many rounds as
    there are feature columns ends normally. *)
Lemma cart_like_run_raises (y_train y_test : list Z) (max_iter top_n : Z)
    (logger : bool) (limit : nat) (Xtr Xte : matrix) :
  rectangular Xtr ->
  n_columns Xtr <= max_iter ->
  exists fr e,
    trust_report (E := CART) y_train y_test max_iter top_n logger limit Xtr Xte
    = Some (fr, Raised e).
Proof.
  intros Hrect Hmax.
  destruct (trust_report (E := CART) y_train y_test max_iter top_n logger limit
                         Xtr Xte) as [[fr [|e]]|] eqn:Hrun.
  - exfalso.
    apply (all_features_ablated_raises (E := CART) y_train y_test limit
             (cart_like_splits_on_varying y_train limit)
             max_iter top_n logger Xtr Xte fr Normal Hrect Hmax Hrun).
    reflexivity.
  - exists fr, e. reflexivity.
  - exfalso. exact (run_total _ _ _ _ _ _ _ _ Hrun).
Qed.


(* ================================================================= *)
(** * Further properties of the analyser *)

(** ** One call of [walk_tree] *)

Lemma split_record_fields (dt : Tree) (n f : Z) (th : Q) (l r : Z) (sp : Split) :
  split_record dt n f th l r = Ret sp ->
  s_idx sp = n /\ s_feature sp = f /\ s_threshold sp = th /\
  getitem (n_node_samples dt) n = Ret (s_samples sp).
Proof.
  unfold split_record.
  destruct (getitem (n_node_samples dt) n) as [s|]; [|discriminate]. simpl.
  destruct (getitem (value dt) n); [|discriminate]. simpl.
  destruct (getitem (impurity dt) l); [|discriminate]. simpl.
  destruct (getitem (impurity dt) r); [|discriminate]. simpl.
  destruct (getitem (value dt) l) as [vl|]; [|discriminate]. simpl.
  destruct (getitem (value dt) r) as [vr|]; [|discriminate]. simpl.
  destruct (getitem vl 0); [|discriminate]. simpl.
  destruct (getitem vr 0); [|discriminate]. simpl.
  intros [= <-]. repeat split.
Qed.

Lemma leaf_branch_path (dt : Tree) (n : Z) (path : list predicate) (b : Branch) :
  leaf_branch dt n path = Ret b -> b_path b = path.
Proof.
  unfold leaf_branch.
  destruct (getitem (value dt) n) as [v|]; [|discriminate]. simpl.
  destruct (getitem v 0) as [v0|]; [|discriminate]. simpl.
  destruct (np_argmax v0) as [c|]; [|discriminate]. simpl.
  destruct (getitem v0 c); [|discriminate]. simpl.
  destruct (getitem (n_node_samples dt) n); [|discriminate]. simpl.
  intros [= <-]. reflexivity.
Qed.

(** What a returning call of [walk_tree] has done: either the node is a
    leaf and one branch is returned with the accumulators untouched, or
    the usage of the node's feature and its split record are recorded
    and the two children are walked in turn. *)
Lemma walk_tree_step (dt : Tree) (limit : nat) (n : Z) (path : list predicate)
    (st st' : walker_state) (br : list Branch) :
  walk_tree dt (S limit) n path st = Ret (br, st') ->
  exists l r,
    getitem (children_left dt) n = Ret l /\
    getitem (children_right dt) n = Ret r /\
    ((l = r /\ st' = st /\
      exists b, leaf_branch dt n path = Ret b /\ br = [b]) \/
     (l <> r /\
      exists f th sp bl brr st1,
        getitem (feature dt) n = Ret f /\
        getitem (threshold dt) n = Ret th /\
        split_record dt n f th l r = Ret sp /\
        walk_tree dt limit l (path ++ [(f, "<="%string, th)])
          {| features_used := record_usage f (s_samples sp) (features_used st);
             splits := splits st ++ [sp] |} = Ret (bl, st1) /\
        walk_tree dt limit r (path ++ [(f, ">"%string, th)]) st1
        = Ret (brr, st') /\
        br = bl ++ brr)).
Proof.
  simpl. unfold wbind, wlift, wret, wmodify.
  destruct (getitem (children_left dt) n) as [l|]; [|discriminate].
  destruct (getitem (children_right dt) n) as [r|]; [|discriminate].
  intros H. exists l, r. split; [reflexivity|]. split; [reflexivity|].
  destruct (l =? r) eqn:Hlr.
  - apply Z.eqb_eq in Hlr. left.
    destruct (leaf_branch dt n path) as [b|]; [|discriminate].
    injection H as <- <-. split; [exact Hlr|]. split; [reflexivity|].
    exists b. split; reflexivity.
  - apply Z.eqb_neq in Hlr. right. split; [exact Hlr|].
    destruct (getitem (feature dt) n) as [f|]; [|discriminate].
    destruct (getitem (threshold dt) n) as [th|]; [|discriminate].
    destruct (getitem (n_node_samples dt) n) as [s|] eqn:Hs; [|discriminate].
    destruct (split_record dt n f th l r) as [sp|] eqn:Hsp; [|discriminate].
    destruct (split_record_fields _ _ _ _ _ _ _ Hsp) as (_ & _ & _ & Hs').
    rewrite Hs in Hs'. injection Hs' as ->.
    simpl in H.
    destruct (walk_tree dt limit l _ _) as [[bl st1]|] eqn:Hwl; [|discriminate].
    destruct (walk_tree dt limit r _ st1) as [[brr st2]|] eqn:Hwr; [|discriminate].
    injection H as <- <-.
    exists f, th, sp, bl, brr, st1. repeat split; assumption.
Qed.

(** ** The structure of a returning walk *)

(** Whenever [walk_tree] returns, the nodes it visited form a finite
    binary tree that the child arrays unfold to and that fits the
    recursion limit; the split records appended are those of its internal
    nodes in pre-order, the usage dictionary has received one update per
    appended record, and one branch per leaf is returned. *)
Lemma walk_tree_returns (dt : Tree) (limit : nat) :
  forall n path st br st',
    walk_tree dt limit n path st = Ret (br, st') ->
    exists T sp,
      root T = n /\ unfolds dt T /\ (depth T <= limit)%nat /\
      splits st' = splits st ++ sp /\
      map s_idx sp = internal_preorder T /\
      features_used st' = usage_from_splits sp (features_used st) /\
      List.length br = List.length (leaves T).
Proof.
  induction limit as [|limit IH]; intros n path st br st' Hrun;
    [discriminate Hrun|].
  destruct (walk_tree_step _ _ _ _ _ _ _ Hrun)
    as (l & r & Hl & Hr & [(-> & -> & b & _ & ->) |
                           (Hne & f & th & sp & bl & brr & st1 &
                            _ & _ & Hsp & Hwl & Hwr & ->)]).
  - exists (Leaf n), []. simpl. rewrite app_nil_r.
    repeat split; try reflexivity; try lia.
    exists r. split; assumption.
  - destruct (IH _ _ _ _ _ Hwl) as (Tl & spl & Hrl & Hul & Hdl & Hsl & Hil & Hfl & Hbl).
    destruct (IH _ _ _ _ _ Hwr) as (Tr & spr & Hrr & Hur & Hdr & Hsr & Hir & Hfr & Hbr).
    destruct (split_record_fields _ _ _ _ _ _ _ Hsp) as (Hidx & Hf & _ & _).
    exists (Node n Tl Tr), (sp :: spl ++ spr). simpl.
    rewrite Hrl, Hrr. cbn [splits features_used] in Hsl, Hfl.
    repeat split; try assumption.
    + lia.
    + rewrite Hsr, Hsl, <- !app_assoc. reflexivity.
    + rewrite map_app, Hil, Hir, Hidx. reflexivity.
    + rewrite Hfr, Hfl. unfold usage_from_splits.
      rewrite fold_left_app, Hf. reflexivity.
    + rewrite !length_app, Hbl, Hbr. reflexivity.
Qed.

Lemma leaves_internal (T : shape) :
  List.length (leaves T) = S (List.length (internal_preorder T)).
Proof.
  induction T as [n | n l IHl r IHr]; simpl; [reflexivity|].
  rewrite !length_app, IHl, IHr. lia.
Qed.


Lemma FOP_app {A} (R : A -> A -> Prop) (l1 l2 : list A) :
  ForallOrdPairs R l1 -> ForallOrdPairs R l2 ->
  (forall a b, In a l1 -> In b l2 -> R a b) ->
  ForallOrdPairs R (l1 ++ l2).
Proof.
  induction 1 as [|a l1 Ha H1 IH]; intros H2 Hx; simpl; [exact H2|].
  constructor.
  - apply Forall_app. split; [exact Ha|].
    apply Forall_forall. intros b Hb. apply Hx; [left; reflexivity | exact Hb].
  - apply IH; [exact H2|]. intros a' b Ha' Hb. apply Hx; [right|]; assumption.
Qed.

Lemma FOP_nth {A} (R : A -> A -> Prop) (l : list A) :
  ForallOrdPairs R l ->
  forall i j a b, (i < j)%nat ->
    nth_error l i = Some a -> nth_error l j = Some b -> R a b.
Proof.
  induction 1 as [|x l Hx Hl IH]; intros i j a b Hij Hi Hj.
  - destruct i; discriminate.
  - destruct j as [|j]; [lia|]. simpl in Hj.
    destruct i as [|i].
    + injection Hi as <-. rewrite Forall_forall in Hx.
      apply Hx. eapply nth_error_In. exact Hj.
    + simpl in Hi. apply (IH i j); [lia | assumption | assumption].
Qed.

(** The branches a call returns extend the path it was given, by fewer
    predicates than the recursion limit, and any two of them part: the
    earlier one takes the ["<="] side of a test whose [">"] side the
    later one takes. *)
Lemma walk_tree_paths (dt : Tree) (limit : nat) :
  forall n path st br st',
    walk_tree dt limit n path st = Ret (br, st') ->
    Forall (fun b => exists suffix,
                b_path b = path ++ suffix /\
                (List.length suffix < limit)%nat) br /\
    ForallOrdPairs diverge (map b_path br).
Proof.
  induction limit as [|limit IH]; intros n path st br st' Hrun;
    [discriminate Hrun|].
  destruct (walk_tree_step _ _ _ _ _ _ _ Hrun)
    as (l & r & Hl & Hr & [(-> & -> & b & Hb & ->) |
                           (Hne & f & th & sp & bl & brr & st1 &
                            _ & _ & _ & Hwl & Hwr & ->)]).
  - split.
    + constructor; [|constructor]. exists [].
      rewrite app_nil_r, (leaf_branch_path _ _ _ _ Hb). split; [reflexivity|simpl; lia].
    + simpl. constructor; constructor.
  - destruct (IH _ _ _ _ _ Hwl) as (Hpl & Hdl).
    destruct (IH _ _ _ _ _ Hwr) as (Hpr & Hdr).
    assert (Hext : forall (o : string) bs,
               Forall (fun b => exists suffix,
                           b_path b = (path ++ [(f, o, th)]) ++ suffix /\
                           (List.length suffix < limit)%nat) bs ->
               Forall (fun b => exists suffix,
                           b_path b = path ++ suffix /\
                           (List.length suffix < S limit)%nat) bs).
    { intros o bs H. eapply Forall_impl; [|exact H].
      intros b (suffix & Hp & Hlen). exists ((f, o, th) :: suffix).
      rewrite Hp, <- app_assoc. split; [reflexivity | simpl; lia]. }
    split.
    + apply Forall_app. split; eapply Hext; eassumption.
    + rewrite map_app. apply FOP_app; [exact Hdl | exact Hdr|].
      intros p q Hp Hq.
      apply in_map_iff in Hp. destruct Hp as (b1 & <- & Hb1).
      apply in_map_iff in Hq. destruct Hq as (b2 & <- & Hb2).
      rewrite Forall_forall in Hpl, Hpr.
      destruct (Hpl b1 Hb1) as (s1 & Hp1 & _).
      destruct (Hpr b2 Hb2) as (s2 & Hp2 & _).
      exists path, f, th, s1, s2.
      rewrite Hp1, Hp2, <- !app_assoc. split; reflexivity.
Qed.

(** X1.  Whenever [get_dt_info] returns, whatever the arrays hold, the
    nodes it has visited form a finite binary tree rooted at node 0 that
    the child arrays unfold to and whose depth is within the recursion
    limit; the split records are those of its internal nodes in
    pre-order, there is one branch per leaf, hence one branch more than
    there are split records, and the fourth result is the sum of the
    sample-count array. *)
Theorem analysis_visits_finite_tree (dt : Tree) (limit : nat)
    (fu : usage_dict) (sp : list Split) (br : list Branch) (total : Z) :
  get_dt_info dt limit = Ret (fu, sp, br, total) ->
  exists T,
    root T = 0 /\ unfolds dt T /\ (depth T <= limit)%nat /\
    map s_idx sp = internal_preorder T /\
    List.length br = List.length (leaves T) /\
    List.length br = S (List.length sp) /\
    total = np_sum_Z (n_node_samples dt).
Proof.
  unfold get_dt_info.
  destruct (walk_tree dt limit 0 [] _) as [[br0 st]|] eqn:Hrun; [|discriminate].
  intros [= <- <- <- <-].
  destruct (walk_tree_returns _ _ _ _ _ _ _ Hrun)
    as (T & sp & Hroot & Hun & Hd & Hsp & Hidx & _ & Hbr).
  simpl in Hsp. exists T. rewrite Hsp.
  repeat split; try assumption.
  rewrite Hbr, leaves_internal, <- Hidx, length_map. reflexivity.
Qed.

Lemma analysis_visits_finite_tree_witness :
  exists fu sp br total,
    get_dt_info tree5 10 = Ret (fu, sp, br, total) /\
    exists T,
      root T = 0 /\ unfolds tree5 T /\ (depth T <= 10)%nat /\
      map s_idx sp = internal_preorder T /\
      List.length br = List.length (leaves T) /\
      List.length br = S (List.length sp) /\
      total = np_sum_Z (n_node_samples tree5).
Proof.
  destruct (get_dt_info tree5 10) as [[[[fu sp] br] total]|] eqn:Hrun.
  - exists fu, sp, br, total. split; [reflexivity|].
    exact (analysis_visits_finite_tree tree5 10 fu sp br total Hrun).
  - vm_compute in Hrun. discriminate Hrun.
Defined.

(** X2.  The rules [get_dt_info] returns are mutually exclusive: of any
    two returned branches, the paths agree up to some test, where the
    earlier branch has [(feature, "<=", threshold)] and the later one
    [(feature, ">", threshold)]; and every path is shorter than the
    recursion limit. *)
Theorem branch_paths_diverge (dt : Tree) (limit : nat)
    (fu : usage_dict) (sp : list Split) (br : list Branch) (total : Z) :
  get_dt_info dt limit = Ret (fu, sp, br, total) ->
  (forall i j bi bj,
      (i < j)%nat ->
      nth_error br i = Some bi -> nth_error br j = Some bj ->
      diverge (b_path bi) (b_path bj)) /\
  (forall b, In b br -> (List.length (b_path b) < limit)%nat).
Proof.
  unfold get_dt_info.
  destruct (walk_tree dt limit 0 [] _) as [[br0 st]|] eqn:Hrun; [|discriminate].
  intros [= <- <- <- <-].
  destruct (walk_tree_paths _ _ _ _ _ _ _ Hrun) as (Hpre & Hdiv). split.
  - intros i j bi bj Hij Hi Hj.
    apply (FOP_nth _ _ Hdiv i j); [exact Hij| |];
      rewrite nth_error_map; [rewrite Hi | rewrite Hj]; reflexivity.
  - intros b Hb. rewrite Forall_forall in Hpre.
    destruct (Hpre b Hb) as (suffix & -> & Hlen). exact Hlen.
Qed.

Lemma branch_paths_diverge_witness :
  exists fu sp br total,
    get_dt_info tree5 10 = Ret (fu, sp, br, total) /\
    (forall i j bi bj,
        (i < j)%nat ->
        nth_error br i = Some bi -> nth_error br j = Some bj ->
        diverge (b_path bi) (b_path bj)) /\
    (forall b, In b br -> (List.length (b_path b) < 10)%nat).
Proof.
  destruct (get_dt_info tree5 10) as [[[[fu sp] br] total]|] eqn:Hrun.
  - exists fu, sp, br, total. split; [reflexivity|].
    exact (branch_paths_diverge tree5 10 fu sp br total Hrun).
  - vm_compute in Hrun. discriminate Hrun.
Defined.


(** ** Trees deeper than the recursion limit *)

Lemma walk_tree_too_deep (dt : Tree) (T : shape) :
  arrays_aligned dt ->
  forall limit path st,
    conforms dt T ->
    (limit < depth T)%nat ->
    walk_tree dt limit (root T) path st = Raise RecursionError.
Proof.
  intros Hal.
  induction T as [n | n l IHl r IHr]; intros limit path st Hc Hd.
  - simpl in Hd. destruct limit; [reflexivity | lia].
  - destruct limit as [|limit]; [reflexivity|]. simpl in Hd.
    destruct Hc as (Hn & Hne & Hl & Hr & _ & _ & Hcl & Hcr).
    pose proof (node_ok_root dt l Hcl) as Hnl.
    pose proof (node_ok_root dt r Hcr) as Hnr.
    simpl. unfold wbind, wlift, wret, wmodify.
    rewrite (get_left dt Hal n Hn), (get_right dt Hal n Hn).
    destruct (left_of dt n =? right_of dt n) eqn:Heq;
      [apply Z.eqb_eq in Heq; contradiction|].
    rewrite (get_feature dt Hal n Hn), (get_threshold dt Hal n Hn),
      (get_samples dt Hal n Hn).
    assert (Hsp := split_record_ok dt Hal n Hn).
    rewrite Hl, Hr in Hsp. specialize (Hsp Hnl Hnr).
    rewrite Hl, Hr, Hsp.
    destruct (Nat.le_gt_cases (depth l) limit) as [Hfit | Hdeep].
    + rewrite (walk_tree_conforms dt Hal l limit _ _ Hcl Hfit).
      rewrite (IHr limit _ _ Hcr) by lia. reflexivity.
    + rewrite (IHl limit _ _ Hcl Hdeep). reflexivity.
Qed.

(** X3.  On a well-formed tree whose depth exceeds the recursion limit,
    [get_dt_info] raises [RecursionError]. *)
Theorem deep_tree_raises (dt : Tree) (T : shape) (limit : nat) :
  well_formed dt T ->
  (limit < depth T)%nat ->
  get_dt_info dt limit = Raise RecursionError.
Proof.
  intros (Hal & Hroot & _ & Hc) Hd. unfold get_dt_info.
  rewrite <- Hroot, (walk_tree_too_deep dt T Hal limit _ _ Hc Hd). reflexivity.
Qed.

Lemma deep_tree_raises_witness :
  well_formed tree5 shape5 /\ (2 < depth shape5)%nat /\
  get_dt_info tree5 2 = Raise RecursionError.
Proof.
  split; [exact tree5_well_formed|]. split; [simpl; lia|].
  apply (deep_tree_raises tree5 shape5 2 tree5_well_formed). simpl; lia.
Defined.

(** ** Keys and totals of the usage dictionary *)

Lemma usage_keys_modify (k : Z) (g : usage -> usage) (d : usage_dict) :
  usage_keys (dict_modify k g d) = usage_keys d.
Proof.
  unfold usage_keys. induction d as [|[k0 v0] d IH]; simpl; [reflexivity|].
  destruct (k =? k0); simpl; [reflexivity | rewrite IH; reflexivity].
Qed.

Lemma usage_keys_setdefault (k : Z) (v : usage) (d : usage_dict) :
  usage_keys (dict_setdefault k v d) =
  if existsb (Z.eqb k) (usage_keys d) then usage_keys d else usage_keys d ++ [k].
Proof.
  unfold usage_keys. induction d as [|[k0 v0] d IH]; simpl; [reflexivity|].
  destruct (k =? k0); simpl; [reflexivity|].
  rewrite IH. destruct (existsb _ _); reflexivity.
Qed.

Lemma usage_keys_record (f s : Z) (d : usage_dict) :
  usage_keys (record_usage f s d) =
  if existsb (Z.eqb f) (usage_keys d) then usage_keys d else usage_keys d ++ [f].
Proof.
  unfold record_usage. rewrite !usage_keys_modify. apply usage_keys_setdefault.
Qed.

Lemma filter_absent_present (ks l : list Z) (f : Z) :
  existsb (Z.eqb f) ks = true ->
  filter (fun y => negb (existsb (Z.eqb y) ks)) (filter (fun y => negb (y =? f)) l)
  = filter (fun y => negb (existsb (Z.eqb y) ks)) l.
Proof.
  intros Hf. induction l as [|y l IH]; simpl; [reflexivity|].
  destruct (y =? f) eqn:Hy; simpl.
  - apply Z.eqb_eq in Hy. subst y. rewrite Hf. simpl. exact IH.
  - destruct (existsb (Z.eqb y) ks); simpl; rewrite IH; reflexivity.
Qed.

Lemma filter_absent_snoc (ks l : list Z) (f : Z) :
  filter (fun y => negb (existsb (Z.eqb y) (ks ++ [f]))) l
  = filter (fun y => negb (existsb (Z.eqb y) ks)) (filter (fun y => negb (y =? f)) l).
Proof.
  induction l as [|y l IH]; simpl; [reflexivity|].
  rewrite existsb_app. simpl. rewrite orb_false_r.
  destruct (y =? f) eqn:Hy; simpl.
  - rewrite orb_true_r. simpl. exact IH.
  - rewrite orb_false_r.
    destruct (existsb (Z.eqb y) ks); simpl; rewrite IH; reflexivity.
Qed.

Lemma usage_keys_fold (sp : list Split) :
  forall d,
    usage_keys (usage_from_splits sp d) =
    usage_keys d ++
    filter (fun y => negb (existsb (Z.eqb y) (usage_keys d)))
           (first_occurrences (map s_feature sp)).
Proof.
  induction sp as [|s sp IH]; intros d.
  - simpl. rewrite app_nil_r. reflexivity.
  - unfold usage_from_splits in *. simpl fold_left. rewrite IH.
    rewrite usage_keys_record. simpl map. simpl first_occurrences. simpl filter.
    destruct (existsb (Z.eqb (s_feature s)) (usage_keys d)) eqn:Hmem; simpl.
    + rewrite filter_absent_present by exact Hmem. reflexivity.
    + rewrite <- app_assoc. simpl. rewrite filter_absent_snoc. reflexivity.
Qed.

Lemma first_occurrences_In (l : list Z) (x : Z) :
  In x (first_occurrences l) <-> In x l.
Proof.
  induction l as [|y l IH]; simpl; [reflexivity|].
  rewrite filter_In, IH, negb_true_iff, Z.eqb_neq.
  destruct (Z.eq_dec y x); intuition.
Qed.

Lemma first_occurrences_NoDup (l : list Z) : NoDup (first_occurrences l).
Proof.
  induction l as [|y l IH]; simpl; constructor.
  - rewrite filter_In, negb_true_iff, Z.eqb_neq. intros (_ & H). apply H. reflexivity.
  - apply NoDup_filter. exact IH.
Qed.

Lemma sums_modify (k : Z) (g : usage -> usage) (d : usage_dict) (v : usage) :
  dict_get k d = Some v ->
  count_sum (dict_modify k g d) = count_sum d + (u_count (g v) - u_count v) /\
  samples_sum (dict_modify k g d) = samples_sum d + (u_samples (g v) - u_samples v).
Proof.
  unfold count_sum, samples_sum, np_sum_Z.
  induction d as [|[k0 v0] d IH]; simpl; [discriminate|].
  destruct (k =? k0); simpl.
  - intros [= ->]. split; lia.
  - intros Hget. destruct (IH Hget) as (H1 & H2). rewrite H1, H2. split; lia.
Qed.

Lemma sums_setdefault (k : Z) (d : usage_dict) :
  count_sum (dict_setdefault k {| u_count := 0; u_samples := 0 |} d) = count_sum d /\
  samples_sum (dict_setdefault k {| u_count := 0; u_samples := 0 |} d) = samples_sum d.
Proof.
  unfold count_sum, samples_sum, np_sum_Z.
  induction d as [|[k0 v0] d IH]; simpl; [split; reflexivity|].
  destruct (k =? k0); simpl; [split; reflexivity|].
  destruct IH as (H1 & H2). rewrite H1, H2. split; reflexivity.
Qed.

Lemma sums_record (f s : Z) (d : usage_dict) :
  count_sum (record_usage f s d) = count_sum d + 1 /\
  samples_sum (record_usage f s d) = samples_sum d + s.
Proof.
  unfold record_usage.
  set (d1 := dict_setdefault f {| u_count := 0; u_samples := 0 |} d).
  set (g1 := fun u => {| u_count := u_count u + 1; u_samples := u_samples u |}).
  set (g2 := fun u => {| u_count := u_count u; u_samples := u_samples u + s |}).
  destruct (sums_setdefault f d) as (Hc0 & Hs0). fold d1 in Hc0, Hs0.
  assert (Hget1 : exists v, dict_get f d1 = Some v).
  { unfold d1. rewrite dict_get_setdefault, Z.eqb_refl.
    destruct (dict_get f d); eexists; reflexivity. }
  destruct Hget1 as (v & Hv).
  destruct (sums_modify f g1 d1 v Hv) as (Hc1 & Hs1).
  assert (Hv2 : dict_get f (dict_modify f g1 d1) = Some (g1 v))
    by (rewrite dict_get_modify, Z.eqb_refl, Hv; reflexivity).
  destruct (sums_modify f g2 _ _ Hv2) as (Hc2 & Hs2).
  rewrite Hc2, Hs2, Hc1, Hs1, Hc0, Hs0. unfold g1, g2. simpl. split; lia.
Qed.

Lemma sums_fold (sp : list Split) :
  forall d,
    count_sum (usage_from_splits sp d) = count_sum d + Z.of_nat (List.length sp) /\
    samples_sum (usage_from_splits sp d)
    = samples_sum d + np_sum_Z (map s_samples sp).
Proof.
  induction sp as [|s sp IH]; intros d.
  - simpl. split; lia.
  - unfold usage_from_splits in *. simpl fold_left.
    destruct (IH (record_usage (s_feature s) (s_samples s) d)) as (H1 & H2).
    destruct (sums_record (s_feature s) (s_samples s) d) as (H3 & H4).
    rewrite H1, H2, H3, H4.
    change (List.length (s :: sp)) with (S (List.length sp)).
    change (np_sum_Z (map s_samples (s :: sp)))
      with (s_samples s + np_sum_Z (map s_samples sp)).
    split; lia.
Qed.

Lemma get_dt_info_usage (dt : Tree) (limit : nat)
    (fu : usage_dict) (sp : list Split) (br : list Branch) (total : Z) :
  get_dt_info dt limit = Ret (fu, sp, br, total) ->
  fu = usage_from_splits sp [].
Proof.
  unfold get_dt_info.
  destruct (walk_tree dt limit 0 [] _) as [[br0 st]|] eqn:Hrun; [|discriminate].
  intros [= <- <- <- <-].
  destruct (walk_tree_returns _ _ _ _ _ _ _ Hrun)
    as (T & sp & _ & _ & _ & Hsp & _ & Hfu & _).
  simpl in Hsp, Hfu. rewrite Hsp. exact Hfu.
Qed.

(** X4.  Whenever [get_dt_info] returns, the keys of [features_used]
    are pairwise distinct and are the features of the split records in
    order of first occurrence; so a feature is a key exactly when some
    split record tests it. *)
Theorem usage_keys_first_occurrences (dt : Tree) (limit : nat)
    (fu : usage_dict) (sp : list Split) (br : list Branch) (total : Z) :
  get_dt_info dt limit = Ret (fu, sp, br, total) ->
  usage_keys fu = first_occurrences (map s_feature sp) /\
  NoDup (usage_keys fu) /\
  (forall f, In f (usage_keys fu) <-> exists s, In s sp /\ s_feature s = f).
Proof.
  intros Hrun. rewrite (get_dt_info_usage _ _ _ _ _ _ Hrun).
  assert (Hkeys : usage_keys (usage_from_splits sp [])
                  = first_occurrences (map s_feature sp)).
  { rewrite usage_keys_fold. simpl.
    erewrite filter_ext; [apply filter_true | reflexivity]. }
  rewrite Hkeys. split; [reflexivity|]. split; [apply first_occurrences_NoDup|].
  intros f. rewrite first_occurrences_In, in_map_iff.
  split; intros (s & H1 & H2); exists s; split; assumption.
Qed.

Lemma usage_keys_first_occurrences_witness :
  exists fu sp br total,
    get_dt_info tree5 10 = Ret (fu, sp, br, total) /\
    usage_keys fu = first_occurrences (map s_feature sp) /\
    NoDup (usage_keys fu) /\
    (forall f, In f (usage_keys fu) <-> exists s, In s sp /\ s_feature s = f).
Proof.
  destruct (get_dt_info tree5 10) as [[[[fu sp] br] total]|] eqn:Hrun.
  - exists fu, sp, br, total. split; [reflexivity|].
    exact (usage_keys_first_occurrences tree5 10 fu sp br total Hrun).
  - vm_compute in Hrun. discriminate Hrun.
Defined.

Lemma usage_from_splits_get (f : Z) (sp : list Split) :
  forall d,
    dict_get f (usage_from_splits sp d) =
    match splits_on sp f with
    | [] => dict_get f d
    | ss =>
        Some {| u_count := match dict_get f d with Some u => u_count u | None => 0 end
                           + Z.of_nat (List.length ss);
                u_samples := match dict_get f d with Some u => u_samples u | None => 0 end
                             + np_sum_Z (map s_samples ss) |}
    end.
Proof.
  induction sp as [|s sp IH]; intros d; [reflexivity|].
  unfold usage_from_splits, splits_on in *. simpl fold_left. rewrite IH.
  rewrite !dict_get_record_usage. simpl filter.
  rewrite (Z.eqb_sym f (s_feature s)).
  destruct (s_feature s =? f) eqn:Hf; [|reflexivity].
  apply Z.eqb_eq in Hf. rewrite Hf.
  destruct (filter (fun s0 => s_feature s0 =? f) sp) as [|m ss] eqn:Hss.
  - simpl. f_equal. f_equal; lia.
  - cbn [u_count u_samples]. f_equal.
    change (List.length (s :: m :: ss)) with (S (List.length (m :: ss))).
    change (np_sum_Z (map s_samples (s :: m :: ss)))
      with (s_samples s + np_sum_Z (map s_samples (m :: ss))).
    f_equal; lia.
Qed.

(** X5.  Whenever [get_dt_info] returns, the entry of a feature in
    [features_used] holds the number of split records that test it and
    the sum of their samples, and a feature no record tests has no entry;
    so the split counts add up to the number of split records and the
    cumulative samples to the samples of all split records. *)
Theorem usage_totals (dt : Tree) (limit : nat)
    (fu : usage_dict) (sp : list Split) (br : list Branch) (total : Z) :
  get_dt_info dt limit = Ret (fu, sp, br, total) ->
  (forall f,
      dict_get f fu =
      match splits_on sp f with
      | [] => None
      | ss => Some {| u_count := Z.of_nat (List.length ss);
                      u_samples := np_sum_Z (map s_samples ss) |}
      end) /\
  count_sum fu = Z.of_nat (List.length sp) /\
  samples_sum fu = np_sum_Z (map s_samples sp).
Proof.
  intros Hrun. rewrite (get_dt_info_usage _ _ _ _ _ _ Hrun). split.
  - intros f. rewrite usage_from_splits_get. simpl.
    destruct (splits_on sp f); reflexivity.
  - destruct (sums_fold sp []) as (H1 & H2). rewrite H1, H2.
    unfold count_sum, samples_sum. simpl. split; lia.
Qed.

Lemma usage_totals_witness :
  exists fu sp br total,
    get_dt_info tree5 10 = Ret (fu, sp, br, total) /\
    (forall f,
        dict_get f fu =
        match splits_on sp f with
        | [] => None
        | ss => Some {| u_count := Z.of_nat (List.length ss);
                        u_samples := np_sum_Z (map s_samples ss) |}
        end) /\
    count_sum fu = Z.of_nat (List.length sp) /\
    samples_sum fu = np_sum_Z (map s_samples sp).
Proof.
  destruct (get_dt_info tree5 10) as [[[[fu sp] br] total]|] eqn:Hrun.
  - exists fu, sp, br, total. split; [reflexivity|].
    exact (usage_totals tree5 10 fu sp br total Hrun).
  - vm_compute in Hrun. discriminate Hrun.
Defined.


(** ** Sums over the nodes of a tree *)

Lemma nodes_sum_split (g : Z -> Z) (T : shape) :
  np_sum_Z (map g (nodes T))
  = np_sum_Z (map g (internal_preorder T)) + np_sum_Z (map g (leaves T)).
Proof.
  induction T as [n | n l IHl r IHr]; simpl; [lia|].
  rewrite !map_app, !np_sum_Z_app, IHl, IHr. lia.
Qed.

(** ** The probability of a branch *)

Lemma np_sum_nonneg (v : list Q) :
  Forall (fun q => (0 <= q)%Q) v -> (0 <= np_sum v)%Q.
Proof.
  induction 1 as [|x v Hx _ IH]; simpl; [apply Qle_refl|].
  rewrite <- (Qplus_0_r 0%Q). apply Qplus_le_compat; assumption.
Qed.

Lemma nth_le_np_sum (v : list Q) :
  Forall (fun q => (0 <= q)%Q) v ->
  forall j, (j < List.length v)%nat -> (nth j v 0 <= np_sum v)%Q.
Proof.
  induction 1 as [|x v Hx Hv IH]; intros j Hj; simpl in *; [lia|].
  destruct j as [|j].
  - rewrite <- (Qplus_0_r x) at 1.
    apply Qplus_le_compat; [apply Qle_refl | apply np_sum_nonneg; exact Hv].
  - rewrite <- (Qplus_0_l (nth j v 0%Q)).
    apply Qplus_le_compat; [exact Hx | apply IH; lia].
Qed.

Lemma np_sum_nonpos (v : list Q) :
  (forall j, (j < List.length v)%nat -> (nth j v 0 <= 0)%Q) ->
  (np_sum v <= 0)%Q.
Proof.
  induction v as [|x v IH]; intros H; simpl; [apply Qle_refl|].
  rewrite <- (Qplus_0_r 0%Q). apply Qplus_le_compat.
  - apply (H 0%nat). simpl. lia.
  - apply IH. intros j Hj. apply (H (S j)). simpl. lia.
Qed.

Lemma branch_at_prob_bounds (dt : Tree) (path : list predicate) (n : Z) :
  node_ok dt n -> counts_nonneg dt n ->
  (0 < b_prob (branch_at dt path n))%Q /\ (b_prob (branch_at dt path n) <= 100)%Q.
Proof.
  intros (_ & _ & Hne & Hpos & Hsum) Hnn.
  cbn [b_prob branch_at].
  set (v := class_vector dt n) in *.
  destruct (argmax_is_argmax v Hne) as (Hrange & Hmax & _).
  set (c := Z.to_nat (argmax v)) in *.
  assert (Hc : (c < List.length v)%nat) by (unfold c; lia).
  assert (HS : (0 < np_sum v)%Q).
  { assert (Hq : (inject_Z (samples_at dt n) == np_sum v)%Q) by exact Hsum.
    rewrite <- Hq. change 0%Q with (inject_Z 0). rewrite <- Zlt_Qlt. exact Hpos. }
  assert (Htop : (0 < nth c v 0)%Q).
  { apply Qnot_le_lt. intros Hle.
    apply (Qlt_not_le _ _ HS). apply np_sum_nonpos.
    intros j Hj. eapply Qle_trans; [apply Hmax; exact Hj | exact Hle]. }
  split.
  - apply Qmult_lt_0_compat; [|reflexivity].
    apply Qlt_shift_div_l; [exact HS|]. rewrite Qmult_0_l. exact Htop.
  - setoid_replace (100 : Q) with (1 * 100)%Q at 2 by ring.
    apply Qmult_le_compat_r; [|discriminate].
    apply Qle_shift_div_r; [exact HS|]. rewrite Qmult_1_l.
    apply nth_le_np_sum; assumption.
Qed.

(** X7.  On a well-formed tree whose leaves hold no negative class
    count, the probability of every returned branch lies in (0, 100]. *)
Theorem branch_probability_bounds (dt : Tree) (T : shape) (limit : nat) :
  well_formed dt T ->
  (forall n, In n (leaves T) -> counts_nonneg dt n) ->
  (depth T <= limit)%nat ->
  exists fu sp br total_samples,
    get_dt_info dt limit = Ret (fu, sp, br, total_samples) /\
    forall b, In b br -> (0 < b_prob b)%Q /\ (b_prob b <= 100)%Q.
Proof.
  intros Hwf Hnn Hd.
  pose proof (get_dt_info_well_formed dt T limit Hwf Hd) as Hrun.
  destruct Hwf as (_ & _ & _ & Hc).
  do 4 eexists. split; [exact Hrun|].
  intros b Hb. apply in_map_iff in Hb. destruct Hb as ([rt lf] & <- & Hin).
  assert (Hleaf : In lf (leaves T)).
  { rewrite <- routes_leaves. apply (in_map snd) in Hin. exact Hin. }
  apply branch_at_prob_bounds.
  - exact (conforms_leaves_ok dt T Hc lf Hleaf).
  - exact (Hnn lf Hleaf).
Qed.

Lemma branch_probability_bounds_witness :
  well_formed tree5 shape5 /\
  (forall n, In n (leaves shape5) -> counts_nonneg tree5 n) /\
  (depth shape5 <= 10)%nat /\
  exists fu sp br total_samples,
    get_dt_info tree5 10 = Ret (fu, sp, br, total_samples) /\
    forall b, In b br -> (0 < b_prob b)%Q /\ (b_prob b <= 100)%Q.
Proof.
  assert (Hnn : forall n, In n (leaves shape5) -> counts_nonneg tree5 n).
  { intros n [<- | [<- | [<- | []]]]; unfold counts_nonneg; cbn;
      repeat constructor; discriminate. }
  split; [exact tree5_well_formed|]. split; [exact Hnn|]. split; [simpl; lia|].
  apply (branch_probability_bounds tree5 shape5 10 tree5_well_formed Hnn).
  simpl; lia.
Defined.

(** ** The masses of a split record *)

Lemma root_in_nodes (T : shape) : In (root T) (nodes T).
Proof. destruct T; simpl; left; reflexivity. Qed.

Lemma internal_children (dt : Tree) (T : shape) :
  conforms dt T ->
  forall n, In n (internal_preorder T) ->
    node_ok dt (left_of dt n) /\ node_ok dt (right_of dt n) /\
    In (left_of dt n) (nodes T) /\ In (right_of dt n) (nodes T) /\
    samples_at dt n = samples_at dt (left_of dt n) + samples_at dt (right_of dt n) /\
    List.length (class_vector dt (left_of dt n))
    = List.length (class_vector dt (right_of dt n)) /\
    Forall2 Qeq (class_vector dt n)
            (vec_add (class_vector dt (left_of dt n)) (class_vector dt (right_of dt n))).
Proof.
  induction T as [m | m l IHl r IHr]; intros Hc n Hin; [destruct Hin|].
  pose proof (children_samples dt m l r Hc) as Hs.
  destruct Hc as (Hm & Hne & Hl & Hr & Hlen & Hvec & Hcl & Hcr).
  simpl in Hin. destruct Hin as [<- | Hin].
  - rewrite Hl, Hr.
    split; [apply node_ok_root; exact Hcl|].
    split; [apply node_ok_root; exact Hcr|].
    split; [simpl; right; apply in_or_app; left; apply root_in_nodes|].
    split; [simpl; right; apply in_or_app; right; apply root_in_nodes|].
    split; [exact Hs|]. split; [exact Hlen | exact Hvec].
  - apply in_app_or in Hin. simpl.
    destruct Hin as [Hin | Hin];
      [destruct (IHl Hcl n Hin) as (H1 & H2 & H3 & H4 & H5)
      |destruct (IHr Hcr n Hin) as (H1 & H2 & H3 & H4 & H5)];
      (split; [exact H1|]; split; [exact H2|];
       split; [right; apply in_or_app; auto|];
       split; [right; apply in_or_app; auto|]; exact H5).
Qed.

Lemma np_sum2_single (dt : Tree) (n : Z) :
  single_output dt n -> (np_sum2 (value_at dt n) == np_sum (class_vector dt n))%Q.
Proof.
  unfold single_output, class_vector, np_sum2.
  destruct (value_at dt n) as [|row [|row' rest]]; simpl; try discriminate.
  intros _. apply Qplus_0_r.
Qed.

(** X8.  On a well-formed tree every split record splits its node's
    mass: the per-class pairs of [data_split_by_class] add up, class by
    class, to the node's class vector (the first row of [values]), there
    is one pair per class, and when every node has a single output the
    two components of [data_split] add up to the node's sample count. *)
Theorem split_masses_add_up (dt : Tree) (T : shape) (limit : nat) :
  well_formed dt T ->
  (depth T <= limit)%nat ->
  exists fu sp br total_samples,
    get_dt_info dt limit = Ret (fu, sp, br, total_samples) /\
    forall s, In s sp ->
      Forall2 Qeq (nth 0 (s_values s) [])
              (map (fun p => (fst p + snd p)%Q) (s_data_split_by_class s)) /\
      List.length (s_data_split_by_class s) = List.length (nth 0 (s_values s) []) /\
      ((forall n, In n (nodes T) -> single_output dt n) ->
       (fst (s_data_split s) + snd (s_data_split s) == inject_Z (s_samples s))%Q).
Proof.
  intros Hwf Hd.
  pose proof (get_dt_info_well_formed dt T limit Hwf Hd) as Hrun.
  destruct Hwf as (_ & _ & _ & Hc).
  do 4 eexists. split; [exact Hrun|].
  intros s Hs. apply in_map_iff in Hs. destruct Hs as (n & <- & Hin).
  destruct (internal_children dt T Hc n Hin)
    as (Hnl & Hnr & Hil & Hir & Hsum & Hlen & Hvec).
  cbn [s_values s_data_split_by_class s_data_split s_samples split_at fst snd].
  fold (class_vector dt n). split; [exact Hvec|]. split.
  - apply Forall2_length in Hvec. rewrite Hvec.
    unfold vec_add, zip. rewrite length_map. reflexivity.
  - intros Hsingle.
    rewrite (np_sum2_single dt _ (Hsingle _ Hil)),
      (np_sum2_single dt _ (Hsingle _ Hir)).
    destruct Hnl as (_ & _ & _ & _ & Hql). destruct Hnr as (_ & _ & _ & _ & Hqr).
    assert (Hl' : (inject_Z (samples_at dt (left_of dt n))
                   == np_sum (class_vector dt (left_of dt n)))%Q) by exact Hql.
    assert (Hr' : (inject_Z (samples_at dt (right_of dt n))
                   == np_sum (class_vector dt (right_of dt n)))%Q) by exact Hqr.
    rewrite <- Hl', <- Hr', <- inject_Z_plus, Hsum. reflexivity.
Qed.

Lemma split_masses_add_up_witness :
  well_formed tree5 shape5 /\ (depth shape5 <= 10)%nat /\
  exists fu sp br total_samples,
    get_dt_info tree5 10 = Ret (fu, sp, br, total_samples) /\
    forall s, In s sp ->
      Forall2 Qeq (nth 0 (s_values s) [])
              (map (fun p => (fst p + snd p)%Q) (s_data_split_by_class s)) /\
      List.length (s_data_split_by_class s) = List.length (nth 0 (s_values s) []) /\
      ((forall n, In n (nodes shape5) -> single_output tree5 n) ->
       (fst (s_data_split s) + snd (s_data_split s) == inject_Z (s_samples s))%Q).
Proof.
  split; [exact tree5_well_formed|]. split; [simpl; lia|].
  apply (split_masses_add_up tree5 shape5 10 tree5_well_formed). simpl; lia.
Defined.


(* ================================================================= *)
(** * Further properties of the ranking *)

Lemma insert_desc_perm {A} (key : A -> Z) (x : A) (l : list A) :
  Permutation (insert_desc key x l) (x :: l).
Proof.
  induction l as [|y l IH]; simpl; [apply Permutation_refl|].
  destruct (key y <=? key x); [apply Permutation_refl|].
  eapply Permutation_trans; [apply perm_skip; exact IH | apply perm_swap].
Qed.

Lemma sorted_desc_perm {A} (key : A -> Z) (l : list A) :
  Permutation (sorted_desc key l) l.
Proof.
  induction l as [|a l IH]; simpl; [apply Permutation_refl|].
  eapply Permutation_trans; [apply insert_desc_perm | apply perm_skip; exact IH].
Qed.

Lemma insert_desc_sorted {A} (key : A -> Z) (x : A) (l : list A) :
  StronglySorted (fun a b => key b <= key a) l ->
  StronglySorted (fun a b => key b <= key a) (insert_desc key x l).
Proof.
  induction 1 as [|y l Hl IH Hy]; simpl.
  - constructor; constructor.
  - destruct (key y <=? key x) eqn:Hle.
    + apply Z.leb_le in Hle. constructor; [constructor; assumption|].
      constructor; [exact Hle|].
      eapply Forall_impl; [|exact Hy]. simpl. intros b Hb. lia.
    + apply Z.leb_gt in Hle. constructor; [exact IH|].
      apply Forall_forall. intros b Hb. apply insert_desc_In in Hb.
      destruct Hb as [-> | Hb]; [lia|].
      rewrite Forall_forall in Hy. apply Hy, Hb.
Qed.

Lemma sorted_desc_sorted {A} (key : A -> Z) (l : list A) :
  StronglySorted (fun a b => key b <= key a) (sorted_desc key l).
Proof.
  induction l as [|a l IH]; simpl; [constructor|].
  apply insert_desc_sorted. exact IH.
Qed.

Lemma insert_desc_stable {A} (key : A -> Z) (s : Z) (x : A) (l : list A) :
  filter (fun a => key a =? s) (insert_desc key x l)
  = filter (fun a => key a =? s) (x :: l).
Proof.
  induction l as [|y l IH]; simpl; [reflexivity|].
  destruct (key y <=? key x) eqn:Hle; [reflexivity|].
  apply Z.leb_gt in Hle. simpl in *. rewrite IH.
  destruct (key x =? s) eqn:Hx, (key y =? s) eqn:Hy; try reflexivity.
  apply Z.eqb_eq in Hx. apply Z.eqb_eq in Hy. lia.
Qed.

Lemma sorted_desc_stable {A} (key : A -> Z) (s : Z) (l : list A) :
  filter (fun a => key a =? s) (sorted_desc key l)
  = filter (fun a => key a =? s) l.
Proof.
  induction l as [|a l IH]; simpl; [reflexivity|].
  rewrite insert_desc_stable. simpl. rewrite IH. reflexivity.
Qed.

Lemma StronglySorted_app_le {A} (R : A -> A -> Prop) (l1 l2 : list A) :
  StronglySorted R (l1 ++ l2) ->
  forall a b, In a l1 -> In b l2 -> R a b.
Proof.
  induction l1 as [|x l1 IH]; intros Hs a b Ha Hb; [destruct Ha|].
  simpl in Hs. apply StronglySorted_inv in Hs. destruct Hs as (Hs & Hx).
  destruct Ha as [<- | Ha].
  - rewrite Forall_forall in Hx. apply Hx. apply in_or_app. right. exact Hb.
  - apply IH; assumption.
Qed.

(** X9.  [sorted(features.items(), key=samples, reverse=True)[:top_n]]
    is a prefix of a rearrangement of the dictionary's items that is in
    descending order of cumulative samples and keeps items of equal
    samples in dictionary order; so every item left out has at most the
    samples of every item kept.  A non-negative [top_n] keeps
    [min(top_n, len)] items, and a negative one drops the last [-top_n]. *)
Theorem top_features_ranked (top_n : Z) (d : usage_dict) :
  exists rest,
    Permutation (top_features top_n d ++ rest) d /\
    StronglySorted outranks (top_features top_n d ++ rest) /\
    (forall s, filter (fun p => u_samples (snd p) =? s) (top_features top_n d ++ rest)
               = filter (fun p => u_samples (snd p) =? s) d) /\
    (forall a b, In a (top_features top_n d) -> In b rest -> outranks a b) /\
    List.length (top_features top_n d) = slice_length top_n (List.length d).
Proof.
  set (key := fun p : Z * usage => u_samples (snd p)).
  set (k := Z.to_nat (if 0 <=? top_n then top_n
                      else Z.of_nat (List.length (sorted_desc key d)) + top_n)).
  assert (Htop : top_features top_n d = firstn k (sorted_desc key d)).
  { unfold top_features, slice_to, k. fold key. destruct (0 <=? top_n); reflexivity. }
  assert (Hlen : List.length (sorted_desc key d) = List.length d)
    by (apply Permutation_length, sorted_desc_perm).
  exists (skipn k (sorted_desc key d)).
  rewrite Htop, firstn_skipn.
  split; [apply sorted_desc_perm|].
  split; [apply sorted_desc_sorted|].
  split; [intros s; apply sorted_desc_stable|].
  split.
  - apply (StronglySorted_app_le outranks).
    rewrite firstn_skipn. apply sorted_desc_sorted.
  - rewrite length_firstn. unfold slice_length, k. rewrite Hlen. reflexivity.
Qed.


(* ================================================================= *)
(** * Further properties of [trust_report] *)

(** ** Runs that end before the first round *)

Lemma first_selection_top_n_0 `{E : Externals} (y_train y_test : list Z)
    (logger : bool) (limit : nat) (Xtr Xte : matrix) :
  exists e, first_selection y_train y_test 0 logger limit Xtr Xte = Raise e.
Proof.
  unfold first_selection.
  destruct (_ =? _)%nat; [eexists; reflexivity|]. cbn [obind].
  destruct (fit_and_explain logger 0 Xtr y_train Xte y_test)
    as [[[dt yp] dyp]|e]; [|eexists; reflexivity]. cbn [obind].
  destruct (len_first_row Xtr); [|eexists; reflexivity]. cbn [obind].
  destruct (get_dt_info dt limit) as [[[[fu sp] br] total]|e];
    [|eexists; reflexivity]. cbn [obind].
  destruct (getitem (n_node_samples dt) 0); [|eexists; reflexivity]. cbn [obind].
  destruct (getitem (value dt) 0) as [v|]; [|eexists; reflexivity]. cbn [obind].
  destruct (getitem v 0); [|eexists; reflexivity]. cbn [obind].
  destruct (getitem (n_classes dt) 0); [|eexists; reflexivity]. cbn [obind].
  assert (Hsel : first_feature (top_features 0 fu) = Raise IndexError).
  { change (top_features 0 fu) with (@nil (Z * usage)).
    unfold first_feature. rewrite getitem_empty. reflexivity. }
  rewrite Hsel. eexists. reflexivity.
Qed.

(** X10.  With [top_n = 0] the ranking is cut to an empty list, so
    [trust_report] always ends with an exception before the first round
    and leaves the caller's arrays as they were. *)
Theorem top_n_zero_always_raises `{E : Externals} (y_train y_test : list Z)
    (max_iter : Z) (logger : bool) (limit : nat) (Xtr Xte : matrix) :
  exists e,
    trust_report y_train y_test max_iter 0 logger limit Xtr Xte
    = Some (entry_frame Xtr Xte, Raised e) /\
    X_train (entry_frame Xtr Xte) = Xtr /\
    X_test (entry_frame Xtr Xte) = Xte /\
    whitebox_iter (entry_frame Xtr Xte) = [].
Proof.
  destruct (first_selection_top_n_0 y_train y_test logger limit Xtr Xte) as (e & He).
  exists e. unfold trust_report. rewrite He. repeat split.
Qed.

(** X11.  Without a logger [trust_report] never reaches the loop: on an
    empty dataset it raises [ZeroDivisionError] when it computes the train
    fraction, otherwise the first [fit_and_explain] raises
    [AttributeError] at its direct call of [logger.log]; the caller's
    arrays are left as they were. *)
Theorem no_logger_always_raises `{E : Externals} (y_train y_test : list Z)
    (max_iter top_n : Z) (limit : nat) (Xtr Xte : matrix) :
  trust_report y_train y_test max_iter top_n false limit Xtr Xte
  = Some (entry_frame Xtr Xte,
          Raised (if (List.length (rows Xtr) + List.length (rows Xte) =? 0)%nat
                  then ZeroDivisionError else AttributeError)) /\
  X_train (entry_frame Xtr Xte) = Xtr /\
  X_test (entry_frame Xtr Xte) = Xte.
Proof.
  unfold trust_report, first_selection, fit_and_explain.
  destruct (_ =? _)%nat; repeat split.
Qed.

(** X12.  With [max_iter <= 0] no round runs: however the run ends, no
    record has been appended and the caller's arrays are as they were. *)
Theorem no_round_without_budget `{E : Externals} (y_train y_test : list Z)
    (max_iter top_n : Z) (logger : bool) (limit : nat) (Xtr Xte : matrix) :
  max_iter <= 0 ->
  exists fr c,
    trust_report y_train y_test max_iter top_n logger limit Xtr Xte
    = Some (fr, c) /\
    whitebox_iter fr = [] /\ X_train fr = Xtr /\ X_test fr = Xte /\
    n_features_removed fr = 0.
Proof.
  intros Hmax. unfold trust_report.
  destruct (first_selection y_train y_test top_n logger limit Xtr Xte)
    as [[F f]|e].
  - replace (Z.to_nat max_iter) with 0%nat by lia.
    unfold ablation_loop, loop_guard. cbn [it].
    replace (0 <? max_iter) with false by (symmetry; apply Z.ltb_ge; lia).
    simpl. do 2 eexists. repeat split.
  - do 2 eexists. repeat split.
Qed.

Lemma no_round_without_budget_witness :
  0 <= 0 /\
  exists fr c,
    trust_report (E := RR) y2 y1 0 10 true 100 X4c_train X4c_test
    = Some (fr, c) /\
    whitebox_iter fr = [] /\ X_train fr = X4c_train /\ X_test fr = X4c_test /\
    n_features_removed fr = 0.
Proof.
  split; [lia|].
  apply (no_round_without_budget (E := RR) y2 y1 0 10 true 100 X4c_train X4c_test).
  lia.
Defined.

(** ** Shapes and cells of the caller's arrays *)

Lemma zero_column_shape (X X' : matrix) (f : Z) :
  zero_column X f = Ret X' ->
  map (@List.length Q) (rows X') = map (@List.length Q) (rows X).
Proof.
  unfold zero_column. destruct (_ && _); [|discriminate].
  intros [= <-]. simpl. rewrite map_map.
  apply map_ext. intros r. apply set_nth_length.
Qed.

Lemma zero_columns_shape (fs : list Z) (X : matrix) :
  map (@List.length Q) (rows (zero_columns fs X)) = map (@List.length Q) (rows X).
Proof.
  revert X. induction fs as [|f fs IH]; intros X; simpl; [reflexivity|].
  rewrite IH. destruct (zero_column X f) eqn:Hz; [|reflexivity].
  eapply zero_column_shape. exact Hz.
Qed.

(** X13.  Ablation never changes the shape of the caller's arrays:
    however [trust_report] ends, both arrays have the number of columns,
    the number of rows and the row lengths they were passed with. *)
Theorem ablation_keeps_shape `{E : Externals} (y_train y_test : list Z)
    (max_iter top_n : Z) (logger : bool) (limit : nat) (Xtr Xte : matrix) :
  exists fr c,
    trust_report y_train y_test max_iter top_n logger limit Xtr Xte
    = Some (fr, c) /\
    n_columns (X_train fr) = n_columns Xtr /\
    n_columns (X_test fr) = n_columns Xte /\
    map (@List.length Q) (rows (X_train fr)) = map (@List.length Q) (rows Xtr) /\
    map (@List.length Q) (rows (X_test fr)) = map (@List.length Q) (rows Xte).
Proof.
  destruct (trust_report y_train y_test max_iter top_n logger limit Xtr Xte)
    as [[fr c]|] eqn:Hrun.
  - exists fr, c. split; [reflexivity|].
    destruct (caller_arrays_at_exit _ _ _ _ _ _ _ _ _ _ Hrun)
      as ((ex1 & ->) & (ex2 & ->) & _).
    rewrite !zero_columns_columns, !zero_columns_shape. repeat split.
  - exfalso. exact (run_total _ _ _ _ _ _ _ _ Hrun).
Qed.

Lemma set_nth_cell (i j : nat) (r : list Q) :
  nth j (set_nth i 0%Q r) 0%Q = if (i =? j)%nat then 0%Q else nth j r 0%Q.
Proof.
  revert i j. induction r as [|a r IH]; intros i j.
  - destruct i, j; simpl; try reflexivity; destruct (_ =? _)%nat; reflexivity.
  - destruct i as [|i], j as [|j]; simpl; try reflexivity. apply IH.
Qed.

Lemma zero_column_cell (X X' : matrix) (f : Z) (i j : nat) :
  zero_column X f = Ret X' ->
  cell X' i j = if (column_of X f =? j)%nat then 0%Q else cell X i j.
Proof.
  unfold zero_column, cell, column_of. destruct (_ && _); [|discriminate].
  intros [= <-]. simpl.
  set (c := Z.to_nat (if f <? 0 then f + n_columns X else f)).
  assert (Hnil : set_nth c 0%Q [] = []) by (destruct c; reflexivity).
  rewrite <- Hnil at 1. rewrite map_nth. apply set_nth_cell.
Qed.

Lemma zero_column_in_range (X : matrix) (f : Z) :
  column_in_range X f = true -> exists X', zero_column X f = Ret X'.
Proof.
  unfold column_in_range, zero_column. intros ->. eexists. reflexivity.
Qed.

Lemma zero_column_ret_in_range (X X' : matrix) (f : Z) :
  zero_column X f = Ret X' -> column_in_range X f = true.
Proof.
  unfold column_in_range, zero_column. destruct (_ && _); [reflexivity|discriminate].
Qed.

Lemma zero_columns_cell (fs : list Z) :
  forall X i j,
    Forall (fun f => column_in_range X f = true) fs ->
    cell (zero_columns fs X) i j
    = if existsb (fun f => (column_of X f =? j)%nat) fs then 0%Q else cell X i j.
Proof.
  induction fs as [|f fs IH]; intros X i j Hr; [reflexivity|].
  inversion Hr as [|? ? Hf Hfs]; subst.
  destruct (zero_column_in_range X f Hf) as (X' & Hz).
  simpl zero_columns. rewrite Hz.
  pose proof (zero_column_columns _ _ _ Hz) as Hcols.
  rewrite IH.
  - rewrite (zero_column_cell _ _ _ _ _ Hz). simpl existsb.
    assert (Hsame : existsb (fun f0 => (column_of X' f0 =? j)%nat) fs
                    = existsb (fun f0 => (column_of X f0 =? j)%nat) fs).
    { unfold column_of. rewrite Hcols. reflexivity. }
    rewrite Hsame.
    destruct (existsb (fun f0 => (column_of X f0 =? j)%nat) fs),
      (column_of X f =? j)%nat; reflexivity.
  - eapply Forall_impl; [|exact Hfs]. unfold column_in_range.
    rewrite Hcols. auto.
Qed.

Lemma recorded_in_range `{E : Externals} (y_train y_test : list Z) (limit : nat)
    (rs : list iteration) :
  forall k Xtr Xte prev,
    rounds_recorded y_train y_test limit k Xtr Xte prev rs ->
    Forall (fun f => column_in_range Xtr f = true) (removed rs) /\
    Forall (fun f => column_in_range Xte f = true) (removed rs).
Proof.
  induction rs as [|r rs IH]; intros k Xtr Xte prev Hrs.
  - split; constructor.
  - destruct Hrs as (X1 & Xte1 & (Hz1 & Hz2 & _) & Hrest).
    destruct (IH _ _ _ _ Hrest) as (H1 & H2).
    unfold removed. simpl map. split; constructor.
    + eapply zero_column_ret_in_range. exact Hz1.
    + eapply Forall_impl; [|exact H1]. unfold column_in_range.
      rewrite (zero_column_columns _ _ _ Hz1). auto.
    + eapply zero_column_ret_in_range. exact Hz2.
    + eapply Forall_impl; [|exact H2]. unfold column_in_range.
      rewrite (zero_column_columns _ _ _ Hz2). auto.
Qed.

(** X14.  After a run that ends normally, a cell of the caller's
    training or test array is zero when its column is that of a removed
    feature and holds the value it was passed with otherwise: ablation
    touches no other column. *)
Theorem ablation_touches_removed_columns_only `{E : Externals}
    (y_train y_test : list Z) (max_iter top_n : Z) (logger : bool)
    (limit : nat) (Xtr Xte : matrix) (fr : frame) :
  trust_report y_train y_test max_iter top_n logger limit Xtr Xte
  = Some (fr, Normal) ->
  forall i j,
    cell (X_train fr) i j
    = (if existsb (fun f => (column_of Xtr f =? j)%nat) (removed (whitebox_iter fr))
       then 0%Q else cell Xtr i j) /\
    cell (X_test fr) i j
    = (if existsb (fun f => (column_of Xte f =? j)%nat) (removed (whitebox_iter fr))
       then 0%Q else cell Xte i j).
Proof.
  intros Hrun i j.
  destruct (run_exits _ _ _ _ _ _ _ _ _ _ Hrun) as ((Hrec & _) & Hnormal).
  destruct (Hnormal eq_refl) as (F & _ & Hs & _).
  destruct Hs as (_ & -> & -> & _).
  destruct (recorded_in_range _ _ _ _ _ _ _ _ Hrec) as (H1 & H2).
  split; apply zero_columns_cell; assumption.
Qed.

Lemma ablation_touches_removed_columns_only_witness :
  exists fr,
    trust_report (E := RR) y2 y1 3 10 true 100 X4c_train X4c_test
    = Some (fr, Normal) /\
    removed (whitebox_iter fr) = [0; 1; 2] /\
    forall i j,
      cell (X_train fr) i j
      = (if existsb (fun f => (column_of X4c_train f =? j)%nat)
                    (removed (whitebox_iter fr))
         then 0%Q else cell X4c_train i j) /\
      cell (X_test fr) i j
      = (if existsb (fun f => (column_of X4c_test f =? j)%nat)
                    (removed (whitebox_iter fr))
         then 0%Q else cell X4c_test i j).
Proof.
  destruct (trust_report (E := RR) y2 y1 3 10 true 100 X4c_train X4c_test)
    as [[fr c]|] eqn:Hrun; [|vm_compute in Hrun; discriminate Hrun].
  assert (Hc : c = Normal /\ removed (whitebox_iter fr) = [0; 1; 2]).
  { assert (Hval := Hrun). vm_compute in Hval. injection Hval as <- <-.
    split; reflexivity. }
  destruct Hc as (-> & Hrem).
  exists fr. split; [reflexivity|]. split; [exact Hrem|].
  exact (ablation_touches_removed_columns_only (E := RR)
           y2 y1 3 10 true 100 X4c_train X4c_test fr Hrun).
Defined.

(** X15.  A run that ends normally has appended exactly
    [min(max_iter, F)] records, [F] being the number of feature columns,
    and its iteration counter and its count of removed features both
    equal that number. *)
Theorem normal_end_round_count `{E : Externals} (y_train y_test : list Z)
    (max_iter top_n : Z) (logger : bool) (limit : nat)
    (Xtr Xte : matrix) (fr : frame) (F : Z) :
  0 <= max_iter ->
  len_first_row Xtr = Ret F ->
  trust_report y_train y_test max_iter top_n logger limit Xtr Xte
  = Some (fr, Normal) ->
  Z.of_nat (List.length (whitebox_iter fr)) = Z.min max_iter F /\
  it fr = Z.min max_iter F /\
  n_features_removed fr = Z.min max_iter F.
Proof.
  intros Hmax HF Hrun.
  exact (completed_run_rounds _ _ _ _ _ _ _ _ _ _ Hmax HF Hrun).
Qed.

Lemma normal_end_round_count_witness :
  0 <= 3 /\
  len_first_row X4c_train = Ret 4 /\
  exists fr,
    trust_report (E := RR) y2 y1 3 10 true 100 X4c_train X4c_test
    = Some (fr, Normal) /\
    Z.of_nat (List.length (whitebox_iter fr)) = Z.min 3 4 /\
    it fr = Z.min 3 4 /\
    n_features_removed fr = Z.min 3 4.
Proof.
  split; [lia|]. split; [reflexivity|].
  destruct (trust_report (E := RR) y2 y1 3 10 true 100 X4c_train X4c_test)
    as [[fr c]|] eqn:Hrun; [|vm_compute in Hrun; discriminate Hrun].
  assert (Hc : c = Normal).
  { assert (Hval := Hrun). vm_compute in Hval. injection Hval as <- <-.
    reflexivity. }
  subst c. exists fr. split; [reflexivity|].
  apply (normal_end_round_count (E := RR) y2 y1 3 10 true 100
           X4c_train X4c_test fr 4); [lia | reflexivity | exact Hrun].
Defined.


(** ** Selecting from a tree that splits *)

Lemma recorded_last `{E : Externals} (y_train y_test : list Z) (limit : nat)
    (rs : list iteration) :
  forall k Xtr Xte,
    rounds_recorded y_train y_test limit k Xtr Xte (refit_dt y_train k Xtr) rs ->
    last_dt (refit_dt y_train k Xtr) rs
    = refit_dt y_train (k + List.length rs) (zero_columns (removed rs) Xtr).
Proof.
  induction rs as [|r0 rs IH]; intros k Xtr Xte Hrs.
  - simpl. rewrite Nat.add_0_r. reflexivity.
  - destruct Hrs as (X1 & Xte1 & Hr0 & Hrest).
    destruct Hr0 as (Hz1 & _ & _ & _ & _ & Hdt & _).
    rewrite Hdt in Hrest.
    unfold last_dt. simpl map. rewrite last_cons, Hdt.
    fold (last_dt (refit_dt y_train (S k) X1) rs).
    rewrite (IH (S k) X1 Xte1 Hrest).
    unfold removed. simpl map. simpl zero_columns. rewrite Hz1.
    replace (S k + List.length rs)%nat with (k + List.length (r0 :: rs))%nat
      by (simpl; lia).
    reflexivity.
Qed.

Lemma selection_succeeds (top_n : Z) (fu : usage_dict) :
  1 <= top_n -> fu <> [] ->
  exists f, first_feature (top_features top_n fu) = Ret f.
Proof.
  intros Hn Hne. unfold top_features, slice_to.
  replace (0 <=? top_n) with true by (symmetry; apply Z.leb_le; lia).
  destruct (sorted_desc (fun p => u_samples (snd p)) fu) as [|p l] eqn:Hs.
  - exfalso. destruct fu as [|q fu]; [congruence|].
    assert (Hin : In q (sorted_desc (fun p => u_samples (snd p)) (q :: fu)))
      by (apply sorted_desc_In; left; reflexivity).
    rewrite Hs in Hin. destruct Hin.
  - destruct (Z.to_nat top_n) as [|n] eqn:Hk; [lia|].
    exists (fst p). unfold first_feature. simpl firstn.
    rewrite (getitem_in_range (p :: firstn n l) 0 p) by (simpl; lia).
    reflexivity.
Qed.

Lemma zero_column_nonneg (X : matrix) (f : Z) :
  0 <= f < n_columns X -> exists X', zero_column X f = Ret X'.
Proof.
  intros Hf. apply zero_column_in_range. unfold column_in_range.
  replace (f <? 0) with false by (symmetry; apply Z.ltb_ge; lia).
  apply andb_true_intro. split; [apply Z.leb_le | apply Z.ltb_lt]; lia.
Qed.


(** ** Ablating as many features as there are columns *)

(** X17.  With an extractor that never splits on a column of zeros, a
    run on a rectangular training array that is allowed at least as many
    rounds as the array has columns always ends with an exception. *)
Theorem full_ablation_always_raises `{E : Externals} (y_train y_test : list Z)
    (max_iter top_n : Z) (logger : bool) (limit : nat) (Xtr Xte : matrix) :
  splits_on_varying y_train limit ->
  rectangular Xtr ->
  n_columns Xtr <= max_iter ->
  exists fr e,
    trust_report y_train y_test max_iter top_n logger limit Xtr Xte
    = Some (fr, Raised e).
Proof.
  intros Hlearn Hrect Hmax.
  destruct (trust_report y_train y_test max_iter top_n logger limit Xtr Xte)
    as [[fr [|e]]|] eqn:Hrun.
  - exfalso.
    apply (all_features_ablated_raises y_train y_test limit Hlearn
             max_iter top_n logger Xtr Xte fr Normal Hrect Hmax Hrun).
    reflexivity.
  - exists fr, e. reflexivity.
  - exfalso. exact (run_total _ _ _ _ _ _ _ _ Hrun).
Qed.

Lemma X4_train_rectangular : rectangular X4_train.
Proof. split; [discriminate|]. repeat constructor. Qed.

Lemma full_ablation_always_raises_witness :
  splits_on_varying (E := CART) y2 100 /\
  rectangular X4_train /\
  n_columns X4_train <= 10 /\
  exists fr e,
    trust_report (E := CART) y2 y1 10 10 true 100 X4_train X4_test
    = Some (fr, Raised e).
Proof.
  assert (H1 : splits_on_varying (E := CART) y2 100)
    by exact (cart_like_splits_on_varying y2 100).
  assert (H3 : n_columns X4_train <= 10) by discriminate.
  split; [exact H1|]. split; [exact X4_train_rectangular|]. split; [exact H3|].
  exact (full_ablation_always_raises (E := CART) y2 y1 10 10 true 100
           X4_train X4_test H1 X4_train_rectangular H3).
Defined.

(** X18.  With an extractor that never splits on a column of zeros, the
    features a run removes are pairwise distinct columns of the training
    array, none of which was all zero when the run started; so the run
    makes at most as many rounds as the array has columns. *)
Theorem removed_features_distinct `{E : Externals} (y_train y_test : list Z)
    (max_iter top_n : Z) (logger : bool) (limit : nat) (Xtr Xte : matrix) :
  splits_on_varying y_train limit ->
  exists fr c,
    trust_report y_train y_test max_iter top_n logger limit Xtr Xte
    = Some (fr, c) /\
    NoDup (removed (whitebox_iter fr)) /\
    (forall f, In f (removed (whitebox_iter fr)) ->
               0 <= f < n_columns Xtr /\ ~ column_zero Xtr f) /\
    Z.of_nat (List.length (whitebox_iter fr)) <= Z.max 0 (n_columns Xtr).
Proof.
  intros Hlearn.
  destruct (trust_report y_train y_test max_iter top_n logger limit Xtr Xte)
    as [[fr c]|] eqn:Hrun;
    [|exfalso; exact (run_total _ _ _ _ _ _ _ _ Hrun)].
  exists fr, c. split; [reflexivity|].
  destruct (run_exits _ _ _ _ _ _ _ _ _ _ Hrun) as ((Hrec & _) & _).
  destruct (recorded_distinct y_train y_test limit Hlearn _ _ _ _ Hrec)
    as (Hnd & Hin & _).
  split; [exact Hnd|]. split; [exact Hin|].
  assert (Hlen : (List.length (removed (whitebox_iter fr))
                  <= List.length (map Z.of_nat (seq 0 (Z.to_nat (n_columns Xtr)))))%nat).
  { apply NoDup_incl_length; [exact Hnd|].
    intros f Hf. destruct (Hin f Hf) as (Hr & _).
    replace f with (Z.of_nat (Z.to_nat f)) by lia.
    apply in_map, in_seq. lia. }
  unfold removed in Hlen. rewrite !length_map, length_seq in Hlen. lia.
Qed.

Lemma removed_features_distinct_witness :
  splits_on_varying (E := CART) y2 100 /\
  exists fr c,
    trust_report (E := CART) y2 y1 10 10 true 100 X4_train X4_test
    = Some (fr, c) /\
    NoDup (removed (whitebox_iter fr)) /\
    (forall f, In f (removed (whitebox_iter fr)) ->
               0 <= f < n_columns X4_train /\ ~ column_zero X4_train f) /\
    Z.of_nat (List.length (whitebox_iter fr)) <= Z.max 0 (n_columns X4_train).
Proof.
  assert (H1 : splits_on_varying (E := CART) y2 100)
    by exact (cart_like_splits_on_varying y2 100).
  split; [exact H1|].
  exact (removed_features_distinct (E := CART) y2 y1 10 10 true 100
           X4_train X4_test H1).
Defined.

(* ================================================================= *)
(** * The branch table *)

Lemma np_sum_Permutation (a b : list Q) :
  Permutation a b -> (np_sum a == np_sum b)%Q.
Proof.
  induction 1; simpl.
  - reflexivity.
  - rewrite IHPermutation. reflexivity.
  - ring.
  - rewrite IHPermutation1. exact IHPermutation2.
Qed.

Lemma branch_share_sum (R : Z) (l : list Branch) :
  (np_sum (map (branch_share R) l)
   == (inject_Z (np_sum_Z (map b_samples l)) / inject_Z R) * 100)%Q.
Proof.
  induction l as [|b l IH].
  - simpl. unfold Qdiv. ring.
  - simpl map. simpl np_sum.
    change (np_sum_Z (b_samples b :: map b_samples l))
      with (b_samples b + np_sum_Z (map b_samples l)).
    rewrite IH, inject_Z_plus. unfold branch_share, Qdiv. ring.
Qed.

(** X19.  On a well-formed tree, when [top_n] is at least the number
    of leaves, the branch table shows every branch once, in descending
    order of sample count, and the percentages
    [(branch["samples"] / first_dt_samples) * 100] shown beside the
    sample counts add up to 100. *)
Theorem branch_shares_add_up (dt : Tree) (T : shape) (limit : nat) (top_n : Z) :
  well_formed dt T ->
  (depth T <= limit)%nat ->
  Z.of_nat (List.length (leaves T)) <= top_n ->
  exists fu sp br total_samples first_dt_samples,
    get_dt_info dt limit = Ret (fu, sp, br, total_samples) /\
    getitem (n_node_samples dt) 0 = Ret first_dt_samples /\
    Permutation (top_branches top_n br) br /\
    StronglySorted (fun a b => b_samples b <= b_samples a) (top_branches top_n br) /\
    (np_sum (map (branch_share first_dt_samples) (top_branches top_n br)) == 100)%Q.
Proof.
  intros Hwf Hd Htop.
  pose proof (get_dt_info_well_formed dt T limit Hwf Hd) as Hrun.
  destruct Hwf as (Hal & Hroot & Hperm & Hc).
  pose proof (node_ok_root dt T Hc) as Hn0. rewrite Hroot in Hn0.
  set (br := map (fun p => branch_at dt (map (edge_predicate dt) (fst p)) (snd p))
                 (routes T)) in *.
  assert (Hlen : List.length br = List.length (leaves T)).
  { unfold br. rewrite length_map, <- routes_leaves, length_map. reflexivity. }
  assert (Hall : top_branches top_n br = sorted_desc b_samples br).
  { unfold top_branches, slice_to.
    replace (0 <=? top_n) with true by (symmetry; apply Z.leb_le; lia).
    apply firstn_all2.
    rewrite (Permutation_length (sorted_desc_perm b_samples br)). lia. }
  exists (usage_after dt (internal_preorder T) []),
         (map (split_at dt) (internal_preorder T)), br,
         (np_sum_Z (n_node_samples dt)), (samples_at dt 0).
  split; [exact Hrun|].
  split; [exact (get_samples dt Hal 0 Hn0)|].
  rewrite Hall.
  split; [apply sorted_desc_perm|].
  split; [apply sorted_desc_sorted|].
  rewrite (np_sum_Permutation _ _
             (Permutation_map (branch_share (samples_at dt 0))
                              (sorted_desc_perm b_samples br))).
  rewrite branch_share_sum.
  assert (Hsum : np_sum_Z (map b_samples br) = samples_at dt 0).
  { transitivity (samples_at dt (root T)); [|rewrite Hroot; reflexivity].
    unfold br. rewrite map_map. cbn [b_samples branch_at].
    rewrite <- (leaves_sum dt T Hc), <- routes_leaves, map_map. reflexivity. }
  rewrite Hsum.
  destruct Hn0 as (_ & _ & _ & Hpos & _).
  assert (Hnz : ~ (inject_Z (samples_at dt 0) == 0)%Q).
  { change 0%Q with (inject_Z 0). rewrite inject_Z_injective. lia. }
  field. exact Hnz.
Qed.

Lemma branch_shares_add_up_witness :
  well_formed tree5 shape5 /\ (depth shape5 <= 10)%nat /\
  Z.of_nat (List.length (leaves shape5)) <= 10 /\
  exists fu sp br total_samples first_dt_samples,
    get_dt_info tree5 10 = Ret (fu, sp, br, total_samples) /\
    getitem (n_node_samples tree5) 0 = Ret first_dt_samples /\
    Permutation (top_branches 10 br) br /\
    StronglySorted (fun a b => b_samples b <= b_samples a) (top_branches 10 br) /\
    (np_sum (map (branch_share first_dt_samples) (top_branches 10 br)) == 100)%Q.
Proof.
  assert (H2 : (depth shape5 <= 10)%nat) by (simpl; lia).
  assert (H3 : Z.of_nat (List.length (leaves shape5)) <= 10) by (simpl; lia).
  split; [exact tree5_well_formed|]. split; [exact H2|]. split; [exact H3|].
  exact (branch_shares_add_up tree5 shape5 10 10 tree5_well_formed H2 H3).
Defined.

(* ================================================================= *)
(** ** Labels of the report *)

Lemma argmax_from_nonneg (l : list Q) :
  forall best besti i, 0 <= besti -> 0 <= i -> 0 <= argmax_from best besti i l.
Proof.
  induction l as [|x l IH]; intros best besti i Hb Hi; simpl; [exact Hb|].
  destruct (Qle_bool x best); apply IH; lia.
Qed.

Lemma leaf_branch_class (dt : Tree) (n : Z) (path : list predicate) (b : Branch) :
  leaf_branch dt n path = Ret b -> 0 <= b_class b.
Proof.
  unfold leaf_branch.
  destruct (getitem (value dt) n) as [v|]; [|discriminate]. simpl.
  destruct (getitem v 0) as [v0|]; [|discriminate]. simpl.
  destruct (np_argmax v0) as [c|] eqn:Hc; [|discriminate]. simpl.
  destruct (getitem v0 c); [|discriminate]. simpl.
  destruct (getitem (n_node_samples dt) n); [|discriminate]. simpl.
  intros [= <-]. simpl.
  destruct v0 as [|x v0]; [discriminate Hc|].
  injection Hc as <-. apply argmax_from_nonneg; lia.
Qed.

Lemma walk_tree_classes (dt : Tree) (limit : nat) :
  forall n path st br st',
    walk_tree dt limit n path st = Ret (br, st') ->
    Forall (fun b => 0 <= b_class b) br.
Proof.
  induction limit as [|limit IH]; intros n path st br st' Hrun;
    [discriminate Hrun|].
  destruct (walk_tree_step _ _ _ _ _ _ _ Hrun)
    as (l & r & Hl & Hr & [(-> & -> & b & Hb & ->) |
                           (Hne & f & th & sp & bl & brr & st1 &
                            _ & _ & _ & Hwl & Hwr & ->)]).
  - constructor; [|constructor]. eapply leaf_branch_class. exact Hb.
  - apply Forall_app. split; eapply IH; eassumption.
Qed.

Lemma class_label_nonneg (class_names : option (list string)) (c : Z) :
  0 <= c ->
  class_label class_names c
  = Ret (match class_names with
         | Some ns =>
             match nth_error ns (Z.to_nat c) with
             | Some s => Name s
             | None => Index c
             end
         | None => Index c
         end).
Proof.
  intros Hc. unfold class_label.
  destruct class_names as [[|n ns]|]; [destruct (Z.to_nat c); reflexivity| |reflexivity].
  destruct (c <? Z.of_nat (List.length (n :: ns))) eqn:Hlt.
  - apply Z.ltb_lt in Hlt.
    rewrite (getitem_in_range (n :: ns) c EmptyString) by lia.
    destruct (nth_error (n :: ns) (Z.to_nat c)) eqn:Hnth.
    + rewrite (nth_error_nth _ _ EmptyString Hnth). reflexivity.
    + apply nth_error_None in Hnth. lia.
  - apply Z.ltb_ge in Hlt.
    destruct (nth_error (n :: ns) (Z.to_nat c)) eqn:Hnth; [|reflexivity].
    assert (Hsome : nth_error (n :: ns) (Z.to_nat c) <> None) by congruence.
    apply nth_error_Some in Hsome. lia.
Qed.

(** X20.  The class cell of a branch row never raises: whenever
    [get_dt_info] returns, whatever the tree arrays hold and whatever
    class names are passed (none, too few, or enough), the label of every
    branch's class is the name at that index when there is one and the
    class index itself otherwise. *)
Theorem branch_class_labels_resolve (dt : Tree) (limit : nat)
    (fu : usage_dict) (sp : list Split) (br : list Branch) (total : Z)
    (class_names : option (list string)) :
  get_dt_info dt limit = Ret (fu, sp, br, total) ->
  Forall (fun b =>
            0 <= b_class b /\
            class_label class_names (b_class b)
            = Ret (match class_names with
                   | Some ns =>
                       match nth_error ns (Z.to_nat (b_class b)) with
                       | Some s => Name s
                       | None => Index (b_class b)
                       end
                   | None => Index (b_class b)
                   end)) br.
Proof.
  unfold get_dt_info. intros Hrun.
  destruct (walk_tree dt limit 0 [] _) as [[br' st]|] eqn:Hw; [|discriminate].
  injection Hrun as _ _ <- _.
  eapply Forall_impl; [|eapply walk_tree_classes; exact Hw].
  intros b Hb. split; [exact Hb | apply class_label_nonneg; exact Hb].
Qed.

Lemma branch_class_labels_resolve_witness :
  exists fu sp br total,
    get_dt_info tree5 10 = Ret (fu, sp, br, total) /\
    Forall (fun b =>
              0 <= b_class b /\
              class_label (Some ["setosa"%string]) (b_class b)
              = Ret (match nth_error ["setosa"%string] (Z.to_nat (b_class b)) with
                     | Some s => Name s
                     | None => Index (b_class b)
                     end)) br.
Proof.
  destruct (get_dt_info tree5 10) as [[[[fu sp] br] total]|] eqn:Hrun;
    [|vm_compute in Hrun; discriminate Hrun].
  exists fu, sp, br, total. split; [reflexivity|].
  exact (branch_class_labels_resolve tree5 10 fu sp br total
           (Some ["setosa"%string]) Hrun).
Defined.

Lemma feature_label_in_range (X : matrix) (names : option (list string)) (f : Z) :
  (forall ns, names = Some ns -> ns <> [] ->
              Z.of_nat (List.length ns) = n_columns X) ->
  column_in_range X f = true ->
  exists l, feature_label names f = Ret l /\
            (l = Index f <-> (names = None \/ names = Some [])).
Proof.
  intros Hcover Hf. unfold feature_label.
  destruct names as [[|n ns]|].
  - exists (Index f). split; [reflexivity|]. split; [right|]; reflexivity.
  - assert (Hlen := Hcover (n :: ns) eq_refl ltac:(discriminate)).
    unfold column_in_range in Hf. rewrite <- Hlen in Hf.
    unfold getitem.
    destruct ((0 <=? (if f <? 0 then f + Z.of_nat (List.length (n :: ns)) else f))
              && ((if f <? 0 then f + Z.of_nat (List.length (n :: ns)) else f)
                  <? Z.of_nat (List.length (n :: ns)))) eqn:Hr;
      [|discriminate Hf].
    apply andb_prop in Hr. destruct Hr as (H0 & H1).
    apply Z.leb_le in H0. apply Z.ltb_lt in H1.
    destruct (nth_error (n :: ns) _) as [s|] eqn:Hnth.
    + exists (Name s). split; [reflexivity|].
      split; [discriminate | intros [H|H]; discriminate H].
    + apply nth_error_None in Hnth. lia.
  - exists (Index f). split; [reflexivity|]. split; [left|]; reflexivity.
Qed.

(** X21.  The iteration table of a run that ended normally can be
    labelled: when [feature_names] is absent, empty, or holds one name per
    column of the training array, the label of every removed feature is
    found, and it is a name unless no names were given.  (With fewer
    names the lookup [feature_names[feat]] is unguarded, unlike that of
    the class names.) *)
Theorem iteration_labels_resolve `{E : Externals}
    (y_train y_test : list Z) (max_iter top_n : Z) (logger : bool)
    (limit : nat) (Xtr Xte : matrix) (fr : frame)
    (feature_names : option (list string)) :
  (forall ns, feature_names = Some ns -> ns <> [] ->
              Z.of_nat (List.length ns) = n_columns Xtr) ->
  trust_report y_train y_test max_iter top_n logger limit Xtr Xte
  = Some (fr, Normal) ->
  Forall (fun r =>
            exists l,
              feature_label feature_names (i_feature_removed r) = Ret l /\
              (l = Index (i_feature_removed r)
               <-> (feature_names = None \/ feature_names = Some [])))
         (whitebox_iter fr).
Proof.
  intros Hcover Hrun.
  destruct (run_exits _ _ _ _ _ _ _ _ _ _ Hrun) as ((Hrec & _) & _).
  destruct (recorded_in_range _ _ _ _ _ _ _ _ Hrec) as (H1 & _).
  unfold removed in H1. rewrite Forall_map in H1.
  eapply Forall_impl; [|exact H1].
  intros r Hr. eapply feature_label_in_range; eassumption.
Qed.

Lemma iteration_labels_resolve_witness :
  (forall ns, Some ["a"; "b"; "c"; "d"]%string = Some ns -> ns <> [] ->
              Z.of_nat (List.length ns) = n_columns X4c_train) /\
  exists fr,
    trust_report (E := RR) y2 y1 3 10 true 100 X4c_train X4c_test
    = Some (fr, Normal) /\
    whitebox_iter fr <> [] /\
    Forall (fun r =>
              exists l,
                feature_label (Some ["a"; "b"; "c"; "d"]%string)
                              (i_feature_removed r) = Ret l /\
                (l = Index (i_feature_removed r)
                 <-> (Some ["a"; "b"; "c"; "d"]%string = None
                      \/ Some ["a"; "b"; "c"; "d"]%string = Some [])))
           (whitebox_iter fr).
Proof.
  assert (Hcover : forall ns, Some ["a"; "b"; "c"; "d"]%string = Some ns ->
                              ns <> [] ->
                              Z.of_nat (List.length ns) = n_columns X4c_train).
  { intros ns [= <-] _. reflexivity. }
  split; [exact Hcover|].
  destruct (trust_report (E := RR) y2 y1 3 10 true 100 X4c_train X4c_test)
    as [[fr c]|] eqn:Hrun; [|vm_compute in Hrun; discriminate Hrun].
  assert (Hc : c = Normal /\ whitebox_iter fr <> []).
  { assert (Hval := Hrun). vm_compute in Hval. injection Hval as <- <-.
    split; [reflexivity | discriminate]. }
  destruct Hc as (-> & Hne).
  exists fr. split; [reflexivity|]. split; [exact Hne|].
  exact (iteration_labels_resolve (E := RR) y2 y1 3 10 true 100
           X4c_train X4c_test fr (Some ["a"; "b"; "c"; "d"]%string)
           Hcover Hrun).
Defined.

(* ================================================================= *)
(** * The arrays of a run, cell by cell *)

(** ** Ablated arrays *)

Lemma mask_row_length (p : nat -> bool) (r : list Q) :
  forall j, List.length (mask_row p j r) = List.length r.
Proof.
  induction r as [|x r IH]; intros j; simpl; [reflexivity|].
  rewrite IH. reflexivity.
Qed.

Lemma mask_row_nth (p : nat -> bool) (r : list Q) :
  forall j k,
    nth k (mask_row p j r) 0%Q = if p (j + k)%nat then 0%Q else nth k r 0%Q.
Proof.
  induction r as [|x r IH]; intros j k; simpl.
  - destruct k; destruct (p _); reflexivity.
  - destruct k as [|k].
    + rewrite Nat.add_0_r. reflexivity.
    + rewrite IH. replace (S j + k)%nat with (j + S k)%nat by lia. reflexivity.
Qed.

Lemma ablated_shape (X : matrix) (fs : list Z) :
  map (@List.length Q) (rows (ablated X fs)) = map (@List.length Q) (rows X).
Proof.
  unfold ablated. cbn [rows]. rewrite map_map.
  apply map_ext. intros r. apply mask_row_length.
Qed.

Lemma ablated_cell (X : matrix) (fs : list Z) (i j : nat) :
  cell (ablated X fs) i j
  = if existsb (fun f => (column_of X f =? j)%nat) fs then 0%Q else cell X i j.
Proof.
  unfold cell, ablated. cbn [rows].
  set (p := fun j => existsb (fun f => (column_of X f =? j)%nat) fs).
  change (@nil Q) with (mask_row p 0 []) at 1.
  rewrite map_nth, mask_row_nth. reflexivity.
Qed.

(** Two arrays with the same shape and the same cells are the same. *)
Lemma rows_ext (a b : list (list Q)) :
  map (@List.length Q) a = map (@List.length Q) b ->
  (forall i j, nth j (nth i a []) 0%Q = nth j (nth i b []) 0%Q) ->
  a = b.
Proof.
  revert b. induction a as [|r a IH]; intros [|s b] Hlen Hcell;
    try discriminate; [reflexivity|].
  simpl in Hlen. injection Hlen as Hrs Hab.
  f_equal.
  - apply (nth_ext r s 0%Q 0%Q Hrs). intros j _. exact (Hcell 0%nat j).
  - apply IH; [exact Hab|]. intros i j. exact (Hcell (S i) j).
Qed.

Lemma matrix_ext (X Y : matrix) :
  n_columns X = n_columns Y ->
  map (@List.length Q) (rows X) = map (@List.length Q) (rows Y) ->
  (forall i j, cell X i j = cell Y i j) ->
  X = Y.
Proof.
  destruct X as [n a], Y as [m b]. cbn [n_columns rows]. unfold cell. cbn [rows].
  intros -> Hlen Hcell. f_equal. apply rows_ext; assumption.
Qed.

(** Zeroing columns one after the other gives the ablated array, as
    long as every index addresses a column. *)
Lemma zero_columns_ablated (fs : list Z) (X : matrix) :
  Forall (fun f => column_in_range X f = true) fs ->
  zero_columns fs X = ablated X fs.
Proof.
  intros Hfs. apply matrix_ext.
  - rewrite zero_columns_columns. reflexivity.
  - rewrite zero_columns_shape, ablated_shape. reflexivity.
  - intros i j. rewrite ablated_cell. apply zero_columns_cell. exact Hfs.
Qed.

(** ** The round that an exception cuts short *)

Section CutShort.

Context `{E : Externals}.
Variable y_train y_test : list Z.
Variable max_iter top_n : Z.
Variable logger : bool.
Variable limit : nat.
Variables Xtr0 Xte0 : matrix.

(** A pass that raises has zeroed, beyond the columns the records
    account for, at most the column of the feature it was removing: in
    the training array only when the assignment to the test array
    raised, in both when the refit raised, in neither otherwise. *)
Lemma body_cut fr fr' e :
  settled y_train y_test limit Xtr0 Xte0 (refit_dt y_train 0 Xtr0) fr ->
  loop_body y_train y_test top_n logger limit fr = (fr', Raised e) ->
  exists cut_tr cut_te,
    ((cut_tr = [] /\ cut_te = []) \/
     (cut_tr = [top_feature_to_remove fr'] /\
      (cut_te = [] \/ cut_te = [top_feature_to_remove fr']))) /\
    X_train fr' = zero_columns (removed (whitebox_iter fr') ++ cut_tr) Xtr0 /\
    X_test fr' = zero_columns (removed (whitebox_iter fr') ++ cut_te) Xte0 /\
    Forall (fun f => column_in_range Xtr0 f = true) cut_tr /\
    Forall (fun f => column_in_range Xte0 f = true) cut_te.
Proof.
  intros (Hrec & Htr & Hte & Hit & Hn & Hcalls & Htop).
  unfold loop_body.
  destruct (zero_column (X_train fr) (top_feature_to_remove fr))
    as [Xtr|e1] eqn:Hz1.
  2:{ intros [= <- _]. exists [], []. rewrite !app_nil_r.
      split; [left; split; reflexivity|].
      split; [exact Htr|]. split; [exact Hte|]. split; constructor. }
  assert (Htr' : Xtr = zero_columns (removed (whitebox_iter fr)
                                     ++ [top_feature_to_remove fr]) Xtr0).
  { rewrite zero_columns_app, <- Htr. simpl. rewrite Hz1. reflexivity. }
  assert (Hin1 : column_in_range Xtr0 (top_feature_to_remove fr) = true).
  { pose proof (zero_column_ret_in_range _ _ _ Hz1) as H.
    unfold column_in_range in *.
    rewrite Htr, zero_columns_columns in H. exact H. }
  destruct (zero_column (X_test fr) (top_feature_to_remove fr))
    as [Xte|e2] eqn:Hz2.
  2:{ intros [= <- _]. cbn [X_train X_test whitebox_iter top_feature_to_remove].
      exists [top_feature_to_remove fr], []. rewrite app_nil_r.
      split; [right; split; [reflexivity | left; reflexivity]|].
      split; [exact Htr'|]. split; [exact Hte|].
      split; [constructor; [exact Hin1 | constructor] | constructor]. }
  assert (Hte' : Xte = zero_columns (removed (whitebox_iter fr)
                                     ++ [top_feature_to_remove fr]) Xte0).
  { rewrite zero_columns_app, <- Hte. simpl. rewrite Hz2. reflexivity. }
  assert (Hin2 : column_in_range Xte0 (top_feature_to_remove fr) = true).
  { pose proof (zero_column_ret_in_range _ _ _ Hz2) as H.
    unfold column_in_range in *.
    rewrite Hte, zero_columns_columns in H. exact H. }
  cbn [calls n_features_removed].
  destruct (fit_and_explain logger (calls fr) Xtr y_train Xte y_test)
    as [[[dt yp] dyp]|e3] eqn:Hfit.
  2:{ intros [= <- _]. cbn [X_train X_test whitebox_iter top_feature_to_remove].
      exists [top_feature_to_remove fr], [top_feature_to_remove fr].
      split; [right; split; [reflexivity | right; reflexivity]|].
      split; [exact Htr'|]. split; [exact Hte'|].
      split; constructor; try assumption; constructor. }
  assert (Hrecorded : forall fr3 : frame,
             X_train fr3 = Xtr -> X_test fr3 = Xte ->
             removed (whitebox_iter fr3)
             = removed (whitebox_iter fr) ++ [top_feature_to_remove fr] ->
             exists cut_tr cut_te,
               ((cut_tr = [] /\ cut_te = []) \/
                (cut_tr = [top_feature_to_remove fr3] /\
                 (cut_te = [] \/ cut_te = [top_feature_to_remove fr3]))) /\
               X_train fr3 = zero_columns (removed (whitebox_iter fr3) ++ cut_tr) Xtr0 /\
               X_test fr3 = zero_columns (removed (whitebox_iter fr3) ++ cut_te) Xte0 /\
               Forall (fun f => column_in_range Xtr0 f = true) cut_tr /\
               Forall (fun f => column_in_range Xte0 f = true) cut_te).
  { intros fr3 H1 H2 H3. exists [], []. rewrite !app_nil_r, H1, H2, H3.
    split; [left; split; reflexivity|].
    split; [exact Htr'|]. split; [exact Hte'|]. split; constructor. }
  destruct (get_dt_info dt limit) as [[[[fu sp] br] total]|e4] eqn:Hinfo.
  2:{ intros [= <- _]. apply Hrecorded; cbn [X_train X_test whitebox_iter];
        try reflexivity.
      rewrite removed_snoc. reflexivity. }
  destruct (first_feature (top_features top_n fu)) as [f|e5] eqn:Hsel;
    [discriminate|].
  intros [= <- _]. apply Hrecorded; cbn [X_train X_test whitebox_iter];
    try reflexivity.
  rewrite removed_snoc. reflexivity.
Qed.

Lemma loop_cut F budget :
  forall fr fr' e,
    settled y_train y_test limit Xtr0 Xte0 (refit_dt y_train 0 Xtr0) fr ->
    ablation_loop y_train y_test max_iter top_n logger limit F budget fr
    = Some (fr', Raised e) ->
    exists cut_tr cut_te,
      ((cut_tr = [] /\ cut_te = []) \/
       (cut_tr = [top_feature_to_remove fr'] /\
        (cut_te = [] \/ cut_te = [top_feature_to_remove fr']))) /\
      X_train fr' = zero_columns (removed (whitebox_iter fr') ++ cut_tr) Xtr0 /\
      X_test fr' = zero_columns (removed (whitebox_iter fr') ++ cut_te) Xte0 /\
      Forall (fun f => column_in_range Xtr0 f = true) cut_tr /\
      Forall (fun f => column_in_range Xte0 f = true) cut_te.
Proof.
  induction budget as [|budget IH]; intros fr fr' e Hs; simpl;
    destruct (loop_guard max_iter F fr); try discriminate.
  destruct (loop_body y_train y_test top_n logger limit fr)
    as [fr1 [|e1]] eqn:Hbody.
  - apply IH.
    exact (proj1 (body_normal _ _ _ _ _ _ _ _ _ Hs Hbody)).
  - intros [= <- <-]. eapply body_cut; eassumption.
Qed.

(** The caller's arrays when [trust_report] ends: the arrays passed,
    with the columns of the recorded features zeroed and, when an
    exception cut a round short, possibly the column that round was
    removing. *)
Lemma run_cut fr c :
  trust_report y_train y_test max_iter top_n logger limit Xtr0 Xte0
  = Some (fr, c) ->
  exists cut_tr cut_te,
    ((cut_tr = [] /\ cut_te = []) \/
     (c <> Normal /\
      cut_tr = [top_feature_to_remove fr] /\
      (cut_te = [] \/ cut_te = [top_feature_to_remove fr]))) /\
    X_train fr = ablated Xtr0 (removed (whitebox_iter fr) ++ cut_tr) /\
    X_test fr = ablated Xte0 (removed (whitebox_iter fr) ++ cut_te).
Proof.
  intros Hrun.
  destruct (run_exits _ _ _ _ _ _ _ _ _ _ Hrun) as ((Hrec & _) & Hnormal).
  destruct (recorded_in_range _ _ _ _ _ _ _ _ Hrec) as (Hr1 & Hr2).
  assert (Hcut : exists cut_tr cut_te,
             ((cut_tr = [] /\ cut_te = []) \/
              (c <> Normal /\
               cut_tr = [top_feature_to_remove fr] /\
               (cut_te = [] \/ cut_te = [top_feature_to_remove fr]))) /\
             X_train fr = zero_columns (removed (whitebox_iter fr) ++ cut_tr) Xtr0 /\
             X_test fr = zero_columns (removed (whitebox_iter fr) ++ cut_te) Xte0 /\
             Forall (fun f => column_in_range Xtr0 f = true) cut_tr /\
             Forall (fun f => column_in_range Xte0 f = true) cut_te).
  { destruct c as [|e].
    - destruct (Hnormal eq_refl) as (F & _ & Hs & _).
      destruct Hs as (_ & Htr & Hte & _).
      exists [], []. rewrite !app_nil_r.
      split; [left; split; reflexivity|].
      split; [exact Htr|]. split; [exact Hte|]. split; constructor.
    - assert (Hne : Raised e <> Normal) by discriminate.
      revert Hrun. unfold trust_report.
      destruct (first_selection y_train y_test top_n logger limit Xtr0 Xte0)
        as [[F f]|e0] eqn:Hsel.
      + intros Hloop.
        pose proof Hsel as Hsel'. apply first_selection_ret in Hsel'.
        destruct Hsel' as (_ & _ & Htop).
        apply loop_cut in Hloop.
        * destruct Hloop as (cut_tr & cut_te & Hc & Htr & Hte & H1 & H2).
          exists cut_tr, cut_te.
          split; [|split; [exact Htr | split; [exact Hte | split; assumption]]].
          destruct Hc as [Hc | Hc]; [left; exact Hc | right; split; [exact Hne | exact Hc]].
        * unfold settled. cbn. repeat split; try reflexivity. exact Htop.
      + intros [= <- _]. exists [], []. cbn.
        split; [left; split; reflexivity|].
        split; [reflexivity|]. split; [reflexivity|]. split; constructor. }
  destruct Hcut as (cut_tr & cut_te & Hc & Htr & Hte & H1 & H2).
  exists cut_tr, cut_te. split; [exact Hc|].
  rewrite Htr, Hte. split; apply zero_columns_ablated;
    apply Forall_app; split; assumption.
Qed.

End CutShort.

(** ** What the caller's arrays hold when a run ends *)

(** C2, as the code behaves: the loop writes the zeros into the arrays
    the caller passed and makes no copy.  When [trust_report] ends, however
    it ends, the caller's training and test arrays are the arrays passed
    with the column of every recorded feature overwritten by zeros, every
    other cell and the shape being as passed; only when an exception cut a
    round short may one more column hold zeros, that of the feature the
    round was removing, in the training array alone or in both.  After a
    normal end exactly the recorded columns have been overwritten. *)
Theorem ablation_overwrites_caller_arrays `{E : Externals}
    (y_train y_test : list Z) (max_iter top_n : Z) (logger : bool)
    (limit : nat) (Xtr Xte : matrix) :
  exists fr c,
    trust_report y_train y_test max_iter top_n logger limit Xtr Xte
    = Some (fr, c) /\
    exists cut_tr cut_te,
      ((cut_tr = [] /\ cut_te = []) \/
       (c <> Normal /\
        cut_tr = [top_feature_to_remove fr] /\
        (cut_te = [] \/ cut_te = [top_feature_to_remove fr]))) /\
      X_train fr = ablated Xtr (removed (whitebox_iter fr) ++ cut_tr) /\
      X_test fr = ablated Xte (removed (whitebox_iter fr) ++ cut_te).
Proof.
  destruct (trust_report y_train y_test max_iter top_n logger limit Xtr Xte)
    as [[fr c]|] eqn:Hrun.
  - exists fr, c. split; [reflexivity|].
    exact (run_cut _ _ _ _ _ _ _ _ _ _ Hrun).
  - exfalso. exact (run_total _ _ _ _ _ _ _ _ Hrun).
Qed.

Lemma ablation_overwrites_caller_arrays_witness :
  exists fr c,
    trust_report (E := RR) y2 y1 3 10 true 100
                 X4c_train X4c_test = Some (fr, c) /\
    c = Normal /\
    removed (whitebox_iter fr) = [0; 1; 2] /\
    rows (X_train fr) = [[0; 0; 0; 9]; [0; 0; 0; 9]]%Q /\
    rows (X_test fr) = [[0; 0; 0; 9]]%Q /\
    exists cut_tr cut_te,
      ((cut_tr = [] /\ cut_te = []) \/
       (c <> Normal /\
        cut_tr = [top_feature_to_remove fr] /\
        (cut_te = [] \/ cut_te = [top_feature_to_remove fr]))) /\
      X_train fr = ablated X4c_train (removed (whitebox_iter fr) ++ cut_tr) /\
      X_test fr = ablated X4c_test (removed (whitebox_iter fr) ++ cut_te).
Proof.
  destruct (ablation_overwrites_caller_arrays (E := RR) y2 y1 3 10 true 100 X4c_train X4c_test)
    as (fr & c & Hrun & Hfacts).
  exists fr, c. split; [exact Hrun|].
  assert (Hval := Hrun). vm_compute in Hval. injection Hval as <- <-.
  split; [reflexivity|]. split; [reflexivity|]. split; [reflexivity|].
  split; [reflexivity|]. exact Hfacts.
Defined.

(** A round cut short between the two assignments: with a test array
    of a single column, the second round zeroes column 1 of the training
    array and then raises [IndexError] on the test array, so the training
    array ends with one column zeroed beyond the recorded one. *)
Lemma round_cut_between_assignments :
  exists fr,
    trust_report (E := RR) y2 y1 3 10 true 100 X4c_train X1_test
    = Some (fr, Raised IndexError) /\
    removed (whitebox_iter fr) = [0] /\
    top_feature_to_remove fr = 1 /\
    X_train fr = ablated X4c_train (removed (whitebox_iter fr) ++ [1]) /\
    X_test fr = ablated X1_test (removed (whitebox_iter fr)) /\
    rows (X_train fr) = [[0; 0; 9; 9]; [0; 0; 9; 9]]%Q /\
    rows (X_test fr) = [[0]]%Q.
Proof.
  destruct (trust_report (E := RR) y2 y1 3 10 true 100 X4c_train X1_test)
    as [[fr c]|] eqn:Hrun; vm_compute in Hrun; [|discriminate Hrun].
  injection Hrun as <- <-.
  eexists. split; [reflexivity|]. repeat split; reflexivity.
Qed.

(** ** The feature a round removes *)

Lemma removed_firstn_In `{E : Externals} (rs : list iteration) (k k' : nat)
    (r : iteration) :
  nth_error rs k = Some r -> (k <= k')%nat ->
  In (i_feature_removed r) (removed (firstn (S k') rs)).
Proof.
  intros Hnth Hle. unfold removed. apply in_map.
  apply (nth_error_In _ k). rewrite nth_error_firstn.
  replace (k <? S k')%nat with true by (symmetry; apply Nat.ltb_lt; lia).
  exact Hnth.
Qed.

Lemma ablated_column_zero (X : matrix) (fs : list Z) (f : Z) (i : nat) :
  In f fs -> cell (ablated X fs) i (column_of X f) = 0%Q.
Proof.
  intros Hin. rewrite ablated_cell.
  replace (existsb (fun g => (column_of X g =? column_of X f)%nat) fs) with true;
    [reflexivity|].
  symmetry. apply existsb_exists. exists f. split; [exact Hin|].
  apply Nat.eqb_refl.
Qed.

(** The features a run has removed when it ends, and the arrays its
    rounds refitted on. *)
Lemma selection_and_arrays_at_exit `{E : Externals}
    (y_train y_test : list Z) (max_iter top_n : Z) (logger : bool)
    (limit : nat) (Xtr Xte : matrix) (fr : frame) (c : completion) :
  trust_report y_train y_test max_iter top_n logger limit Xtr Xte
  = Some (fr, c) ->
  map (@List.length Q) (rows (X_train fr)) = map (@List.length Q) (rows Xtr) /\
  map (@List.length Q) (rows (X_test fr)) = map (@List.length Q) (rows Xte) /\
  forall k r,
    nth_error (whitebox_iter fr) k = Some r ->
    most_used limit
              (last_dt (refit_dt y_train 0 Xtr) (firstn k (whitebox_iter fr)))
              (i_feature_removed r) /\
    (forall k' r',
        (k <= k')%nat ->
        nth_error (whitebox_iter fr) k' = Some r' ->
        i_dt r'
        = refit_dt y_train (S k')
            (ablated Xtr (removed (firstn (S k') (whitebox_iter fr)))) /\
        i_y_pred r'
        = refit_y_pred y_train (S k')
            (ablated Xtr (removed (firstn (S k') (whitebox_iter fr))))
            (ablated Xte (removed (firstn (S k') (whitebox_iter fr)))) /\
        forall i,
          cell (ablated Xtr (removed (firstn (S k') (whitebox_iter fr)))) i
               (column_of Xtr (i_feature_removed r)) = 0%Q /\
          cell (ablated Xte (removed (firstn (S k') (whitebox_iter fr)))) i
               (column_of Xte (i_feature_removed r)) = 0%Q) /\
    forall i,
      cell (X_train fr) i (column_of Xtr (i_feature_removed r)) = 0%Q /\
      cell (X_test fr) i (column_of Xte (i_feature_removed r)) = 0%Q.
Proof.
  intros Hrun.
  destruct (run_exits _ _ _ _ _ _ _ _ _ _ Hrun) as ((Hrec & _) & _).
  destruct (run_cut _ _ _ _ _ _ _ _ _ _ Hrun)
    as (cut_tr & cut_te & _ & Htr & Hte).
  split; [rewrite Htr; apply ablated_shape|].
  split; [rewrite Hte; apply ablated_shape|].
  intros k r Hnth.
  destruct (recorded_nth _ _ _ _ _ _ _ _ _ _ Hrec Hnth)
    as (Xb & Xteb & Hr & _).
  destruct Hr as (_ & _ & Hmost & _).
  split; [exact Hmost|]. split.
  - intros k' r' Hle Hnth'.
    destruct (recorded_nth _ _ _ _ _ _ _ _ _ _ Hrec Hnth')
      as (Xb' & Xteb' & Hr' & HXb & HXteb).
    destruct Hr' as (_ & _ & _ & _ & _ & Hdt & Hyp & _).
    pose proof (recorded_prefix _ _ _ _ (S k') _ _ _ _ Hrec) as Hpre.
    destruct (recorded_in_range _ _ _ _ _ _ _ _ Hpre) as (H1 & H2).
    rewrite (zero_columns_ablated _ _ H1) in HXb.
    rewrite (zero_columns_ablated _ _ H2) in HXteb.
    rewrite <- HXb, <- HXteb.
    split; [exact Hdt|]. split; [exact Hyp|].
    intros i. rewrite HXb, HXteb.
    split; apply ablated_column_zero; eapply removed_firstn_In; eassumption.
  - intros i. rewrite Htr, Hte.
    split; apply ablated_column_zero; apply in_or_app; left;
      unfold removed; apply in_map; eapply nth_error_In; exact Hnth.
Qed.

(** C8: the feature round [k] removes heads the ranking, by cumulative
    sample count in descending order, of the features used by the tree
    fitted last before that round (the first tree for round 0), so no
    feature of that tree has a larger cumulative sample count.  Every
    later round refits on the arrays passed with the columns of all
    features removed so far overwritten by zeros, that feature's column
    among them; and in the arrays the run ends with, which keep the shape
    of the arrays passed, that column holds zeros. *)
Theorem most_used_feature_removed `{E : Externals}
    (y_train y_test : list Z) (max_iter top_n : Z) (logger : bool)
    (limit : nat) (Xtr Xte : matrix) :
  exists fr c,
    trust_report y_train y_test max_iter top_n logger limit Xtr Xte
    = Some (fr, c) /\
    map (@List.length Q) (rows (X_train fr)) = map (@List.length Q) (rows Xtr) /\
    map (@List.length Q) (rows (X_test fr)) = map (@List.length Q) (rows Xte) /\
    forall k r,
      nth_error (whitebox_iter fr) k = Some r ->
      most_used limit
                (last_dt (refit_dt y_train 0 Xtr) (firstn k (whitebox_iter fr)))
                (i_feature_removed r) /\
      (forall k' r',
          (k <= k')%nat ->
          nth_error (whitebox_iter fr) k' = Some r' ->
          i_dt r'
          = refit_dt y_train (S k')
              (ablated Xtr (removed (firstn (S k') (whitebox_iter fr)))) /\
          i_y_pred r'
          = refit_y_pred y_train (S k')
              (ablated Xtr (removed (firstn (S k') (whitebox_iter fr))))
              (ablated Xte (removed (firstn (S k') (whitebox_iter fr)))) /\
          forall i,
            cell (ablated Xtr (removed (firstn (S k') (whitebox_iter fr)))) i
                 (column_of Xtr (i_feature_removed r)) = 0%Q /\
            cell (ablated Xte (removed (firstn (S k') (whitebox_iter fr)))) i
                 (column_of Xte (i_feature_removed r)) = 0%Q) /\
      forall i,
        cell (X_train fr) i (column_of Xtr (i_feature_removed r)) = 0%Q /\
        cell (X_test fr) i (column_of Xte (i_feature_removed r)) = 0%Q.
Proof.
  destruct (trust_report y_train y_test max_iter top_n logger limit Xtr Xte)
    as [[fr c]|] eqn:Hrun.
  - exists fr, c. split; [reflexivity|].
    exact (selection_and_arrays_at_exit _ _ _ _ _ _ _ _ _ _ Hrun).
  - exfalso. exact (run_total _ _ _ _ _ _ _ _ Hrun).
Qed.

Lemma most_used_feature_removed_witness :
  exists fr c,
    trust_report (E := RR) y2 y1 3 10 true 100
                 X4c_train X4c_test = Some (fr, c) /\
    c = Normal /\
    removed (whitebox_iter fr) = [0; 1; 2] /\
    map (@List.length Q) (rows (X_train fr))
    = map (@List.length Q) (rows X4c_train) /\
    map (@List.length Q) (rows (X_test fr))
    = map (@List.length Q) (rows X4c_test) /\
    forall k r,
      nth_error (whitebox_iter fr) k = Some r ->
      most_used 100
                (last_dt (refit_dt (E := RR) y2 0 X4c_train)
                         (firstn k (whitebox_iter fr)))
                (i_feature_removed r) /\
      (forall k' r',
          (k <= k')%nat ->
          nth_error (whitebox_iter fr) k' = Some r' ->
          i_dt r'
          = refit_dt (E := RR) y2 (S k')
              (ablated X4c_train (removed (firstn (S k') (whitebox_iter fr)))) /\
          i_y_pred r'
          = refit_y_pred (E := RR) y2 (S k')
              (ablated X4c_train (removed (firstn (S k') (whitebox_iter fr))))
              (ablated X4c_test (removed (firstn (S k') (whitebox_iter fr)))) /\
          forall i,
            cell (ablated X4c_train (removed (firstn (S k') (whitebox_iter fr)))) i
                 (column_of X4c_train (i_feature_removed r)) = 0%Q /\
            cell (ablated X4c_test (removed (firstn (S k') (whitebox_iter fr)))) i
                 (column_of X4c_test (i_feature_removed r)) = 0%Q) /\
      forall i,
        cell (X_train fr) i (column_of X4c_train (i_feature_removed r)) = 0%Q /\
        cell (X_test fr) i (column_of X4c_test (i_feature_removed r)) = 0%Q.
Proof.
  destruct (most_used_feature_removed (E := RR) y2 y1 3 10 true 100 X4c_train X4c_test)
    as (fr & c & Hrun & Hfacts).
  exists fr, c. split; [exact Hrun|].
  assert (Hval := Hrun). vm_compute in Hval. injection Hval as <- <-.
  split; [reflexivity|]. split; [reflexivity|]. exact Hfacts.
Defined.

(** * The feature table *)

Lemma conforms_internal_ok (dt : Tree) (T : shape) :
  conforms dt T -> forall n, In n (internal_preorder T) -> node_ok dt n.
Proof.
  induction T as [n | n l IHl r IHr]; simpl; intros Hc m Hin; [destruct Hin|].
  destruct Hc as (Hn & _ & _ & _ & _ & _ & Hcl & Hcr).
  destruct Hin as [<- | Hin]; [exact Hn|].
  apply in_app_or in Hin. destruct Hin; [apply IHl | apply IHr]; assumption.
Qed.

Lemma modify_samples_nonneg (f : Z) (g : usage -> usage) (d : usage_dict) :
  (forall u, 0 <= u_samples u -> 0 <= u_samples (g u)) ->
  Forall (fun p => 0 <= u_samples (snd p)) d ->
  Forall (fun p => 0 <= u_samples (snd p)) (dict_modify f g d).
Proof.
  intros Hg. induction 1 as [|[k v] d Hv Hd IH]; simpl; [constructor|].
  destruct (f =? k); constructor; try assumption.
  apply Hg. exact Hv.
Qed.

Lemma setdefault_samples_nonneg (f : Z) (v : usage) (d : usage_dict) :
  0 <= u_samples v ->
  Forall (fun p => 0 <= u_samples (snd p)) d ->
  Forall (fun p => 0 <= u_samples (snd p)) (dict_setdefault f v d).
Proof.
  intros Hv. induction 1 as [|[k w] d Hw Hd IH]; simpl.
  - constructor; [exact Hv | constructor].
  - destruct (f =? k); constructor; assumption.
Qed.

Lemma usage_samples_nonneg (sp : list Split) :
  Forall (fun s => 0 <= s_samples s) sp ->
  forall d,
    Forall (fun p => 0 <= u_samples (snd p)) d ->
    Forall (fun p => 0 <= u_samples (snd p)) (usage_from_splits sp d).
Proof.
  induction 1 as [|s sp Hs _ IH]; intros d Hd; [exact Hd|].
  unfold usage_from_splits. simpl fold_left. apply IH.
  unfold record_usage.
  apply modify_samples_nonneg; [intros u Hu; simpl; lia|].
  apply modify_samples_nonneg; [intros u Hu; exact Hu|].
  apply setdefault_samples_nonneg; [simpl; lia | exact Hd].
Qed.

Lemma np_sum_Z_nonneg (l : list Z) :
  Forall (fun x => 0 <= x) l -> 0 <= np_sum_Z l.
Proof.
  induction 1 as [|x l Hx _ IH]; simpl; lia.
Qed.

Lemma firstn_sum_le (l : list Z) (m : nat) :
  Forall (fun x => 0 <= x) l -> np_sum_Z (firstn m l) <= np_sum_Z l.
Proof.
  intros Hl. revert m. induction Hl as [|x l Hx Hl IH]; intros [|m]; simpl;
    try lia.
  - pose proof (np_sum_Z_nonneg l Hl). lia.
  - specialize (IH m). lia.
Qed.

Lemma feature_share_sum (R : Z) (l : list (Z * usage)) :
  (np_sum (map (feature_share R) l)
   == (inject_Z (np_sum_Z (map (fun p => u_samples (snd p)) l)) / inject_Z R) * 100)%Q.
Proof.
  induction l as [|p l IH].
  - simpl. unfold Qdiv. ring.
  - simpl map. simpl np_sum.
    change (np_sum_Z (u_samples (snd p) :: map (fun p => u_samples (snd p)) l))
      with (u_samples (snd p) + np_sum_Z (map (fun p => u_samples (snd p)) l)).
    rewrite IH, inject_Z_plus. unfold feature_share, Qdiv. ring.
Qed.

Lemma share_le (a b R : Z) :
  0 < R -> a <= b ->
  ((inject_Z a / inject_Z R) * 100 <= (inject_Z b / inject_Z R) * 100)%Q.
Proof.
  intros HR Hab.
  apply Qmult_le_compat_r; [|discriminate].
  unfold Qdiv. apply Qmult_le_compat_r.
  - rewrite <- Zle_Qle. exact Hab.
  - apply Qinv_le_0_compat. replace 0%Q with (inject_Z 0) by reflexivity.
    rewrite <- Zle_Qle. lia.
Qed.

Lemma share_below_100 (a R : Z) :
  0 < R -> a < R -> ((inject_Z a / inject_Z R) * 100 < 100)%Q.
Proof.
  intros HR Ha.
  assert (H1 : (inject_Z a / inject_Z R < 1)%Q).
  { apply Qlt_shift_div_r.
    - replace 0%Q with (inject_Z 0) by reflexivity. rewrite <- Zlt_Qlt. exact HR.
    - rewrite Qmult_1_l, <- Zlt_Qlt. exact Ha. }
  setoid_replace 100%Q with (1 * 100)%Q at 2 by ring.
  apply Qmult_lt_compat_r; [reflexivity | exact H1].
Qed.

(** X6.  On a well-formed tree the cumulative samples of all features in
    [features_used], plus the root's sample count, make up the fourth
    result [total_samples], and there is one branch more than the split
    counts add up to.  So the percentages
    [(values["samples"] / first_dt_total_samples) * 100] of the feature
    table, which lists the first [top_n] features of the ranking, add up
    to at most [(total_samples - root) / total_samples * 100], which is
    below 100, and to exactly that when [top_n] is at least the number of
    features used. *)
Theorem usage_samples_and_root (dt : Tree) (T : shape) (limit : nat) :
  well_formed dt T ->
  (depth T <= limit)%nat ->
  exists fu sp br total_samples,
    get_dt_info dt limit = Ret (fu, sp, br, total_samples) /\
    samples_sum fu + samples_at dt 0 = total_samples /\
    count_sum fu + 1 = Z.of_nat (List.length br) /\
    ((inject_Z (total_samples - samples_at dt 0) / inject_Z total_samples) * 100
     < 100)%Q /\
    forall top_n,
      (np_sum (map (feature_share total_samples) (top_features top_n fu))
       <= (inject_Z (total_samples - samples_at dt 0) / inject_Z total_samples) * 100)%Q /\
      (Z.of_nat (List.length fu) <= top_n ->
       (np_sum (map (feature_share total_samples) (top_features top_n fu))
        == (inject_Z (total_samples - samples_at dt 0) / inject_Z total_samples) * 100)%Q).
Proof.
  intros Hwf Hd.
  pose proof (get_dt_info_well_formed dt T limit Hwf Hd) as Hrun.
  pose proof (get_dt_info_usage _ _ _ _ _ _ Hrun) as Hfu.
  destruct Hwf as (Hal & Hroot & Hperm & Hc).
  set (fu := usage_after dt (internal_preorder T) []) in *.
  set (sp := map (split_at dt) (internal_preorder T)) in *.
  set (total := np_sum_Z (n_node_samples dt)) in *.
  assert (Hsum : samples_sum fu + samples_at dt 0 = total /\
                 count_sum fu + 1 = Z.of_nat (List.length (routes T))).
  { rewrite Hfu.
    destruct (sums_fold sp []) as (H1 & H2).
    rewrite H1, H2. unfold count_sum, samples_sum, total, sp. simpl.
    rewrite (array_sum_nodes dt T Hal Hperm), nodes_sum_split.
    rewrite (leaves_sum dt T Hc), Hroot.
    rewrite !map_map. cbn [s_samples split_at].
    assert (Hlen : List.length (routes T) = S (List.length (internal_preorder T)))
      by (rewrite <- leaves_internal, <- routes_leaves, length_map; reflexivity).
    rewrite !length_map, Hlen.
    split; [reflexivity | lia]. }
  destruct Hsum as (Hsum & Hcount).
  assert (Hnonneg : Forall (fun p => 0 <= u_samples (snd p)) fu).
  { rewrite Hfu. apply usage_samples_nonneg; [|constructor].
    unfold sp. rewrite Forall_map. apply Forall_forall. intros n Hn.
    cbn [s_samples split_at].
    destruct (conforms_internal_ok dt T Hc n Hn) as (_ & _ & _ & Hpos & _). lia. }
  assert (Hrootpos : 0 < samples_at dt 0).
  { pose proof (node_ok_root dt T Hc) as Hn0. rewrite Hroot in Hn0.
    destruct Hn0 as (_ & _ & _ & Hpos & _). exact Hpos. }
  assert (Hfu0 : 0 <= samples_sum fu).
  { unfold samples_sum. apply np_sum_Z_nonneg. rewrite Forall_map. exact Hnonneg. }
  exists fu, sp, (map (fun p => branch_at dt (map (edge_predicate dt) (fst p)) (snd p))
                      (routes T)), total.
  split; [exact Hrun|]. split; [exact Hsum|].
  split; [rewrite length_map; exact Hcount|].
  split; [apply share_below_100; lia|].
  intros top_n.
  set (ranked := sorted_desc (fun p : Z * usage => u_samples (snd p)) fu).
  assert (Hranked : np_sum_Z (map (fun p => u_samples (snd p)) ranked) = samples_sum fu).
  { unfold samples_sum. apply np_sum_Z_Permutation, Permutation_map.
    apply sorted_desc_perm. }
  assert (Hrnonneg : Forall (fun x => 0 <= x) (map (fun p => u_samples (snd p)) ranked)).
  { rewrite Forall_map. apply Forall_forall. intros p Hp.
    rewrite Forall_forall in Hnonneg. apply Hnonneg.
    apply (Permutation_in p (sorted_desc_perm (fun p : Z * usage => u_samples (snd p)) fu)).
    exact Hp. }
  replace (total - samples_at dt 0) with (samples_sum fu) by lia.
  split.
  - rewrite feature_share_sum. apply share_le; [lia|].
    rewrite <- Hranked. unfold top_features, slice_to. fold ranked.
    destruct (0 <=? top_n); rewrite <- firstn_map; apply firstn_sum_le;
      exact Hrnonneg.
  - intros Htop. rewrite feature_share_sum.
    unfold top_features, slice_to. fold ranked.
    replace (0 <=? top_n) with true by (symmetry; apply Z.leb_le; lia).
    rewrite firstn_all2.
    + rewrite Hranked. reflexivity.
    + unfold ranked.
      rewrite (Permutation_length (sorted_desc_perm _ fu)). lia.
Qed.

Lemma usage_samples_and_root_witness :
  well_formed tree5 shape5 /\ (depth shape5 <= 10)%nat /\
  exists fu sp br total_samples,
    get_dt_info tree5 10 = Ret (fu, sp, br, total_samples) /\
    samples_sum fu + samples_at tree5 0 = total_samples /\
    count_sum fu + 1 = Z.of_nat (List.length br) /\
    ((inject_Z (total_samples - samples_at tree5 0) / inject_Z total_samples) * 100
     < 100)%Q /\
    forall top_n,
      (np_sum (map (feature_share total_samples) (top_features top_n fu))
       <= (inject_Z (total_samples - samples_at tree5 0) / inject_Z total_samples) * 100)%Q /\
      (Z.of_nat (List.length fu) <= top_n ->
       (np_sum (map (feature_share total_samples) (top_features top_n fu))
        == (inject_Z (total_samples - samples_at tree5 0) / inject_Z total_samples) * 100)%Q).
Proof.
  split; [exact tree5_well_formed|]. split; [simpl; lia|].
  apply (usage_samples_and_root tree5 shape5 10 tree5_well_formed). simpl; lia.
Defined.

(** * Runs that complete *)

Lemma varying_columns_no_rows (X : matrix) :
  rows X = [] -> varying_columns X = [].
Proof.
  intros Hrows. unfold varying_columns, constant_column. rewrite Hrows.
  induction (seq 0 (Z.to_nat (n_columns X))) as [|j l IH]; [reflexivity|].
  simpl. exact IH.
Qed.

Lemma varying_columns_bound (X : matrix) :
  (List.length (varying_columns X) <= Z.to_nat (n_columns X))%nat.
Proof.
  unfold varying_columns.
  etransitivity; [apply filter_length_le|].
  rewrite length_seq. lia.
Qed.

Lemma varying_columns_In (X : matrix) (j : nat) :
  In j (varying_columns X) -> 0 <= Z.of_nat j < n_columns X.
Proof.
  unfold varying_columns. intros Hin. apply filter_In in Hin.
  destruct Hin as (Hseq & _). apply in_seq in Hseq. lia.
Qed.

Lemma filter_length_except (p q : nat -> bool) (c : nat) (l : list nat) :
  NoDup l ->
  (forall j, j <> c -> p j = q j) ->
  (List.length (filter p l) <= S (List.length (filter q l)))%nat.
Proof.
  intros Hnd Hpq. induction Hnd as [|a l Ha Hnd IH]; simpl; [lia|].
  destruct (Nat.eq_dec a c) as [-> | Hac].
  - assert (Heq : filter p l = filter q l).
    { apply filter_ext_in. intros j Hj. apply Hpq. intros ->. contradiction. }
    rewrite Heq. destruct (p c), (q c); simpl; lia.
  - rewrite (Hpq a Hac). destruct (q a); simpl; lia.
Qed.

Lemma constant_column_zeroed (X X' : matrix) (f : Z) (j : nat) :
  zero_column X f = Ret X' ->
  j <> column_of X f ->
  constant_column X' j = constant_column X j.
Proof.
  unfold zero_column, column_of.
  destruct (_ && _); [|discriminate]. intros [= <-] Hj.
  unfold constant_column. cbn [rows].
  destruct (rows X) as [|r rs]; [reflexivity|]. simpl map.
  set (c := Z.to_nat (if f <? 0 then f + n_columns X else f)) in *.
  assert (Hcell : forall r', nth j (set_nth c 0%Q r') 0%Q = nth j r' 0%Q).
  { intros r'. rewrite set_nth_cell.
    destruct (c =? j)%nat eqn:Hcj; [|reflexivity].
    apply Nat.eqb_eq in Hcj. congruence. }
  cbv iota. rewrite Hcell.
  induction rs as [|r' rs IH]; [reflexivity|].
  simpl. rewrite Hcell, IH. reflexivity.
Qed.

(** Zeroing a column takes at most that column out of the varying ones. *)
Lemma varying_after_zero (X X' : matrix) (f : Z) :
  zero_column X f = Ret X' ->
  (List.length (varying_columns X) <= S (List.length (varying_columns X')))%nat.
Proof.
  intros Hz. unfold varying_columns.
  rewrite (zero_column_columns _ _ _ Hz).
  apply (filter_length_except _ _ (column_of X f)); [apply seq_NoDup|].
  intros j Hj. rewrite (constant_column_zeroed _ _ _ _ Hz Hj). reflexivity.
Qed.

Section Completion.

Context `{E : Externals}.
Variable y_train y_test : list Z.
Variable max_iter top_n : Z.
Variable limit : nat.
Variables Xtr Xte : matrix.
Hypothesis top_n_positive : 1 <= top_n.
Hypothesis same_columns : n_columns Xte = n_columns Xtr.
Hypothesis extractor : splits_while_varying y_train limit Xtr.
Hypothesis rounds_below_varying :
  max_iter < Z.of_nat (List.length (varying_columns Xtr)).

(** The training array of a settled frame is the ablated one. *)
Lemma settled_ablated (fr : frame) :
  settled y_train y_test limit Xtr Xte (refit_dt y_train 0 Xtr) fr ->
  X_train fr = ablated Xtr (removed (whitebox_iter fr)) /\
  n_columns (X_train fr) = n_columns Xtr /\
  n_columns (X_test fr) = n_columns Xtr.
Proof.
  intros (Hrec & Htr & Hte & _).
  destruct (recorded_in_range _ _ _ _ _ _ _ _ Hrec) as (H1 & _).
  split; [rewrite Htr; apply zero_columns_ablated; exact H1|].
  rewrite Htr, Hte, !zero_columns_columns. split; [reflexivity | exact same_columns].
Qed.

(** A pass entered with the guard true, while enough columns vary,
    cannot raise, and leaves enough columns varying. *)
Lemma body_completes (fr : frame) :
  settled y_train y_test limit Xtr Xte (refit_dt y_train 0 Xtr) fr ->
  (List.length (varying_columns Xtr)
   <= List.length (varying_columns (X_train fr))
      + List.length (whitebox_iter fr))%nat ->
  it fr < max_iter ->
  exists fr',
    loop_body y_train y_test top_n true limit fr = (fr', Normal) /\
    (List.length (varying_columns Xtr)
     <= List.length (varying_columns (X_train fr'))
        + List.length (whitebox_iter fr'))%nat.
Proof.
  intros Hs Hvar Hit.
  destruct (settled_ablated fr Hs) as (Habl & Hc1 & Hc2).
  pose proof Hs as (Hrec & Htr & Hte & Hiteq & _ & Hcalls & Htop).
  (* the feature about to be removed addresses a varying column *)
  rewrite (recorded_last _ _ _ _ _ _ _ Hrec), <- Htr, Habl in Htop.
  destruct Htop as (fu & sp & br & total & u & Hinfo & _ & Hu & _).
  assert (Hv0 : varying_columns (ablated Xtr (removed (whitebox_iter fr))) <> []).
  { rewrite <- Habl. intros Hnil. rewrite Hnil in Hvar. simpl in Hvar. lia. }
  destruct (extractor (0 + List.length (whitebox_iter fr))%nat
                      (removed (whitebox_iter fr)) Hv0)
    as (fu' & sp' & br' & total' & Hinfo' & _ & Hrange).
  rewrite Hinfo in Hinfo'. injection Hinfo' as <- <- <- <-.
  destruct (Hrange _ _ Hu) as (Hf0 & Hfin).
  apply varying_columns_In in Hfin. cbn [n_columns ablated] in Hfin.
  rewrite Z2Nat.id in Hfin by exact Hf0.
  destruct (zero_column_nonneg (X_train fr) (top_feature_to_remove fr))
    as (Xtr' & Hz1); [rewrite Hc1; exact Hfin|].
  destruct (zero_column_nonneg (X_test fr) (top_feature_to_remove fr))
    as (Xte' & Hz2); [rewrite Hc2; exact Hfin|].
  (* the array refitted on still has a varying column *)
  pose proof (varying_after_zero _ _ _ Hz1) as Hdrop.
  assert (Habl' : Xtr' = ablated Xtr (removed (whitebox_iter fr)
                                      ++ [top_feature_to_remove fr])).
  { destruct (recorded_in_range _ _ _ _ _ _ _ _ Hrec) as (H1 & _).
    rewrite <- zero_columns_ablated.
    - rewrite zero_columns_app, <- Htr. simpl. rewrite Hz1. reflexivity.
    - apply Forall_app. split; [exact H1|]. constructor; [|constructor].
      pose proof (zero_column_ret_in_range _ _ _ Hz1) as Hin.
      unfold column_in_range in *. rewrite Hc1 in Hin. exact Hin. }
  assert (Hv1 : varying_columns
                  (ablated Xtr (removed (whitebox_iter fr)
                                ++ [top_feature_to_remove fr])) <> []).
  { rewrite <- Habl'. intros Hnil. rewrite Hnil in Hdrop. simpl in Hdrop. lia. }
  destruct (extractor (calls fr) _ Hv1)
    as (fu2 & sp2 & br2 & total2 & Hinfo2 & Hne2 & _).
  rewrite <- Habl' in Hinfo2.
  destruct (selection_succeeds top_n fu2 top_n_positive Hne2) as (f & Hf).
  assert (Hbody : exists fr', loop_body y_train y_test top_n true limit fr
                              = (fr', Normal) /\ X_train fr' = Xtr').
  { unfold loop_body. rewrite Hz1, Hz2. unfold fit_and_explain. cbn [calls].
    fold (refit_dt y_train (calls fr) Xtr'). rewrite Hinfo2, Hf.
    eexists. split; reflexivity. }
  destruct Hbody as (fr' & Hbody & Hx). exists fr'. split; [exact Hbody|].
  destruct (body_normal _ _ _ _ _ _ _ _ _ Hs Hbody) as (_ & _ & _ & Hlen).
  rewrite Hx, Hlen. lia.
Qed.

Lemma loop_completes (F : Z) (budget : nat) :
  forall fr fr' c,
    settled y_train y_test limit Xtr Xte (refit_dt y_train 0 Xtr) fr ->
    (List.length (varying_columns Xtr)
     <= List.length (varying_columns (X_train fr))
        + List.length (whitebox_iter fr))%nat ->
    ablation_loop y_train y_test max_iter top_n true limit F budget fr
    = Some (fr', c) ->
    c = Normal.
Proof.
  induction budget as [|budget IH]; intros fr fr' c Hs Hvar; simpl;
    destruct (loop_guard max_iter F fr) eqn:Hg;
    try discriminate; try (intros [= _ <-]; reflexivity).
  unfold loop_guard in Hg. apply andb_true_iff in Hg.
  destruct Hg as (Hg & _). apply Z.ltb_lt in Hg.
  destruct (body_completes fr Hs Hvar Hg) as (fr1 & Hbody & Hvar1).
  rewrite Hbody. apply IH; [|exact Hvar1].
  exact (proj1 (body_normal _ _ _ _ _ _ _ _ _ Hs Hbody)).
Qed.

End Completion.


(** The sample extractor [cart_like] splits while a column varies. *)
Lemma cart_like_splits_while_varying (y_train : list Z) (limit : nat)
    (Xtr : matrix) :
  (2 <= limit)%nat ->
  splits_while_varying (E := CART) y_train limit Xtr.
Proof.
  intros Hlimit k fs Hvar. unfold refit_dt.
  cbn [dagger_explain CART externals_of]. unfold cart_like.
  fold (varying_columns (ablated Xtr fs)).
  destruct (varying_columns (ablated Xtr fs)) as [|j js] eqn:Hv; [congruence|].
  rewrite (get_dt_info_well_formed _ _ limit (stump_well_formed (Z.of_nat j)))
    by (simpl; lia).
  do 4 eexists. split; [reflexivity|].
  cbn. rewrite Z.eqb_refl. cbn. rewrite Z.eqb_refl.
  split; [discriminate|].
  intros f u [[= <- _] | []]. split; [lia|].
  rewrite Nat2Z.id. left. reflexivity.
Qed.

